(** * The GnuCash engine's Transaction.c, embedded in Rocq

    A shallow embedding of [src/engine/Transaction.c]: the [Split] and
    [Transaction] structures, the rebalancing algorithm, the edit-session
    functions, the two comparison functions and the accessors.

    Conventions of the embedding.
    - A C pointer is an [option positive]: [None] is NULL, [Some i] an
      address.  The three kinds of objects live in three stores
      ([gmap positive _]); [free] deletes the object, so that a dangling
      pointer is an address absent from its store.
    - A function that can stop the program returns an [outcome]:
      [AssertFail] when an [assert] fails, [Fault] when NULL or a dangling
      pointer is dereferenced, an array is read past its terminator or a
      block is freed twice.
    - A [double] is an exact rational ([Qc]): rounding, infinities and NaN
      are outside the model.  A division by zero follows [Qc] (it yields 0)
      and every theorem that meets one excludes it by hypothesis.  A
      theorem whose conclusion rests on an identity of exact arithmetic (a
      value that is read back, a sum that is zero) says so.
    - A NULL-terminated array of splits is the list of its entries before
      the terminator.  Every transaction of this file gets its array from
      [xaccInitTransaction], so the array pointer itself is never NULL.
    - A [char *] is an [option string].
    - The calls into the Account and Journal collaborators and the
      [printf] diagnostics are recorded, in order, in the engine's trace. *)

From Stdlib Require Import ZArith QArith Qcanon String Ascii.
From stdpp Require Import base gmap strings list fin_maps numbers.

Set Default Proof Using "Type".

(** ** Outcomes *)

Inductive outcome (A : Type) : Type :=
| Ok (a : A)
| AssertFail
| Fault
| OutOfFuel.
Arguments Ok {A} a.
Arguments AssertFail {A}.
Arguments Fault {A}.
Arguments OutOfFuel {A}.

#[global] Instance outcome_ret : MRet outcome := fun _ a => Ok a.
#[global] Instance outcome_bind : MBind outcome := fun _ _ f m =>
  match m with
  | Ok a => f a
  | AssertFail => AssertFail
  | Fault => Fault
  | OutOfFuel => OutOfFuel
  end.

(** ** Data model *)

Record Timespec := mkTimespec { tv_sec : Z; tv_nsec : Z }.

(** Modelled from the spec: [struct _account] is declared in AccountP.h,
    which is not part of the source.  The fields are the ones Transaction.c
    reads or writes ("currency code, security code, open/defer-rebalance
    flag, display name", and the changed flag). *)
Record Account := mkAccount {
  accountName : option string;
  currency : option string;
  security : option string;
  acc_open : Z;
  changed : Z }.

Record Split := mkSplit {
  acc : option positive;
  parent : option positive;
  memo : option string;
  action : option string;
  docref : option string;
  reconciled : ascii;
  damount : Qc;
  share_price : Qc;
  date_reconciled : Timespec;
  balance : Qc;
  cleared_balance : Qc;
  reconciled_balance : Qc;
  share_balance : Qc;
  share_cleared_balance : Qc;
  share_reconciled_balance : Qc }.

Record Transaction := mkTransaction {
  num : option string;
  description : option string;
  trans_docref : option string;
  splits : list positive;
  date_entered : Timespec;
  date_posted : Timespec;
  open : Z }.

#[global] Instance Timespec_eq_dec : EqDecision Timespec.
Proof. solve_decision. Defined.
#[global] Instance Account_eq_dec : EqDecision Account.
Proof. solve_decision. Defined.
#[global] Instance Split_eq_dec : EqDecision Split.
Proof. solve_decision. Defined.
#[global] Instance Transaction_eq_dec : EqDecision Transaction.
Proof. solve_decision. Defined.

(** The messages of the [printf] calls. *)
Inductive Message :=
| MsgNotOpen (trans : positive)
| MsgSetBaseValue (base_currency : option string)
| MsgGetBaseValue (base_currency : option string)
| MsgSplitDestroy (trans : positive) (n : nat) (s : positive).

(** What the engine does to the outside world. *)
Inductive Event :=
| EvPrintf (m : Message)
| EvOpenLog
| EvTransWriteLog (trans : positive) (flag : ascii)
| EvAccountInsertSplit (a : option positive) (s : option positive)
| EvAccountRemoveSplit (a : option positive) (s : option positive)
| EvAccountRecomputeBalance (a : option positive)
| EvCheckDateOrder (a : option positive) (s : option positive).

#[global] Instance Message_eq_dec : EqDecision Message.
Proof. solve_decision. Defined.
#[global] Instance Event_eq_dec : EqDecision Event.
Proof. solve_decision. Defined.

(** The state of the engine: the global [force_double_entry], the three
    stores and the trace. *)
Record Engine := mkEngine {
  force_double_entry : Z;
  accounts : gmap positive Account;
  split_heap : gmap positive Split;
  trans_heap : gmap positive Transaction;
  trace : list Event }.

(** [int force_double_entry = 0;] and nothing allocated. *)
Definition initial_engine : Engine :=
  mkEngine 0 ∅ ∅ ∅ [].

(** bit-field flags for controlling transaction commits *)
Definition BEGIN_EDIT : Z := 1.
Definition DEFER_REBALANCE : Z := 2.

(** Modelled from the spec: the flag of AccountP.h that puts an account in
    the "deferred-rebalance state"; it mirrors the transaction's bit. *)
Definition ACC_DEFER_REBALANCE : Z := 2.

(** Modelled from the spec: the constant of Transaction.h for the
    reconciliation state "not-reconciled". *)
Definition NREC : ascii := "n"%char.

(** Modelled from the spec: the macro DEQ of util.h compares two doubles;
    the spec reads [! DEQ (0.0, x)] as "x is non-zero". *)
Definition DEQ (a b : Qc) : bool := bool_decide (a = b).

(** ** Field updates *)

Definition set_changed (v : Z) (a : Account) : Account :=
  mkAccount (accountName a) (currency a) (security a) (acc_open a) v.

Definition set_acc (v : option positive) (s : Split) : Split :=
  mkSplit v (parent s) (memo s) (action s) (docref s) (reconciled s)
    (damount s) (share_price s) (date_reconciled s) (balance s)
    (cleared_balance s) (reconciled_balance s) (share_balance s)
    (share_cleared_balance s) (share_reconciled_balance s).

Definition set_parent (v : option positive) (s : Split) : Split :=
  mkSplit (acc s) v (memo s) (action s) (docref s) (reconciled s)
    (damount s) (share_price s) (date_reconciled s) (balance s)
    (cleared_balance s) (reconciled_balance s) (share_balance s)
    (share_cleared_balance s) (share_reconciled_balance s).

Definition set_memo (v : option string) (s : Split) : Split :=
  mkSplit (acc s) (parent s) v (action s) (docref s) (reconciled s)
    (damount s) (share_price s) (date_reconciled s) (balance s)
    (cleared_balance s) (reconciled_balance s) (share_balance s)
    (share_cleared_balance s) (share_reconciled_balance s).

Definition set_action (v : option string) (s : Split) : Split :=
  mkSplit (acc s) (parent s) (memo s) v (docref s) (reconciled s)
    (damount s) (share_price s) (date_reconciled s) (balance s)
    (cleared_balance s) (reconciled_balance s) (share_balance s)
    (share_cleared_balance s) (share_reconciled_balance s).

Definition set_reconciled (v : ascii) (s : Split) : Split :=
  mkSplit (acc s) (parent s) (memo s) (action s) (docref s) v
    (damount s) (share_price s) (date_reconciled s) (balance s)
    (cleared_balance s) (reconciled_balance s) (share_balance s)
    (share_cleared_balance s) (share_reconciled_balance s).

Definition set_damount (v : Qc) (s : Split) : Split :=
  mkSplit (acc s) (parent s) (memo s) (action s) (docref s) (reconciled s)
    v (share_price s) (date_reconciled s) (balance s)
    (cleared_balance s) (reconciled_balance s) (share_balance s)
    (share_cleared_balance s) (share_reconciled_balance s).

Definition set_share_price (v : Qc) (s : Split) : Split :=
  mkSplit (acc s) (parent s) (memo s) (action s) (docref s) (reconciled s)
    (damount s) v (date_reconciled s) (balance s)
    (cleared_balance s) (reconciled_balance s) (share_balance s)
    (share_cleared_balance s) (share_reconciled_balance s).

Definition set_num (v : option string) (t : Transaction) : Transaction :=
  mkTransaction v (description t) (trans_docref t) (splits t)
    (date_entered t) (date_posted t) (open t).

Definition set_description (v : option string) (t : Transaction) : Transaction :=
  mkTransaction (num t) v (trans_docref t) (splits t)
    (date_entered t) (date_posted t) (open t).

Definition set_splits (v : list positive) (t : Transaction) : Transaction :=
  mkTransaction (num t) (description t) (trans_docref t) v
    (date_entered t) (date_posted t) (open t).

Definition set_date_entered_sec (v : Z) (t : Transaction) : Transaction :=
  mkTransaction (num t) (description t) (trans_docref t) (splits t)
    (mkTimespec v (tv_nsec (date_entered t))) (date_posted t) (open t).

Definition set_date_posted_sec (v : Z) (t : Transaction) : Transaction :=
  mkTransaction (num t) (description t) (trans_docref t) (splits t)
    (date_entered t) (mkTimespec v (tv_nsec (date_posted t))) (open t).

Definition set_open (v : Z) (t : Transaction) : Transaction :=
  mkTransaction (num t) (description t) (trans_docref t) (splits t)
    (date_entered t) (date_posted t) v.

(** ** The stores *)

Definition deref_split (st : Engine) (p : option positive) : outcome Split :=
  match p with
  | None => Fault
  | Some i => match split_heap st !! i with Some s => Ok s | None => Fault end
  end.

Definition deref_trans (st : Engine) (p : option positive) : outcome Transaction :=
  match p with
  | None => Fault
  | Some i => match trans_heap st !! i with Some t => Ok t | None => Fault end
  end.

Definition deref_account (st : Engine) (p : option positive) : outcome Account :=
  match p with
  | None => Fault
  | Some i => match accounts st !! i with Some a => Ok a | None => Fault end
  end.

Definition store_split (i : positive) (s : Split) (st : Engine) : Engine :=
  mkEngine (force_double_entry st) (accounts st) (<[i:=s]> (split_heap st))
    (trans_heap st) (trace st).

Definition store_trans (i : positive) (t : Transaction) (st : Engine) : Engine :=
  mkEngine (force_double_entry st) (accounts st) (split_heap st)
    (<[i:=t]> (trans_heap st)) (trace st).

Definition store_account (i : positive) (a : Account) (st : Engine) : Engine :=
  mkEngine (force_double_entry st) (<[i:=a]> (accounts st)) (split_heap st)
    (trans_heap st) (trace st).

Definition free_split (i : positive) (st : Engine) : Engine :=
  mkEngine (force_double_entry st) (accounts st) (delete i (split_heap st))
    (trans_heap st) (trace st).

Definition free_trans (i : positive) (st : Engine) : Engine :=
  mkEngine (force_double_entry st) (accounts st) (split_heap st)
    (delete i (trans_heap st)) (trace st).

Definition emit (e : Event) (st : Engine) : Engine :=
  mkEngine (force_double_entry st) (accounts st) (split_heap st)
    (trans_heap st) (trace st ++ [e]).

Definition set_force_double_entry (v : Z) (st : Engine) : Engine :=
  mkEngine v (accounts st) (split_heap st) (trans_heap st) (trace st).

(** A loop over the entries of an array with a body that leaves the array
    itself alone. *)
Fixpoint for_each {A : Type} (body : A -> Engine -> outcome Engine)
    (l : list A) (st : Engine) : outcome Engine :=
  match l with
  | [] => Ok st
  | x :: l' => st' ← body x st; for_each body l' st'
  end.

(** ** The collaborators

    Modelled from the spec: Account.c and TransLog.c are not part of the
    source.  A call is an event of the trace; [xaccAccountInsertSplit]
    moreover makes the account the split's account. *)

Definition xaccOpenLog (st : Engine) : Engine := emit EvOpenLog st.

Definition xaccTransWriteLog (trans : positive) (flag : ascii) (st : Engine) : Engine :=
  emit (EvTransWriteLog trans flag) st.

Definition xaccAccountRemoveSplit (a s : option positive) (st : Engine) : Engine :=
  emit (EvAccountRemoveSplit a s) st.

Definition xaccAccountRecomputeBalance (a : option positive) (st : Engine) : Engine :=
  emit (EvAccountRecomputeBalance a) st.

Definition xaccCheckDateOrder (a s : option positive) (st : Engine) : Engine :=
  emit (EvCheckDateOrder a s) st.

Definition xaccAccountInsertSplit (a s : option positive) (st : Engine) : outcome Engine :=
  let st := emit (EvAccountInsertSplit a s) st in
  match a, s with
  | Some _, Some i => sp ← deref_split st s; Ok (store_split i (set_acc a sp) st)
  | _, _ => Ok st
  end.

(** Modelled from the spec: [strcmp] with the result reduced to its sign
    (the C library may return any negative or positive number; what is
    proved of the comparison functions depends on the sign only), and the
    macro SAFE_STRCMP of util.h, "lexicographic, NULL-safe (absent sorts
    before present)".  [SAFE_STRCMP] gives [Some r] when the macro
    returns [r] from the enclosing function and [None] when control falls
    through; [safe_strcmp] is the function of the same body that ends in
    [return 0]. *)
Definition strcmp (a b : string) : Z :=
  match String.compare a b with
  | Eq => 0
  | Lt => -1
  | Gt => 1
  end.

Definition SAFE_STRCMP (da db : option string) : option Z :=
  match da, db with
  | Some a, Some b => let retval := strcmp a b in
                      if (retval =? 0)%Z then None else Some retval
  | None, Some _ => Some (-1)%Z
  | Some _, None => Some 1%Z
  | None, None => None
  end.

Definition safe_strcmp (da db : option string) : Z :=
  match SAFE_STRCMP da db with
  | Some r => r
  | None => 0
  end.

(** ** Splits *)

(** [xaccInitSplit]: fill in some sane defaults. *)
Definition xaccInitSplit : Split :=
  mkSplit None None (Some ""%string) (Some ""%string) (Some ""%string) NREC
    0%Qc 1%Qc (mkTimespec 0 0) 0%Qc 0%Qc 0%Qc 0%Qc 0%Qc 0%Qc.

(** [_malloc] never fails and returns an address that is not in use. *)
Definition xaccMallocSplit (st : Engine) : positive * Engine :=
  let split := fresh (dom (split_heap st)) in
  (split, store_split split xaccInitSplit st).

Definition xaccFreeSplit (split : option positive) (st : Engine) : outcome Engine :=
  match split with
  | None => Ok st
  | Some i => _ ← deref_split st split; Ok (free_split i st)
  end.

(** [MARK_SPLIT(split)]: [if (acc) acc->changed = 1]. *)
Definition MARK_SPLIT (split : option positive) (st : Engine) : outcome Engine :=
  sp ← deref_split st split;
  match acc sp with
  | None => Ok st
  | Some a => ac ← deref_account st (Some a); Ok (store_account a (set_changed 1 ac) st)
  end.

Definition MarkChanged (trans : positive) (st : Engine) : outcome Engine :=
  tr ← deref_trans st (Some trans);
  for_each (fun s => MARK_SPLIT (Some s)) (splits tr) st.

Definition xaccCountSplits (tarray : list positive) : Z :=
  Z.of_nat (length tarray).

(** [tarray[i]] for an index that is not negative: an entry, the
    terminator, or a read past the terminator.  The list does not record
    the size of the block behind the array, so a read past the terminator
    is one answer, [Fault], whether the slot lies beyond the block or
    inside it (a slot that was never written, or an entry that the
    in-place [xaccTransRemoveSplit] left behind): in each case what is
    read is neither an entry of the array nor its terminator. *)
Definition array_get (tarray : list positive) (i : nat) : outcome (option positive) :=
  match tarray !! i with
  | Some s => Ok (Some s)
  | None => if decide (i = length tarray) then Ok None else Fault
  end.

Definition xaccSplitGetBalance (st : Engine) (s : option positive) : outcome Qc :=
  match s with
  | None => Ok 0%Qc
  | Some _ => sp ← deref_split st s; Ok (balance sp)
  end.

Definition xaccSplitGetClearedBalance (st : Engine) (s : option positive) : outcome Qc :=
  match s with
  | None => Ok 0%Qc
  | Some _ => sp ← deref_split st s; Ok (cleared_balance sp)
  end.

Definition xaccSplitGetReconciledBalance (st : Engine) (s : option positive) : outcome Qc :=
  match s with
  | None => Ok 0%Qc
  | Some _ => sp ← deref_split st s; Ok (reconciled_balance sp)
  end.

Definition xaccSplitGetShareBalance (st : Engine) (s : option positive) : outcome Qc :=
  match s with
  | None => Ok 0%Qc
  | Some _ => sp ← deref_split st s; Ok (share_balance sp)
  end.

(** ** Transactions *)

(** [xaccInitTransaction]: a single split only, whose parent is the
    transaction; [open] is 0. *)
Definition xaccMallocTransaction (st : Engine) : positive * Engine :=
  let trans := fresh (dom (trans_heap st)) in
  let '(split, st) := xaccMallocSplit st in
  let st := store_split split (set_parent (Some trans) xaccInitSplit) st in
  (trans,
   store_trans trans
     (mkTransaction (Some ""%string) (Some ""%string) (Some ""%string) [split]
        (mkTimespec 0 0) (mkTimespec 0 0) 0) st).

Definition xaccFreeTransaction (trans : option positive) (st : Engine) : outcome Engine :=
  match trans with
  | None => Ok st
  | Some t =>
      tr ← deref_trans st trans;
      st ← for_each (fun s => xaccFreeSplit (Some s)) (splits tr) st;
      Ok (free_trans t st)
  end.

(** ** Values in a base currency *)

Definition xaccSplitSetBaseValue (s : option positive) (value : Qc)
    (base_currency : option string) (st : Engine) : outcome Engine :=
  match s with
  | None => Ok st
  | Some i =>
      sp ← deref_split st s;
      match acc sp with
      | None =>
          if (force_double_entry st =? 0)%Z
          then Ok (store_split i (set_damount (value / share_price sp)%Qc sp) st)
          else AssertFail
      | Some a =>
          ac ← deref_account st (Some a);
          if (safe_strcmp (currency ac) base_currency =? 0)%Z then
            Ok (store_split i (set_damount (value / share_price sp)%Qc sp) st)
          else if (safe_strcmp (security ac) base_currency =? 0)%Z then
            Ok (store_split i (set_damount value sp) st)
          else if bool_decide (base_currency = None) && (force_double_entry st =? 0)%Z then
            Ok (store_split i (set_damount (value / share_price sp)%Qc sp) st)
          else
            Ok (emit (EvPrintf (MsgSetBaseValue base_currency)) st)
      end
  end.

Definition xaccSplitGetBaseValue (s : option positive)
    (base_currency : option string) (st : Engine) : outcome (Qc * Engine) :=
  match s with
  | None => Ok (0%Qc, st)
  | Some i =>
      sp ← deref_split st s;
      match acc sp with
      | None =>
          if (force_double_entry st =? 0)%Z
          then Ok ((damount sp * share_price sp)%Qc, st)
          else AssertFail
      | Some a =>
          ac ← deref_account st (Some a);
          if (safe_strcmp (currency ac) base_currency =? 0)%Z then
            Ok ((damount sp * share_price sp)%Qc, st)
          else if (safe_strcmp (security ac) base_currency =? 0)%Z then
            Ok (damount sp, st)
          else if bool_decide (base_currency = None) && (force_double_entry st =? 0)%Z then
            Ok ((damount sp * share_price sp)%Qc, st)
          else
            Ok (0%Qc, emit (EvPrintf (MsgGetBaseValue base_currency)) st)
      end
  end.

(** [ComputeValue]: the loop adds the value of every entry other than
    [skip_me]; the [printf] of its last branch is followed by [assert (0)]. *)
Fixpoint ComputeValue_loop (st : Engine) (sarray : list positive)
    (skip_me : option positive) (base_currency : option string)
    (value : Qc) : outcome Qc :=
  match sarray with
  | [] => Ok value
  | s :: rest =>
      if bool_decide (Some s = skip_me)
      then ComputeValue_loop st rest skip_me base_currency value
      else
        sp ← deref_split st (Some s);
        match acc sp with
        | None =>
            if (force_double_entry st =? 0)%Z
            then ComputeValue_loop st rest skip_me base_currency
                   (value + damount sp * share_price sp)%Qc
            else AssertFail
        | Some a =>
            if bool_decide (base_currency = None) && (force_double_entry st =? 0)%Z then
              ComputeValue_loop st rest skip_me base_currency
                (value + damount sp * share_price sp)%Qc
            else
              ac ← deref_account st (Some a);
              if (safe_strcmp (currency ac) base_currency =? 0)%Z then
                ComputeValue_loop st rest skip_me base_currency
                  (value + share_price sp * damount sp)%Qc
              else if (safe_strcmp (security ac) base_currency =? 0)%Z then
                ComputeValue_loop st rest skip_me base_currency
                  (value + damount sp)%Qc
              else AssertFail
        end
  end.

Definition ComputeValue (st : Engine) (sarray : list positive)
    (skip_me : option positive) (base_currency : option string) : outcome Qc :=
  ComputeValue_loop st sarray skip_me base_currency 0%Qc.

(** ** The rebalancer *)

(** [if (rb && (0x0==rb[0])) rb = 0x0;] *)
Definition empty_is_null (rb : option string) : option string :=
  match rb with
  | Some EmptyString => None
  | _ => rb
  end.

(** One turn of the loop of [xaccSplitRebalance] on the candidates [ra]
    and [rb], for a split whose account has currency [sa] and security
    [sb]. *)
Definition narrow (ra rb sa sb : option string) : option string * option string :=
  match ra, rb with
  | Some _, Some _ =>
      let aa := safe_strcmp ra sa in
      let ab := safe_strcmp ra sb in
      let ba := safe_strcmp rb sa in
      let bb := safe_strcmp rb sb in
      let '(ra, rb) :=
        if (aa =? 0)%Z && negb (bb =? 0)%Z then (ra, None)
        else if (ab =? 0)%Z && negb (ba =? 0)%Z then (ra, None)
        else if (ba =? 0)%Z && negb (ab =? 0)%Z then (None, rb)
        else if (bb =? 0)%Z && negb (aa =? 0)%Z then (None, rb)
        else if negb (aa =? 0)%Z && negb (bb =? 0)%Z
                && negb (ab =? 0)%Z && negb (ba =? 0)%Z then (None, None)
        else (ra, rb) in
      match ra with
      | None => (rb, None)
      | Some _ => (ra, rb)
      end
  | Some _, None =>
      let aa := safe_strcmp ra sa in
      let ab := safe_strcmp ra sb in
      if negb (aa =? 0)%Z && negb (ab =? 0)%Z then (None, rb) else (ra, rb)
  | None, _ => (ra, rb)
  end.

(** The loop that finds the currencies all splits have in common.  With
    [force_double_entry] off every turn is the [continue]. *)
Fixpoint resolve_loop (st : Engine) (sarray : list positive)
    (ra rb : option string) : outcome (option string * option string) :=
  match sarray with
  | [] => Ok (ra, rb)
  | s :: rest =>
      if (force_double_entry st =? 0)%Z then resolve_loop st rest ra rb
      else
        sp ← deref_split st (Some s);
        match acc sp with
        | None => AssertFail
        | Some a =>
            ac ← deref_account st (Some a);
            let '(ra', rb') :=
              narrow ra rb (currency ac) (empty_is_null (security ac)) in
            if bool_decide (ra' = None) && bool_decide (rb' = None)
            then AssertFail
            else resolve_loop st rest ra' rb'
        end
  end.

(** [strdup]: a copy of the text; NULL cannot be copied. *)
Definition strdup (s : option string) : outcome (option string) :=
  match s with
  | None => Fault
  | Some _ => Ok s
  end.

(** The second half of [xaccSplitRebalance], from [base_currency = ra] on.
    [sp] and [tr] are [*split] and [*trans]. *)
Definition force_balance
    (append : option positive -> option positive -> Engine -> outcome Engine)
    (split : option positive) (sp : Split) (trans : positive) (tr : Transaction)
    (base_currency : option string) (st : Engine) : outcome Engine :=
  if bool_decide (split = head (splits tr)) then
    match splits tr !! 1%nat with
    | Some s =>
        value ← ComputeValue st (splits tr) (Some s) base_currency;
        st ← xaccSplitSetBaseValue (Some s) (- value)%Qc base_currency st;
        st ← MARK_SPLIT (Some s) st;
        sp1 ← deref_split st (Some s);
        Ok (xaccAccountRecomputeBalance (acc sp1) st)
    | None =>
        if negb (force_double_entry st =? 0)%Z && negb (DEQ 0%Qc (damount sp)) then
          let value := (share_price sp * damount sp)%Qc in
          let '(s, st) := xaccMallocSplit st in
          m ← strdup (memo sp);
          a ← strdup (action sp);
          let st := store_split s
                      (set_action a
                         (set_memo m (set_damount (- value)%Qc xaccInitSplit))) st in
          st ← MARK_SPLIT (Some s) st;
          st ← append (Some trans) (Some s) st;
          sp' ← deref_split st split;
          xaccAccountInsertSplit (acc sp') (Some s) st
        else Ok st
    end
  else
    let s := head (splits tr) in
    value ← ComputeValue st (splits tr) s base_currency;
    st ← xaccSplitSetBaseValue s (- value)%Qc base_currency st;
    st ← MARK_SPLIT s st;
    sp0 ← deref_split st s;
    Ok (xaccAccountRecomputeBalance (acc sp0) st).

(** [xaccSplitRebalance], with the function it calls for the split it
    creates as a parameter. *)
Definition xaccSplitRebalance_body
    (append : option positive -> option positive -> Engine -> outcome Engine)
    (split : option positive) (st : Engine) : outcome Engine :=
  sp ← deref_split st split;
  match parent sp with
  | None => Ok st
  | Some trans =>
      tr ← deref_trans st (Some trans);
      if negb (Z.land DEFER_REBALANCE (open tr) =? 0)%Z then Ok st
      else
        match acc sp with
        | Some a =>
            ac ← deref_account st (Some a);
            if negb (Z.land ACC_DEFER_REBALANCE (acc_open ac) =? 0)%Z then Ok st
            else
              match splits tr with
              | [] => AssertFail
              | _ :: _ =>
                  r ← resolve_loop st (splits tr) (currency ac)
                        (empty_is_null (security ac));
                  force_balance append split sp trans tr (fst r) st
              end
        | None =>
            match splits tr with
            | [] => AssertFail
            | _ :: _ => force_balance append split sp trans tr None st
            end
        end
  end.

(** [xaccTransRebalance (trans)] is [xaccSplitRebalance (trans->splits[0])]. *)
Definition xaccTransRebalance_with
    (rebalance : option positive -> Engine -> outcome Engine)
    (trans : option positive) (st : Engine) : outcome Engine :=
  tr ← deref_trans st trans;
  rebalance (head (splits tr)) st.

(** ** Edit sessions *)

(** [CHECK_OPEN]: the [assert] and the [return] are commented out; what is
    left prints. *)
Definition CHECK_OPEN (trans : positive) (st : Engine) : outcome Engine :=
  tr ← deref_trans st (Some trans);
  if (open tr =? 0)%Z then Ok (emit (EvPrintf (MsgNotOpen trans)) st) else Ok st.

(** The loop of [xaccTransRemoveSplit] copies every entry that is not
    [split] down to the next free slot. *)
Fixpoint compact (split : positive) (sarray : list positive) : list positive :=
  match sarray with
  | [] => []
  | s :: rest =>
      if bool_decide (split = s) then compact split rest
      else s :: compact split rest
  end.

Definition xaccTransRemoveSplit (trans split : option positive) (st : Engine)
    : outcome Engine :=
  match split, trans with
  | None, _ => Ok st
  | _, None => Ok st
  | Some s, Some t =>
      sp ← deref_split st split;
      let st := store_split s (set_parent None sp) st in
      tr ← deref_trans st trans;
      Ok (store_trans t (set_splits (compact s (splits tr)) tr) st)
  end.

(** [xaccTransAppendSplit], with [xaccSplitRebalance] as a parameter. *)
Definition xaccTransAppendSplit_body
    (rebalance : option positive -> Engine -> outcome Engine)
    (trans split : option positive) (st : Engine) : outcome Engine :=
  match trans, split with
  | None, _ => Ok st
  | _, None => Ok st
  | Some t, Some s =>
      st ← CHECK_OPEN t st;
      sp ← deref_split st split;
      st ← match parent sp with
           | Some oldtrans =>
               st ← xaccTransRemoveSplit (Some oldtrans) split st;
               xaccTransRebalance_with rebalance (Some oldtrans) st
           | None => Ok st
           end;
      sp ← deref_split st split;
      let st := store_split s (set_parent trans sp) st in
      tr ← deref_trans st trans;
      let st := store_trans t (set_splits (splits tr ++ [s]) tr) st in
      rebalance split st
  end.

(** The two functions call each other; [fuel] bounds the depth of the
    calls.  [rebalance_fuel_enough] below shows that depth 2 is never
    exceeded. *)
Fixpoint xaccSplitRebalance_fuel (fuel : nat) (split : option positive)
    (st : Engine) : outcome Engine :=
  match fuel with
  | O => OutOfFuel
  | S fuel' =>
      xaccSplitRebalance_body
        (xaccTransAppendSplit_body (xaccSplitRebalance_fuel fuel')) split st
  end.

Definition xaccSplitRebalance : option positive -> Engine -> outcome Engine :=
  xaccSplitRebalance_fuel 2.

Definition xaccTransAppendSplit
    : option positive -> option positive -> Engine -> outcome Engine :=
  xaccTransAppendSplit_body xaccSplitRebalance.

Definition xaccTransRebalance : option positive -> Engine -> outcome Engine :=
  xaccTransRebalance_with xaccSplitRebalance.

Definition xaccTransBeginEdit (trans : option positive) (defer : Z) (st : Engine)
    : outcome Engine :=
  match trans with
  | None => AssertFail
  | Some t =>
      tr ← deref_trans st trans;
      let o := if (defer =? 0)%Z then BEGIN_EDIT
               else Z.lor BEGIN_EDIT DEFER_REBALANCE in
      let st := store_trans t (set_open o tr) st in
      Ok (xaccTransWriteLog t "B" (xaccOpenLog st))
  end.

(** The bodies of the two loops of [xaccTransCommitEdit]. *)
Definition check_date_order (s : positive) (st : Engine) : outcome Engine :=
  sp ← deref_split st (Some s);
  Ok (xaccCheckDateOrder (acc sp) (Some s) st).

Definition recompute_balance (s : positive) (st : Engine) : outcome Engine :=
  sp ← deref_split st (Some s);
  Ok (xaccAccountRecomputeBalance (acc sp) st).

Definition xaccTransCommitEdit (trans : option positive) (st : Engine)
    : outcome Engine :=
  match trans with
  | None => Ok st
  | Some t =>
      st ← CHECK_OPEN t st;
      tr ← deref_trans st trans;
      let st := store_trans t
                  (set_open (Z.land (open tr) (Z.lnot DEFER_REBALANCE)) tr) st in
      st ← xaccTransRebalance trans st;
      tr ← deref_trans st trans;
      st ← for_each check_date_order (splits tr) st;
      st ← for_each recompute_balance (splits tr) st;
      tr ← deref_trans st trans;
      let st := store_trans t (set_open 0 tr) st in
      Ok (xaccTransWriteLog t "C" st)
  end.

Definition xaccTransDestroy (trans : option positive) (st : Engine)
    : outcome Engine :=
  match trans with
  | None => Ok st
  | Some t =>
      st ← CHECK_OPEN t st;
      let st := xaccTransWriteLog t "D" st in
      tr ← deref_trans st trans;
      st ← for_each
             (fun s st =>
                st ← MARK_SPLIT (Some s) st;
                sp ← deref_split st (Some s);
                let st := xaccAccountRemoveSplit (acc sp) (Some s) st in
                Ok (xaccAccountRecomputeBalance (acc sp) st))
             (splits tr) st;
      xaccFreeTransaction trans st
  end.

(** The first loop of [xaccSplitDestroy]: it prints, marks and looks for
    [split]; [numsplits] is the index of the entry. *)
Fixpoint SplitDestroy_scan (trans : positive) (split : option positive)
    (sarray : list positive) (numsplits : nat) (ismember : bool) (st : Engine)
    : outcome (bool * Engine) :=
  match sarray with
  | [] => Ok (ismember, st)
  | s :: rest =>
      let st := emit (EvPrintf (MsgSplitDestroy trans numsplits s)) st in
      st ← MARK_SPLIT (Some s) st;
      SplitDestroy_scan trans split rest (S numsplits)
        (ismember || bool_decide (Some s = split)) st
  end.

Definition xaccSplitDestroy (split : option positive) (st : Engine)
    : outcome Engine :=
  sp ← deref_split st split;
  match parent sp with
  | None => AssertFail
  | Some trans =>
      st ← CHECK_OPEN trans st;
      tr ← deref_trans st (Some trans);
      r ← SplitDestroy_scan trans split (splits tr) 0 false st;
      let '(ismember, st) := r in
      if negb ismember then AssertFail
      else if (2 <? xaccCountSplits (splits tr))%Z then
        st ← MARK_SPLIT split st;
        st ← xaccTransRemoveSplit (Some trans) split st;
        sp ← deref_split st split;
        let st := xaccAccountRemoveSplit (acc sp) split st in
        let st := xaccAccountRecomputeBalance (acc sp) st in
        st ← xaccFreeSplit split st;
        tr ← deref_trans st (Some trans);
        xaccSplitRebalance (head (splits tr)) st
      else
        let st := xaccTransWriteLog trans "D" st in
        let s := head (splits tr) in
        sp0 ← deref_split st s;
        st ← MARK_SPLIT s st;
        let st := xaccAccountRemoveSplit (acc sp0) s st in
        let st := xaccAccountRecomputeBalance (acc sp0) st in
        match splits tr !! 1%nat with
        | Some s1 =>
            sp1 ← deref_split st (Some s1);
            st ← MARK_SPLIT (Some s1) st;
            let st := xaccAccountRemoveSplit (acc sp1) (Some s1) st in
            let st := xaccAccountRecomputeBalance (acc sp1) st in
            xaccFreeTransaction (Some trans) st
        | None => Ok st
        end
  end.

(** ** Sorting comparison functions *)

(** [or_else r k]: the macro SAFE_STRCMP returned [r], or the function
    goes on with [k]. *)
Definition or_else (r : option Z) (k : Z) : Z :=
  match r with
  | Some v => v
  | None => k
  end.

(** [xaccTransOrder (ta, tb)], given [*ta] and [*tb]. *)
Definition xaccTransOrder (ta tb : option Transaction) : Z :=
  match ta, tb with
  | Some _, None => -1
  | None, Some _ => 1
  | None, None => 0
  | Some a, Some b =>
      if (tv_sec (date_posted a) <? tv_sec (date_posted b))%Z then -1
      else if (tv_sec (date_posted a) >? tv_sec (date_posted b))%Z then 1
      else if (tv_nsec (date_posted a) <? tv_nsec (date_posted b))%Z then -1
      else if (tv_nsec (date_posted a) >? tv_nsec (date_posted b))%Z then 1
      else or_else (SAFE_STRCMP (num a) (num b))
             (or_else (SAFE_STRCMP (description a) (description b)) 0)
  end.

(** The transaction a parent field points to, when there is one. *)
Definition load_trans (st : Engine) (p : option positive)
    : outcome (option Transaction) :=
  match p with
  | None => Ok None
  | Some _ => tr ← deref_trans st p; Ok (Some tr)
  end.

(** [xaccSplitOrder (sa, sb)], given [*sa] and [*sb]. *)
Definition xaccSplitOrder (st : Engine) (sa sb : option positive) : outcome Z :=
  match sa, sb with
  | Some _, None => Ok (-1)%Z
  | None, Some _ => Ok 1%Z
  | None, None => Ok 0%Z
  | Some _, Some _ =>
      a ← deref_split st sa;
      b ← deref_split st sb;
      ta ← load_trans st (parent a);
      tb ← load_trans st (parent b);
      let retval := xaccTransOrder ta tb in
      if negb (retval =? 0)%Z then Ok retval
      else Ok (or_else (SAFE_STRCMP (memo a) (memo b))
                 (or_else (SAFE_STRCMP (action a) (action b)) 0))
  end.

(** ** Setters *)

Definition xaccSplitSetSharePriceAndAmount (s : option positive) (price amt : Qc)
    (st : Engine) : outcome Engine :=
  st ← MARK_SPLIT s st;
  sp ← deref_split st s;
  let st := match s with
            | Some i => store_split i (set_damount amt (set_share_price price sp)) st
            | None => st
            end in
  xaccSplitRebalance s st.

Definition xaccSplitSetSharePrice (s : option positive) (amt : Qc)
    (st : Engine) : outcome Engine :=
  st ← MARK_SPLIT s st;
  sp ← deref_split st s;
  let st := match s with
            | Some i => store_split i (set_share_price amt sp) st
            | None => st
            end in
  xaccSplitRebalance s st.

Definition xaccSplitSetShareAmount (s : option positive) (amt : Qc)
    (st : Engine) : outcome Engine :=
  st ← MARK_SPLIT s st;
  sp ← deref_split st s;
  let st := match s with
            | Some i => store_split i (set_damount amt sp) st
            | None => st
            end in
  xaccSplitRebalance s st.

Definition xaccSplitSetValue (s : option positive) (amt : Qc)
    (st : Engine) : outcome Engine :=
  st ← MARK_SPLIT s st;
  sp ← deref_split st s;
  let st := match s with
            | Some i => store_split i (set_damount (amt / share_price sp)%Qc sp) st
            | None => st
            end in
  xaccSplitRebalance s st.

(** The body of the loop of [xaccTransSetDateSecs]: remove and reinsert
    the split. *)
Definition reinsert_split (s : positive) (st : Engine) : outcome Engine :=
  sp ← deref_split st (Some s);
  xaccAccountInsertSplit (acc sp) (Some s)
    (xaccAccountRemoveSplit (acc sp) (Some s) st).

Definition xaccTransSetDateSecs (trans : option positive) (secs : Z)
    (st : Engine) : outcome Engine :=
  match trans with
  | None => Ok st
  | Some t =>
      st ← CHECK_OPEN t st;
      tr ← deref_trans st trans;
      let st := store_trans t
                  (set_date_posted_sec secs (set_date_entered_sec secs tr)) st in
      for_each reinsert_split (splits tr) st
  end.

Definition xaccTransSetNum (trans : option positive) (xnum : option string)
    (st : Engine) : outcome Engine :=
  match trans with
  | None => Ok st
  | Some t =>
      st ← CHECK_OPEN t st;
      tmp ← strdup xnum;
      tr ← deref_trans st trans;
      let st := store_trans t (set_num tmp tr) st in
      MarkChanged t st
  end.

Definition xaccTransSetDescription (trans : option positive) (desc : option string)
    (st : Engine) : outcome Engine :=
  match trans with
  | None => Ok st
  | Some t =>
      st ← CHECK_OPEN t st;
      tmp ← strdup desc;
      tr ← deref_trans st trans;
      let st := store_trans t (set_description tmp tr) st in
      MarkChanged t st
  end.

(** [SET_TRANS_FIELD (trans, field, value)]; [set_field] is the assignment
    to [field]. *)
Definition SET_TRANS_FIELD (set_field : option string -> Split -> Split)
    (trans : option positive) (value : option string) (st : Engine)
    : outcome Engine :=
  match trans with
  | None => Ok st
  | Some t =>
      st ← CHECK_OPEN t st;
      tr ← deref_trans st trans;
      match splits tr with
      | [] => AssertFail
      | s0 :: _ =>
          sp0 ← deref_split st (Some s0);
          if negb (force_double_entry st =? 0)%Z && negb (DEQ 0%Qc (damount sp0))
             && bool_decide (splits tr !! 1%nat = None)
          then AssertFail
          else
            tmp ← strdup value;
            let st := store_split s0 (set_field tmp sp0) st in
            st ← MARK_SPLIT (Some s0) st;
            match splits tr !! 1%nat, splits tr !! 2%nat with
            | Some s1, None =>
                sp1 ← deref_split st (Some s1);
                let st := store_split s1 (set_field tmp sp1) st in
                MARK_SPLIT (Some s1) st
            | _, _ => Ok st
            end
      end
  end.

Definition xaccTransSetMemo : option positive -> option string -> Engine -> outcome Engine :=
  SET_TRANS_FIELD set_memo.

Definition xaccTransSetAction : option positive -> option string -> Engine -> outcome Engine :=
  SET_TRANS_FIELD set_action.

Definition xaccSplitSetMemo (split : option positive) (m : option string)
    (st : Engine) : outcome Engine :=
  match split with
  | None => Ok st
  | Some i =>
      tmp ← strdup m;
      sp ← deref_split st split;
      MARK_SPLIT split (store_split i (set_memo tmp sp) st)
  end.

Definition xaccSplitSetAction (split : option positive) (actn : option string)
    (st : Engine) : outcome Engine :=
  match split with
  | None => Ok st
  | Some i =>
      tmp ← strdup actn;
      sp ← deref_split st split;
      MARK_SPLIT split (store_split i (set_action tmp sp) st)
  end.

Definition xaccSplitSetReconcile (split : option positive) (recn : ascii)
    (st : Engine) : outcome Engine :=
  match split with
  | None => Ok st
  | Some i =>
      sp ← deref_split st split;
      st ← MARK_SPLIT split (store_split i (set_reconciled recn sp) st);
      Ok (xaccAccountRecomputeBalance (acc sp) st)
  end.

(** ** Accessors *)

Definition xaccTransGetSplit (st : Engine) (trans : option positive) (i : Z)
    : outcome (option positive) :=
  match trans with
  | None => Ok None
  | Some _ =>
      if (0 >? i)%Z then Ok None
      else tr ← deref_trans st trans; array_get (splits tr) (Z.to_nat i)
  end.

Definition xaccTransGetNum (st : Engine) (trans : option positive)
    : outcome (option string) :=
  match trans with
  | None => Ok None
  | Some _ => tr ← deref_trans st trans; Ok (num tr)
  end.

Definition xaccTransGetDescription (st : Engine) (trans : option positive)
    : outcome (option string) :=
  match trans with
  | None => Ok None
  | Some _ => tr ← deref_trans st trans; Ok (description tr)
  end.

Definition xaccTransGetDate (st : Engine) (trans : option positive) : outcome Z :=
  match trans with
  | None => Ok 0%Z
  | Some _ => tr ← deref_trans st trans; Ok (tv_sec (date_posted tr))
  end.

(** [return (xaccCountSplits (trans->splits));] with no test of [trans]. *)
Definition xaccTransCountSplits (st : Engine) (trans : option positive) : outcome Z :=
  tr ← deref_trans st trans; Ok (xaccCountSplits (splits tr)).

Definition xaccSplitGetParent (st : Engine) (split : option positive)
    : outcome (option positive) :=
  match split with
  | None => Ok None
  | Some _ => sp ← deref_split st split; Ok (parent sp)
  end.

Definition xaccSplitGetAccount (st : Engine) (split : option positive)
    : outcome (option positive) :=
  match split with
  | None => Ok None
  | Some _ => sp ← deref_split st split; Ok (acc sp)
  end.

Definition xaccSplitGetMemo (st : Engine) (split : option positive)
    : outcome (option string) :=
  match split with
  | None => Ok None
  | Some _ => sp ← deref_split st split; Ok (memo sp)
  end.

Definition xaccSplitGetAction (st : Engine) (split : option positive)
    : outcome (option string) :=
  match split with
  | None => Ok None
  | Some _ => sp ← deref_split st split; Ok (action sp)
  end.

Definition xaccSplitGetReconcile (st : Engine) (split : option positive)
    : outcome ascii :=
  match split with
  | None => Ok " "%char
  | Some _ => sp ← deref_split st split; Ok (reconciled sp)
  end.

Definition xaccSplitGetShareAmount (st : Engine) (split : option positive)
    : outcome Qc :=
  match split with
  | None => Ok 0%Qc
  | Some _ => sp ← deref_split st split; Ok (damount sp)
  end.

Definition xaccSplitGetValue (st : Engine) (split : option positive)
    : outcome Qc :=
  match split with
  | None => Ok 0%Qc
  | Some _ => sp ← deref_split st split; Ok (damount sp * share_price sp)%Qc
  end.

Definition xaccSplitGetSharePrice (st : Engine) (split : option positive)
    : outcome Qc :=
  match split with
  | None => Ok 1%Qc
  | Some _ => sp ← deref_split st split; Ok (share_price sp)
  end.

(** ** The words of the specification

    The definitions of this section follow the specification, not the
    code; the theorems compare them with the code. *)

(** The sign a comparison function returns for an outcome. *)
Definition sign_of (c : comparison) : Z :=
  match c with
  | Lt => -1
  | Eq => 0
  | Gt => 1
  end.

(** "keys applied in order until one differentiates" *)
Definition then_by (c k : comparison) : comparison :=
  match c with
  | Eq => k
  | _ => c
  end.

(** "lexicographic", with an absent text before a present one. *)
Definition text_compare (a b : option string) : comparison :=
  match a, b with
  | None, None => Eq
  | None, Some _ => Lt
  | Some _, None => Gt
  | Some x, Some y => String.compare x y
  end.

(** "(1) presence -- a present transaction sorts before an absent one;
    (2) posted-time seconds ascending; (3) posted-time sub-second
    ascending; (4) num field, lexicographic; (5) description field,
    lexicographic; otherwise equal." *)
Definition canonical_order (ta tb : option Transaction) : comparison :=
  match ta, tb with
  | Some _, None => Lt
  | None, Some _ => Gt
  | None, None => Eq
  | Some a, Some b =>
      then_by (tv_sec (date_posted a) ?= tv_sec (date_posted b))%Z
        (then_by (tv_nsec (date_posted a) ?= tv_nsec (date_posted b))%Z
           (then_by (text_compare (num a) (num b))
              (text_compare (description a) (description b))))
  end.

(** The posted time of [a] is earlier than the posted time of [b]. *)
Definition posted_before (a b : Transaction) : Prop :=
  (tv_sec (date_posted a) < tv_sec (date_posted b))%Z
  ∨ (tv_sec (date_posted a) = tv_sec (date_posted b)
     ∧ (tv_nsec (date_posted a) < tv_nsec (date_posted b))%Z).

(** The order of two splits, given each split with the transaction its
    parent field points to: the order of the parents, then memo, then
    action; a present split before an absent one. *)
Definition split_order (sa sb : option (Split * option Transaction)) : comparison :=
  match sa, sb with
  | Some _, None => Lt
  | None, Some _ => Gt
  | None, None => Eq
  | Some (a, ta), Some (b, tb) =>
      then_by (canonical_order ta tb)
        (then_by (text_compare (memo a) (memo b))
           (text_compare (action a) (action b)))
  end.

(** "A Split's parent reference always equals the Transaction that
    currently holds it in its sequence (symmetric back-reference)": every
    entry of a transaction's array is a live split whose parent is that
    transaction, a live split with a parent is an entry of that parent's
    array, and no array holds a split twice. *)
Record engine_wf (st : Engine) : Prop := mk_engine_wf {
  wf_member : ∀ t tr s,
    trans_heap st !! t = Some tr → s ∈ splits tr →
    ∃ sp, split_heap st !! s = Some sp ∧ parent sp = Some t;
  wf_parent : ∀ s sp t,
    split_heap st !! s = Some sp → parent sp = Some t →
    ∃ tr, trans_heap st !! t = Some tr ∧ s ∈ splits tr;
  wf_nodup : ∀ t tr, trans_heap st !! t = Some tr → NoDup (splits tr) }.

(** The account a live split points to, when it points to one, is live. *)
Definition accounts_live (st : Engine) : Prop :=
  ∀ s sp a, split_heap st !! s = Some sp → acc sp = Some a →
            is_Some (accounts st !! a).

(** What makes a three-way comparison a total preorder: it is
    antisymmetric, its strict part is transitive and its ties are
    indistinguishable. *)
Record order_laws {A : Type} (cmp : A → A → comparison) : Prop := mk_order_laws {
  ol_antisym : ∀ x y, cmp y x = CompOpp (cmp x y);
  ol_trans : ∀ x y z, cmp x y = Lt → cmp y z = Lt → cmp x z = Lt;
  ol_eq_l : ∀ x y z, cmp x y = Eq → cmp x z = cmp y z }.

(** ** Notions used in the proofs *)

(** The state [MARK_SPLIT] leaves for a split [sp]. *)
Definition marked (sp : Split) (st : Engine) : Engine :=
  match acc sp with
  | None => st
  | Some a =>
      match accounts st !! a with
      | Some ac => store_account a (set_changed 1 ac) st
      | None => st
      end
  end.

(** The state [CHECK_OPEN] leaves for a transaction [tr] at [trans]. *)
Definition checked (trans : positive) (tr : Transaction) (st : Engine) : Engine :=
  if (open tr =? 0)%Z then emit (EvPrintf (MsgNotOpen trans)) st else st.

(** A run that does not stop for lack of fuel. *)
Definition returns {A : Type} (m : outcome A) : Prop := m ≠ OutOfFuel.

(** The state in which the rebalancer appends the split it has created:
    the split has no parent yet and the transaction has a split. *)
Definition orphan_call (t s : positive) (st : Engine) : Prop :=
  (∃ sp, split_heap st !! s = Some sp ∧ parent sp = None)
  ∧ (∃ tr, trans_heap st !! t = Some tr ∧ splits tr ≠ []).

(** Every split that was live is still live and has the parent it had. *)
Definition parents_kept (st st' : Engine) : Prop :=
  ∀ i sp, split_heap st !! i = Some sp →
          ∃ sp', split_heap st' !! i = Some sp' ∧ parent sp' = parent sp.

(** The same, but for the split [s]. *)
Definition parents_kept_but (s : positive) (st st' : Engine) : Prop :=
  ∀ i sp, i ≠ s → split_heap st !! i = Some sp →
          ∃ sp', split_heap st' !! i = Some sp' ∧ parent sp' = parent sp.

(** A step that maintains the back-references and moves no split. *)
Definition keeps (st st' : Engine) : Prop :=
  (engine_wf st → engine_wf st') ∧ parents_kept st st'.

(** What a function in the place of [xaccSplitRebalance] has to do for the
    back-references. *)
Definition rebalance_keeps
    (rebalance : option positive → Engine → outcome Engine) : Prop :=
  ∀ split st st', rebalance split st = Ok st' → keeps st st'.

(** What a function in the place of [xaccTransAppendSplit] has to do: it
    maintains the back-references, moves no split but [s], and leaves [s]
    with [t] as its parent. *)
Definition append_keeps
    (append : option positive → option positive → Engine → outcome Engine) : Prop :=
  ∀ t s st st', append (Some t) (Some s) st = Ok st' →
    (engine_wf st → engine_wf st')
    ∧ parents_kept_but s st st'
    ∧ ∃ sp, split_heap st' !! s = Some sp ∧ parent sp = Some t.

(** "Value in a given currency = damount * share_price when expressed in
    the account's currency, or damount alone when expressed in the
    account's security unit": the value of the split at [s] in
    [base_currency], when its account has that unit. *)
Definition value_in (st : Engine) (base_currency : option string) (s : positive)
    : option Qc :=
  match split_heap st !! s with
  | Some sp =>
      match acc sp with
      | Some a =>
          match accounts st !! a with
          | Some ac =>
              if decide (currency ac = base_currency)
              then Some (damount sp * share_price sp)%Qc
              else if decide (security ac = base_currency)
              then Some (damount sp)
              else None
          | None => None
          end
      | None => None
      end
  | None => None
  end.

(** "the sum -- across all splits of a transaction, each expressed in one
    common currency/security" *)
Fixpoint sum_of_values (st : Engine) (base_currency : option string)
    (sarray : list positive) : option Qc :=
  match sarray with
  | [] => Some 0%Qc
  | s :: rest =>
      match value_in st base_currency s, sum_of_values st base_currency rest with
      | Some v, Some r => Some (v + r)%Qc
      | _, _ => None
      end
  end.

(** The account of the split at [s] has the unit [c] as its currency or as
    its security. *)
Definition has_unit (st : Engine) (c : string) (s : positive) : Prop :=
  ∃ sp a ac, split_heap st !! s = Some sp ∧ acc sp = Some a
             ∧ accounts st !! a = Some ac
             ∧ (currency ac = Some c ∨ security ac = Some c).

(** Two states of the engine that differ in the trace at most. *)
Definition same_books (st st' : Engine) : Prop :=
  force_double_entry st' = force_double_entry st
  ∧ accounts st' = accounts st
  ∧ split_heap st' = split_heap st
  ∧ trans_heap st' = trans_heap st.

(** ** The rest of the accessors of Transaction.c *)

(** [xaccGetOtherSplit]: the parent is dereferenced without a test; the
    entry at index 2 is read only when the entry at index 1 is not NULL. *)
Definition xaccGetOtherSplit (st : Engine) (split : option positive)
    : outcome (option positive) :=
  match split with
  | None => Ok None
  | Some _ =>
      sp ← deref_split st split;
      tr ← deref_trans st (parent sp);
      s1 ← array_get (splits tr) 1;
      s2 ← match s1 with
           | Some _ => array_get (splits tr) 2
           | None => Ok None
           end;
      match s1, s2 with
      | Some _, Some _ => Ok None
      | _, _ =>
          s0 ← array_get (splits tr) 0;
          if bool_decide (split = s0) then Ok s1
          else if bool_decide (split = s1) then Ok s0
          else Ok None
      end
  end.

Definition xaccIsPeerSplit (st : Engine) (sa sb : option positive) : outcome Z :=
  match sa, sb with
  | Some _, Some _ =>
      a ← deref_split st sa;
      b ← deref_split st sb;
      if bool_decide (parent a = parent b) then Ok 1%Z else Ok 0%Z
  | _, _ => Ok 0%Z
  end.

(** ** Notions used for the further properties *)

(** The split on which a rebalance that starts at [split] puts the
    imbalance: the first destination split when [split] is the source
    split, the source split otherwise. *)
Definition balancing_split (tr : Transaction) (split : option positive)
    : option positive :=
  if bool_decide (split = head (splits tr)) then splits tr !! 1%nat
  else head (splits tr).

(** From [st] to [st'] nothing has changed but the trace, the [changed]
    flags of the accounts and, at most, the amount of the split [target]. *)
Definition amount_forced_at (target : option positive) (st st' : Engine) : Prop :=
  force_double_entry st' = force_double_entry st
  ∧ trans_heap st' = trans_heap st
  ∧ (∀ a, set_changed 0 <$> accounts st' !! a = set_changed 0 <$> accounts st !! a)
  ∧ (∀ j, Some j ≠ target → split_heap st' !! j = split_heap st !! j)
  ∧ (∀ j, Some j = target →
          ∃ d, split_heap st' !! j = set_damount d <$> split_heap st !! j).


(** The body of the loop of [xaccTransDestroy], by name. *)
Definition detach_split (s : positive) (st : Engine) : outcome Engine :=
  st ← MARK_SPLIT (Some s) st;
  sp ← deref_split st (Some s);
  let st := xaccAccountRemoveSplit (acc sp) (Some s) st in
  Ok (xaccAccountRecomputeBalance (acc sp) st).

(** What [xaccSplitOrder] reads of a split in a store: the split and the
    transaction its parent field points to. *)
Definition order_key (st : Engine) (s : option positive)
    : option (Split * option Transaction) :=
  match s with
  | None => None
  | Some i =>
      match split_heap st !! i with
      | Some a => Some (a, parent a ≫= λ t, trans_heap st !! t)
      | None => Some (xaccInitSplit, None)
      end
  end.

(** [xaccSplitOrder] can read the split: it is absent, or it is live and
    its parent, when it has one, is live. *)
Definition readable (st : Engine) (s : option positive) : Prop :=
  match s with
  | None => True
  | Some i => ∃ a, split_heap st !! i = Some a
                   ∧ ∀ t, parent a = Some t → is_Some (trans_heap st !! t)
  end.

(** The split at [s] is live and has a live account whose currency is
    [c]. *)
Definition has_currency (st : Engine) (c : string) (s : positive) : Prop :=
  ∃ sp a ac, split_heap st !! s = Some sp ∧ acc sp = Some a
             ∧ accounts st !! a = Some ac ∧ currency ac = Some c.

(** * Theorems *)

(** ** Comparison functions: the canonical ordering *)

Section order_laws.
Context {A : Type}.

Lemma ol_eq_r (cmp : A → A → comparison) : order_laws cmp →
  ∀ x y z, cmp y z = Eq → cmp x y = cmp x z.
Proof.
  intros [Ha _ He] x y z Hyz.
  rewrite (Ha y x), (Ha z x). f_equal.
  apply He. exact Hyz.
Qed.

Lemma ol_refl (cmp : A → A → comparison) : order_laws cmp → ∀ x, cmp x x = Eq.
Proof.
  intros [Ha _ _] x. specialize (Ha x x). destruct (cmp x x); simpl in Ha; congruence.
Qed.

(** The lexicographic product of two such comparisons is one. *)
Lemma then_by_laws (c1 c2 : A → A → comparison) :
  order_laws c1 → order_laws c2 →
  order_laws (λ x y, then_by (c1 x y) (c2 x y)).
Proof.
  intros L1 L2. split.
  - intros x y. rewrite (ol_antisym _ L1 x y), (ol_antisym _ L2 x y).
    destruct (c1 x y); reflexivity.
  - intros x y z.
    destruct (c1 x y) eqn:Hxy; simpl; try discriminate.
    + rewrite (ol_eq_l _ L1 x y z Hxy).
      destruct (c1 y z); simpl; try discriminate; eauto using ol_trans.
    + destruct (c1 y z) eqn:Hyz; simpl; try discriminate; intros _ H.
      * rewrite (ol_eq_r _ L1 x y z Hyz) in Hxy. rewrite Hxy. reflexivity.
      * rewrite (ol_trans _ L1 x y z Hxy Hyz). reflexivity.
  - intros x y z.
    destruct (c1 x y) eqn:Hxy; simpl; try discriminate.
    intros H. rewrite (ol_eq_l _ L1 x y z Hxy), (ol_eq_l _ L2 x y z H).
    reflexivity.
Qed.
End order_laws.

(** Comparing through a key. *)
Lemma on_key_laws {A B : Type} (key : A → B) (cmp : B → B → comparison) :
  order_laws cmp → order_laws (λ x y, cmp (key x) (key y)).
Proof.
  intros [Ha Ht He]. split; eauto.
Qed.

Lemma order_laws_ext {A : Type} (c1 c2 : A → A → comparison) :
  (∀ x y, c1 x y = c2 x y) → order_laws c1 → order_laws c2.
Proof.
  intros E [Ha Ht He]. split; intros *; rewrite <- !E; eauto.
Qed.

Lemma Z_compare_laws : order_laws Z.compare.
Proof.
  split.
  - intros x y. apply Z.compare_antisym.
  - intros x y z. rewrite !Z.compare_lt_iff. lia.
  - intros x y z H. apply Z.compare_eq in H. congruence.
Qed.

Lemma ascii_compare_laws : order_laws Ascii.compare.
Proof.
  unfold Ascii.compare.
  apply (on_key_laws N_of_ascii N.compare). split.
  - intros x y. apply N.compare_antisym.
  - intros x y z. rewrite !N.compare_lt_iff. lia.
  - intros x y z H. apply N.compare_eq in H. congruence.
Qed.

Lemma string_compare_refl (s : string) : String.compare s s = Eq.
Proof.
  induction s as [|c s IH]; simpl; [reflexivity|].
  rewrite (ol_refl _ ascii_compare_laws). exact IH.
Qed.

Lemma string_compare_laws : order_laws String.compare.
Proof.
  split.
  - intros x y. apply String.compare_antisym.
  - induction x as [|a x IH]; intros [|b y] [|c z]; simpl; try congruence.
    destruct (Ascii.compare a b) eqn:Hab; try discriminate.
    + rewrite (ol_eq_l _ ascii_compare_laws a b c Hab).
      destruct (Ascii.compare b c); try discriminate; eauto.
    + destruct (Ascii.compare b c) eqn:Hbc; try discriminate; intros _ H.
      * rewrite (ol_eq_r _ ascii_compare_laws a b c Hbc) in Hab.
        rewrite Hab. reflexivity.
      * rewrite (ol_trans _ ascii_compare_laws a b c Hab Hbc). reflexivity.
  - intros x y z H. apply String.compare_eq_iff in H. congruence.
Qed.

Lemma text_compare_laws : order_laws text_compare.
Proof.
  destruct string_compare_laws as [Ha Ht He]. split.
  - intros [x|] [y|]; simpl; auto.
  - intros [x|] [y|] [z|]; simpl; try congruence. apply Ht.
  - intros [x|] [y|] [z|]; simpl; try congruence. apply He.
Qed.

Lemma text_compare_eq a b : text_compare a b = Eq ↔ a = b.
Proof.
  split.
  - destruct a, b; simpl; try congruence.
    intros H. apply String.compare_eq_iff in H. congruence.
  - intros ->. apply (ol_refl _ text_compare_laws).
Qed.

(** Presence first: a present value sorts before an absent one. *)
Lemma presence_laws {A : Type} (cmp : A → A → comparison) :
  order_laws cmp →
  order_laws (λ x y : option A,
    match x, y with
    | Some _, None => Lt
    | None, Some _ => Gt
    | None, None => Eq
    | Some a, Some b => cmp a b
    end).
Proof.
  intros [Ha Ht He]. split.
  - intros [x|] [y|]; simpl; auto.
  - intros [x|] [y|] [z|]; simpl; try congruence. apply Ht.
  - intros [x|] [y|] [z|]; simpl; try congruence. apply He.
Qed.

Lemma canonical_order_laws : order_laws canonical_order.
Proof.
  eapply order_laws_ext; [| apply (presence_laws (λ a b : Transaction,
    then_by (tv_sec (date_posted a) ?= tv_sec (date_posted b))%Z
      (then_by (tv_nsec (date_posted a) ?= tv_nsec (date_posted b))%Z
         (then_by (text_compare (num a) (num b))
            (text_compare (description a) (description b))))))].
  - intros [a|] [b|]; reflexivity.
  - repeat apply then_by_laws;
      first [ apply (on_key_laws (λ t, tv_sec (date_posted t)) _ Z_compare_laws)
            | apply (on_key_laws (λ t, tv_nsec (date_posted t)) _ Z_compare_laws)
            | apply (on_key_laws num _ text_compare_laws)
            | apply (on_key_laws description _ text_compare_laws) ].
Qed.

(** The macro and the function of util.h against the lexicographic order. *)
Lemma SAFE_STRCMP_text da db k :
  or_else (SAFE_STRCMP da db) (sign_of k) = sign_of (then_by (text_compare da db) k).
Proof.
  destruct da as [a|], db as [b|]; simpl; try reflexivity.
  unfold strcmp. destruct (String.compare a b); reflexivity.
Qed.

Lemma safe_strcmp_text da db : safe_strcmp da db = sign_of (text_compare da db).
Proof.
  unfold safe_strcmp.
  destruct da as [a|], db as [b|]; simpl; try reflexivity.
  unfold strcmp. destruct (String.compare a b); reflexivity.
Qed.

Lemma safe_strcmp_eq da db : safe_strcmp da db = 0%Z ↔ da = db.
Proof.
  rewrite safe_strcmp_text, <- text_compare_eq.
  destruct (text_compare da db); simpl; split; congruence.
Qed.

(** [xaccTransOrder] applies the keys of the canonical ordering. *)
Lemma xaccTransOrder_sign ta tb :
  xaccTransOrder ta tb = sign_of (canonical_order ta tb).
Proof.
  destruct ta as [a|], tb as [b|]; simpl; try reflexivity.
  rewrite Z.gtb_ltb, !Z.ltb_compare.
  rewrite (Z.compare_antisym (tv_sec (date_posted a)) (tv_sec (date_posted b))).
  destruct (tv_sec (date_posted a) ?= tv_sec (date_posted b))%Z; simpl; try reflexivity.
  rewrite Z.gtb_ltb, !Z.ltb_compare.
  rewrite (Z.compare_antisym (tv_nsec (date_posted a)) (tv_nsec (date_posted b))).
  destruct (tv_nsec (date_posted a) ?= tv_nsec (date_posted b))%Z; simpl; try reflexivity.
  change 0%Z with (sign_of Eq) at 1.
  rewrite !SAFE_STRCMP_text.
  destruct (text_compare (description a) (description b)),
    (text_compare (num a) (num b)); reflexivity.
Qed.

Lemma sign_of_lt c : (sign_of c < 0)%Z ↔ c = Lt.
Proof. destruct c; simpl; split; (lia || congruence). Qed.

Lemma sign_of_eq c : sign_of c = 0%Z ↔ c = Eq.
Proof. destruct c; simpl; split; (lia || congruence). Qed.

Lemma sign_of_opp c : sign_of (CompOpp c) = (- sign_of c)%Z.
Proof. destruct c; reflexivity. Qed.

Lemma posted_before_compare (x y : Transaction) :
  date_posted x ≠ date_posted y →
  canonical_order (Some x) (Some y) = Lt ↔ posted_before x y.
Proof.
  intros Hne. unfold canonical_order, posted_before.
  destruct (date_posted x) as [xs xn], (date_posted y) as [ys yn]; simpl.
  destruct (Z.compare_spec xs ys) as [Hs|Hs|Hs]; simpl.
  - destruct (Z.compare_spec xn yn) as [Hn|Hn|Hn]; simpl.
    + congruence.
    + split; [right; auto | reflexivity].
    + split; [discriminate | lia].
  - split; [left; auto | reflexivity].
  - split; [discriminate | lia].
Qed.

(** C5. [xaccTransOrder] applies, in this order, presence (a present
    transaction before an absent one), the seconds of the posted time, its
    sub-seconds, [num] and [description], and is 0 when none of them
    differs; it is antisymmetric, its strict part and its ties are
    transitive; and three transactions with pairwise distinct posted times
    are ordered chronologically. *)
Theorem xaccTransOrder_canonical_total_order
    (ta tb tc : option Transaction) (x y z : Transaction) :
  xaccTransOrder ta tb = sign_of (canonical_order ta tb)
  ∧ xaccTransOrder tb ta = (- xaccTransOrder ta tb)%Z
  ∧ ((xaccTransOrder ta tb < 0)%Z → (xaccTransOrder tb tc < 0)%Z →
     (xaccTransOrder ta tc < 0)%Z)
  ∧ (xaccTransOrder ta tb = 0%Z → xaccTransOrder tb tc = 0%Z →
     xaccTransOrder ta tc = 0%Z)
  ∧ (date_posted x ≠ date_posted y → date_posted y ≠ date_posted z →
     date_posted x ≠ date_posted z →
     ((xaccTransOrder (Some x) (Some y) < 0)%Z ↔ posted_before x y)
     ∧ ((xaccTransOrder (Some y) (Some z) < 0)%Z ↔ posted_before y z)
     ∧ ((xaccTransOrder (Some x) (Some z) < 0)%Z ↔ posted_before x z)).
Proof.
  pose proof canonical_order_laws as L.
  repeat split.
  - apply xaccTransOrder_sign.
  - rewrite !xaccTransOrder_sign, (ol_antisym _ L ta tb). apply sign_of_opp.
  - rewrite !xaccTransOrder_sign, !sign_of_lt. apply (ol_trans _ L).
  - rewrite !xaccTransOrder_sign, !sign_of_eq. intros Hab Hbc.
    rewrite (ol_eq_l _ L ta tb tc Hab). exact Hbc.
  - rewrite xaccTransOrder_sign, sign_of_lt. apply posted_before_compare; assumption.
  - rewrite <- posted_before_compare by assumption.
    rewrite xaccTransOrder_sign, sign_of_lt. trivial.
  - rewrite xaccTransOrder_sign, sign_of_lt. apply posted_before_compare; assumption.
  - rewrite <- posted_before_compare by assumption.
    rewrite xaccTransOrder_sign, sign_of_lt. trivial.
  - rewrite xaccTransOrder_sign, sign_of_lt. apply posted_before_compare; assumption.
  - rewrite <- posted_before_compare by assumption.
    rewrite xaccTransOrder_sign, sign_of_lt. trivial.
Qed.

(** Three transactions posted at the seconds 10, 20 and 20.5: the first
    sorts before the third, as the theorem derives from the two steps. *)
Lemma xaccTransOrder_canonical_total_order_witness :
  let t1 := mkTransaction (Some "7"%string) (Some "rent"%string) (Some ""%string) []
              (mkTimespec 10 0) (mkTimespec 10 0) 0 in
  let t2 := mkTransaction (Some "3"%string) (Some "food"%string) (Some ""%string) []
              (mkTimespec 20 0) (mkTimespec 20 0) 0 in
  let t3 := mkTransaction (Some "1"%string) None (Some ""%string) []
              (mkTimespec 20 500) (mkTimespec 20 500) 0 in
  (xaccTransOrder (Some t1) (Some t3) < 0)%Z ∧ posted_before t2 t3.
Proof.
  intros t1 t2 t3.
  pose proof (xaccTransOrder_canonical_total_order
                (Some t1) (Some t2) (Some t3) t1 t2 t3) as (_ & _ & Htrans & _ & Hchrono).
  split.
  - apply Htrans; reflexivity.
  - apply Hchrono; [discriminate .. | reflexivity].
Defined.

(** C8, as stated: the absent split does not sort before the present one;
    [xaccSplitOrder] answers +1 for (absent, present). *)
Lemma xaccSplitOrder_absent_not_first :
  ¬ (∃ r, xaccSplitOrder initial_engine None (Some 1%positive) = Ok r ∧ (r < 0)%Z).
Proof.
  intros (r & H & Hr). simpl in H. injection H as <-. lia.
Qed.

(** C8, amended. [xaccSplitOrder] first takes the order of the two parent
    transactions and only on a tie compares memo, then action,
    lexicographically with an absent text before a present one; a present
    split sorts before an absent split, which is the presence rule of
    [xaccTransOrder]. *)
Theorem xaccSplitOrder_parents_memo_action
    (st : Engine) (sa sb : positive) (a b : Split) (ta tb : option Transaction) :
  split_heap st !! sa = Some a → split_heap st !! sb = Some b →
  load_trans st (parent a) = Ok ta → load_trans st (parent b) = Ok tb →
  xaccSplitOrder st (Some sa) (Some sb)
    = Ok (sign_of (split_order (Some (a, ta)) (Some (b, tb))))
  ∧ (xaccTransOrder ta tb ≠ 0%Z →
     xaccSplitOrder st (Some sa) (Some sb) = Ok (xaccTransOrder ta tb))
  ∧ (xaccTransOrder ta tb = 0%Z →
     xaccSplitOrder st (Some sa) (Some sb)
       = Ok (sign_of (then_by (text_compare (memo a) (memo b))
                        (text_compare (action a) (action b)))))
  ∧ xaccSplitOrder st (Some sa) None = Ok (-1)%Z
  ∧ xaccSplitOrder st None (Some sb) = Ok 1%Z
  ∧ xaccSplitOrder st None None = Ok 0%Z
  ∧ (∀ t, xaccTransOrder (Some t) None = (-1)%Z ∧ xaccTransOrder None (Some t) = 1%Z).
Proof.
  intros Ha Hb Hta Htb.
  assert (Hcall : xaccSplitOrder st (Some sa) (Some sb)
            = Ok (if negb (xaccTransOrder ta tb =? 0)%Z then xaccTransOrder ta tb
                  else sign_of (then_by (text_compare (memo a) (memo b))
                                  (text_compare (action a) (action b))))).
  { unfold xaccSplitOrder, deref_split. rewrite Ha, Hb. simpl.
    rewrite Hta, Htb. simpl.
    destruct (xaccTransOrder ta tb =? 0)%Z; simpl; [|reflexivity].
    change 0%Z with (sign_of Eq). rewrite !SAFE_STRCMP_text.
    destruct (text_compare (action a) (action b)),
      (text_compare (memo a) (memo b)); reflexivity. }
  repeat split; try reflexivity.
  - rewrite Hcall, xaccTransOrder_sign. simpl.
    destruct (canonical_order ta tb); reflexivity.
  - intros Hne. rewrite Hcall.
    destruct (Z.eqb_spec (xaccTransOrder ta tb) 0); [contradiction | reflexivity].
  - intros He. rewrite Hcall, He. reflexivity.
Qed.

(** Two splits of one transaction with the memos "a" and "b". *)
Lemma xaccSplitOrder_parents_memo_action_witness :
  let t := mkTransaction (Some ""%string) (Some ""%string) (Some ""%string)
             [1%positive; 2%positive] (mkTimespec 5 0) (mkTimespec 5 0) 1 in
  let a := set_memo (Some "a"%string) (set_parent (Some 1%positive) xaccInitSplit) in
  let b := set_memo (Some "b"%string) (set_parent (Some 1%positive) xaccInitSplit) in
  let st := store_trans 1 t (store_split 2 b (store_split 1 a initial_engine)) in
  xaccSplitOrder st (Some 1%positive) (Some 2%positive) = Ok (-1)%Z.
Proof.
  intros t a b st.
  exact (proj1 (xaccSplitOrder_parents_memo_action st 1 2 a b (Some t) (Some t)
                  eq_refl eq_refl eq_refl eq_refl)).
Defined.

(** ** Outcomes and stores: basic facts *)

Lemma bind_Ok {A B : Type} (m : outcome A) (f : A → outcome B) (b : B) :
  m ≫= f = Ok b ↔ ∃ a, m = Ok a ∧ f a = Ok b.
Proof.
  destruct m as [a| | |]; simpl; split.
  - eauto.
  - intros (a' & [= <-] & H). exact H.
  - discriminate.
  - intros (? & ? & ?); discriminate.
  - discriminate.
  - intros (? & ? & ?); discriminate.
  - discriminate.
  - intros (? & ? & ?); discriminate.
Qed.

Lemma deref_split_Ok st p sp :
  deref_split st p = Ok sp ↔ ∃ i, p = Some i ∧ split_heap st !! i = Some sp.
Proof.
  unfold deref_split. destruct p as [i|].
  - destruct (split_heap st !! i) eqn:E; split.
    + intros [= <-]. eauto.
    + intros (j & [= <-] & H). congruence.
    + discriminate.
    + intros (j & [= <-] & H). congruence.
  - split; [discriminate | intros (? & ? & ?); discriminate].
Qed.

Lemma deref_trans_Ok st p tr :
  deref_trans st p = Ok tr ↔ ∃ i, p = Some i ∧ trans_heap st !! i = Some tr.
Proof.
  unfold deref_trans. destruct p as [i|].
  - destruct (trans_heap st !! i) eqn:E; split.
    + intros [= <-]. eauto.
    + intros (j & [= <-] & H). congruence.
    + discriminate.
    + intros (j & [= <-] & H). congruence.
  - split; [discriminate | intros (? & ? & ?); discriminate].
Qed.

Lemma deref_account_Ok st p ac :
  deref_account st p = Ok ac ↔ ∃ i, p = Some i ∧ accounts st !! i = Some ac.
Proof.
  unfold deref_account. destruct p as [i|].
  - destruct (accounts st !! i) eqn:E; split.
    + intros [= <-]. eauto.
    + intros (j & [= <-] & H). congruence.
    + discriminate.
    + intros (j & [= <-] & H). congruence.
  - split; [discriminate | intros (? & ? & ?); discriminate].
Qed.

Lemma deref_split_live st i sp :
  split_heap st !! i = Some sp → deref_split st (Some i) = Ok sp.
Proof. intros H. unfold deref_split. rewrite H. reflexivity. Qed.

Lemma deref_trans_live st i tr :
  trans_heap st !! i = Some tr → deref_trans st (Some i) = Ok tr.
Proof. intros H. unfold deref_trans. rewrite H. reflexivity. Qed.

Lemma deref_account_live st i ac :
  accounts st !! i = Some ac → deref_account st (Some i) = Ok ac.
Proof. intros H. unfold deref_account. rewrite H. reflexivity. Qed.

(** Taking apart a run that ended well. *)
Ltac inv_ok :=
  repeat match goal with
  | H : Ok _ = Ok _ |- _ => inversion H; clear H; subst
  | H : Ok _ = AssertFail |- _ => discriminate H
  | H : AssertFail = Ok _ |- _ => discriminate H
  | H : Fault = Ok _ |- _ => discriminate H
  | H : OutOfFuel = Ok _ |- _ => discriminate H
  | H : _ ≫= _ = Ok _ |- _ =>
      let x := fresh "x" in let Hx := fresh "Hx" in let Hk := fresh "Hk" in
      apply bind_Ok in H; destruct H as (x & Hx & Hk)
  | H : deref_split _ _ = Ok _ |- _ =>
      let i := fresh "i" in let Hi := fresh "Hi" in let Hl := fresh "Hl" in
      apply deref_split_Ok in H; destruct H as (i & Hi & Hl);
      first [ injection Hi as <- | injection Hi as -> | subst ]
  | H : deref_trans _ _ = Ok _ |- _ =>
      let i := fresh "i" in let Hi := fresh "Hi" in let Hl := fresh "Hl" in
      apply deref_trans_Ok in H; destruct H as (i & Hi & Hl);
      first [ injection Hi as <- | injection Hi as -> | subst ]
  | H : deref_account _ _ = Ok _ |- _ =>
      let i := fresh "i" in let Hi := fresh "Hi" in let Hl := fresh "Hl" in
      apply deref_account_Ok in H; destruct H as (i & Hi & Hl);
      first [ injection Hi as <- | injection Hi as -> | subst ]
  end.
Lemma MARK_SPLIT_live st s sp :
  split_heap st !! s = Some sp →
  (∀ a, acc sp = Some a → is_Some (accounts st !! a)) →
  MARK_SPLIT (Some s) st = Ok (marked sp st).
Proof.
  intros Hs Ha. unfold MARK_SPLIT, marked, deref_split, deref_account. rewrite Hs. simpl.
  destruct (acc sp) as [a|]; [|reflexivity].
  destruct (Ha a eq_refl) as [ac Hac].
  rewrite Hac. reflexivity.
Qed.

Lemma MARK_SPLIT_Ok st p st' :
  MARK_SPLIT p st = Ok st' →
  ∃ s sp, p = Some s ∧ split_heap st !! s = Some sp ∧ st' = marked sp st
          ∧ (∀ a, acc sp = Some a → is_Some (accounts st !! a)).
Proof.
  unfold MARK_SPLIT, marked. intros H. inv_ok.
  exists i, x. split; [reflexivity|]. split; [assumption|].
  destruct (acc x) as [a|]; inv_ok.
  - rewrite Hl0. split; [reflexivity|]. intros ? [= <-]. eauto.
  - split; [reflexivity|]. discriminate.
Qed.

Lemma marked_split_heap sp st : split_heap (marked sp st) = split_heap st.
Proof. unfold marked. destruct (acc sp); [destruct (accounts st !! _)|]; reflexivity. Qed.

Lemma marked_trans_heap sp st : trans_heap (marked sp st) = trans_heap st.
Proof. unfold marked. destruct (acc sp); [destruct (accounts st !! _)|]; reflexivity. Qed.

Lemma marked_trace sp st : trace (marked sp st) = trace st.
Proof. unfold marked. destruct (acc sp); [destruct (accounts st !! _)|]; reflexivity. Qed.

Lemma marked_force_double_entry sp st :
  force_double_entry (marked sp st) = force_double_entry st.
Proof. unfold marked. destruct (acc sp); [destruct (accounts st !! _)|]; reflexivity. Qed.

(** [MARK_SPLIT] writes the field [changed] and nothing else. *)
Lemma marked_accounts sp st a :
  set_changed 0 <$> accounts (marked sp st) !! a = set_changed 0 <$> accounts st !! a.
Proof.
  unfold marked. destruct (acc sp) as [a'|]; [|reflexivity].
  destruct (accounts st !! a') as [ac|] eqn:E; [|reflexivity]. simpl.
  destruct (decide (a' = a)) as [->|Hne].
  - rewrite lookup_insert_eq, E. reflexivity.
  - rewrite lookup_insert_ne by assumption. reflexivity.
Qed.

Lemma elem_of_trace_emit e e' st :
  e ∈ trace (emit e' st) ↔ e ∈ trace st ∨ e = e'.
Proof. simpl. rewrite elem_of_app, list_elem_of_singleton. reflexivity. Qed.

(** ** Accessors on absent and on out-of-range arguments *)

(** The accessors that test their argument answer a NULL split or
    transaction with a fixed value. *)
Lemma accessors_of_absent st :
  xaccSplitGetMemo st None = Ok None
  ∧ xaccSplitGetAction st None = Ok None
  ∧ xaccSplitGetValue st None = Ok 0%Qc
  ∧ xaccSplitGetShareAmount st None = Ok 0%Qc
  ∧ xaccSplitGetSharePrice st None = Ok 1%Qc
  ∧ xaccSplitGetReconcile st None = Ok " "%char
  ∧ xaccSplitGetParent st None = Ok None
  ∧ xaccSplitGetAccount st None = Ok None
  ∧ xaccTransGetNum st None = Ok None
  ∧ xaccTransGetDescription st None = Ok None
  ∧ xaccTransGetDate st None = Ok 0%Z
  ∧ (∀ i, xaccTransGetSplit st None i = Ok None)
  ∧ (∀ t i, (i < 0)%Z → xaccTransGetSplit st (Some t) i = Ok None).
Proof.
  repeat split; try reflexivity.
  intros t i Hi. unfold xaccTransGetSplit.
  destruct (Z.gtb_spec 0 i); [reflexivity | lia].
Qed.

(** C9. [xaccTransCountSplits] dereferences a NULL transaction, and
    [xaccTransGetSplit] reads past the terminator of the array: on a
    transaction fresh from [xaccMallocTransaction] index 1 is the
    terminator and index 2 is beyond it. *)
Theorem absent_reads_that_fail (st : Engine) :
  xaccTransCountSplits st None = Fault
  ∧ xaccTransGetSplit (snd (xaccMallocTransaction st))
      (Some (fst (xaccMallocTransaction st))) 1 = Ok None
  ∧ xaccTransGetSplit (snd (xaccMallocTransaction st))
      (Some (fst (xaccMallocTransaction st))) 2 = Fault.
Proof.
  split; [reflexivity|].
  unfold xaccTransGetSplit, xaccMallocTransaction, xaccMallocSplit, deref_trans.
  simpl. rewrite lookup_insert_eq. simpl. split; reflexivity.
Qed.

(** ** Round trip through a base currency *)

(** C10. For a split with a non-zero share price whose account has the
    base currency as its currency or as its security,
    [xaccSplitGetBaseValue] after [xaccSplitSetBaseValue] returns the value
    that was set, and the share price is the one the split had. *)
Theorem base_value_round_trip
    (st : Engine) (s a : positive) (sp : Split) (ac : Account)
    (base_currency : option string) (value : Qc) :
  split_heap st !! s = Some sp →
  acc sp = Some a →
  accounts st !! a = Some ac →
  share_price sp ≠ 0%Qc →
  currency ac = base_currency ∨ security ac = base_currency →
  ∃ st1 sp1,
    xaccSplitSetBaseValue (Some s) value base_currency st = Ok st1
    ∧ xaccSplitGetBaseValue (Some s) base_currency st1 = Ok (value, st1)
    ∧ split_heap st1 !! s = Some sp1
    ∧ share_price sp1 = share_price sp.
Proof.
  intros Hs Ha Hac Hprice Hbase.
  assert (Hget : ∀ d, xaccSplitGetBaseValue (Some s) base_currency
                   (store_split s (set_damount d sp) st)
                 = Ok (if (safe_strcmp (currency ac) base_currency =? 0)%Z
                       then (d * share_price sp)%Qc else d,
                       store_split s (set_damount d sp) st)).
  { intros d. unfold xaccSplitGetBaseValue, deref_split, deref_account. simpl.
    rewrite lookup_insert_eq. simpl. rewrite Ha, Hac. simpl.
    destruct (Z.eqb_spec (safe_strcmp (currency ac) base_currency) 0) as [Hc|Hc];
      [reflexivity|].
    assert (Hsec : safe_strcmp (security ac) base_currency = 0%Z).
    { apply safe_strcmp_eq. destruct Hbase as [E|E]; [|exact E].
      apply safe_strcmp_eq in E. contradiction. }
    rewrite Hsec. reflexivity. }
  assert (Hset : xaccSplitSetBaseValue (Some s) value base_currency st
                 = Ok (store_split s
                         (set_damount
                            (if (safe_strcmp (currency ac) base_currency =? 0)%Z
                             then (value / share_price sp)%Qc else value) sp) st)).
  { unfold xaccSplitSetBaseValue, deref_split, deref_account.
    rewrite Hs. simpl. rewrite Ha, Hac. simpl.
    destruct (Z.eqb_spec (safe_strcmp (currency ac) base_currency) 0) as [Hc|Hc];
      [reflexivity|].
    assert (Hsec : safe_strcmp (security ac) base_currency = 0%Z).
    { apply safe_strcmp_eq. destruct Hbase as [E|E]; [|exact E].
      apply safe_strcmp_eq in E. contradiction. }
    rewrite Hsec. reflexivity. }
  eexists _, _. split; [exact Hset|]. rewrite Hget.
  split; [|split; [apply lookup_insert_eq | reflexivity]].
  destruct (safe_strcmp (currency ac) base_currency =? 0)%Z; [|reflexivity].
  f_equal. f_equal. field. exact Hprice.
Qed.

(** A split of 3 shares at the price 2 in an account kept in USD, set to
    the value 10. *)
Lemma base_value_round_trip_witness :
  let sp := set_share_price (Q2Qc 2) (set_acc (Some 1%positive) xaccInitSplit) in
  let ac := mkAccount (Some "Bank"%string) (Some "USD"%string) (Some ""%string) 0 0 in
  let st := store_account 1 ac (store_split 1 sp initial_engine) in
  ∃ st1 sp1,
    xaccSplitSetBaseValue (Some 1%positive) (Q2Qc 10) (Some "USD"%string) st = Ok st1
    ∧ xaccSplitGetBaseValue (Some 1%positive) (Some "USD"%string) st1 = Ok (Q2Qc 10, st1)
    ∧ split_heap st1 !! 1%positive = Some sp1
    ∧ share_price sp1 = Q2Qc 2.
Proof.
  intros sp ac st.
  apply (base_value_round_trip st 1 1 sp ac (Some "USD"%string) (Q2Qc 10)).
  - reflexivity.
  - reflexivity.
  - reflexivity.
  - discriminate.
  - left. reflexivity.
Defined.

Lemma marked_accounts_live sp st a :
  is_Some (accounts (marked sp st) !! a) ↔ is_Some (accounts st !! a).
Proof.
  rewrite <- (fmap_is_Some (set_changed 0) (accounts (marked sp st) !! a)).
  rewrite marked_accounts. apply fmap_is_Some.
Qed.

Lemma CHECK_OPEN_live st t tr :
  trans_heap st !! t = Some tr → CHECK_OPEN t st = Ok (checked t tr st).
Proof.
  intros H. unfold CHECK_OPEN, checked, deref_trans. rewrite H. simpl.
  destruct (open tr =? 0)%Z; reflexivity.
Qed.

Lemma CHECK_OPEN_Ok st t st' :
  CHECK_OPEN t st = Ok st' →
  ∃ tr, trans_heap st !! t = Some tr ∧ st' = checked t tr st.
Proof.
  unfold CHECK_OPEN, checked. intros H. inv_ok. exists x. split; [assumption|].
  destruct (open x =? 0)%Z; inv_ok; reflexivity.
Qed.

Lemma checked_split_heap t tr st : split_heap (checked t tr st) = split_heap st.
Proof. unfold checked. destruct (open tr =? 0)%Z; reflexivity. Qed.

Lemma checked_trans_heap t tr st : trans_heap (checked t tr st) = trans_heap st.
Proof. unfold checked. destruct (open tr =? 0)%Z; reflexivity. Qed.

Lemma checked_accounts t tr st : accounts (checked t tr st) = accounts st.
Proof. unfold checked. destruct (open tr =? 0)%Z; reflexivity. Qed.

Lemma checked_force_double_entry t tr st :
  force_double_entry (checked t tr st) = force_double_entry st.
Proof. unfold checked. destruct (open tr =? 0)%Z; reflexivity. Qed.

Lemma checked_trace_closed t tr st :
  open tr = 0%Z → trace (checked t tr st) = trace st ++ [EvPrintf (MsgNotOpen t)].
Proof. intros H. unfold checked. rewrite H. reflexivity. Qed.

Lemma elem_of_trace_checked e t tr st :
  e ∈ trace st → e ∈ trace (checked t tr st).
Proof.
  unfold checked. destruct (open tr =? 0)%Z; [|trivial].
  intros H. apply elem_of_trace_emit. left. exact H.
Qed.

(** ** Destroying the only split of a transaction *)

(** C6. When the split is the only one of its transaction,
    [xaccSplitDestroy] writes the Destroy record, takes the split out of
    its account and has the balance recomputed, and returns with the
    transaction and the split still allocated: [xaccFreeTransaction] is
    called only when there is a second split. *)
Theorem xaccSplitDestroy_lone_split_not_freed
    (st : Engine) (s t : positive) (sp : Split) (tr : Transaction) :
  split_heap st !! s = Some sp →
  parent sp = Some t →
  trans_heap st !! t = Some tr →
  splits tr = [s] →
  (∀ a, acc sp = Some a → is_Some (accounts st !! a)) →
  ∃ st',
    xaccSplitDestroy (Some s) st = Ok st'
    ∧ EvTransWriteLog t "D" ∈ trace st'
    ∧ EvAccountRemoveSplit (acc sp) (Some s) ∈ trace st'
    ∧ EvAccountRecomputeBalance (acc sp) ∈ trace st'
    ∧ trans_heap st' !! t = Some tr
    ∧ split_heap st' !! s = Some sp.
Proof.
  intros Hs Hp Ht Hl Ha.
  unfold xaccSplitDestroy.
  rewrite (deref_split_live _ _ _ Hs). cbn [mbind outcome_bind]. rewrite Hp.
  rewrite (CHECK_OPEN_live _ _ _ Ht). cbn [mbind outcome_bind].
  set (st1 := checked t tr st).
  assert (Hs1 : split_heap st1 !! s = Some sp) by (unfold st1; rewrite checked_split_heap; exact Hs).
  assert (Ht1 : trans_heap st1 !! t = Some tr) by (unfold st1; rewrite checked_trans_heap; exact Ht).
  assert (Ha1 : ∀ a, acc sp = Some a → is_Some (accounts st1 !! a))
    by (unfold st1; rewrite checked_accounts; exact Ha).
  rewrite (deref_trans_live _ _ _ Ht1). cbn [mbind outcome_bind].
  rewrite Hl. cbn [SplitDestroy_scan].
  set (st2 := emit (EvPrintf (MsgSplitDestroy t 0 s)) st1).
  rewrite (MARK_SPLIT_live st2 s sp Hs1 Ha1). cbn [mbind outcome_bind].
  rewrite bool_decide_eq_true_2 by reflexivity.
  cbn [orb negb xaccCountSplits length Z.of_nat Z.ltb Z.compare Pos.of_succ_nat Pos.compare Pos.compare_cont head].
  set (st3 := xaccTransWriteLog t "D" (marked sp st2)).
  assert (Hs3 : split_heap st3 !! s = Some sp)
    by (unfold st3; simpl; rewrite marked_split_heap; exact Hs1).
  assert (Ha3 : ∀ a, acc sp = Some a → is_Some (accounts st3 !! a)).
  { intros a E. unfold st3. simpl. apply marked_accounts_live. exact (Ha1 a E). }
  rewrite (deref_split_live _ _ _ Hs3). cbn [mbind outcome_bind].
  rewrite (MARK_SPLIT_live st3 s sp Hs3 Ha3). cbn [mbind outcome_bind lookup list_lookup].
  eexists. split; [reflexivity|].
  repeat split.
  - simpl. rewrite marked_trace. simpl. rewrite marked_trace. set_solver.
  - simpl. set_solver.
  - simpl. set_solver.
  - simpl. rewrite marked_trans_heap. simpl. rewrite marked_trans_heap. exact Ht1.
  - simpl. rewrite marked_split_heap. exact Hs3.
Qed.

(** A transaction fresh from [xaccMallocTransaction], opened for editing,
    and its only split. *)
Lemma xaccSplitDestroy_lone_split_not_freed_witness :
  let sp := set_parent (Some 1%positive) xaccInitSplit in
  let tr := mkTransaction (Some ""%string) (Some ""%string) (Some ""%string)
              [1%positive] (mkTimespec 0 0) (mkTimespec 0 0) 1 in
  let st := store_trans 1 tr (store_split 1 sp initial_engine) in
  ∃ st',
    xaccSplitDestroy (Some 1%positive) st = Ok st'
    ∧ EvTransWriteLog 1 "D" ∈ trace st'
    ∧ EvAccountRemoveSplit None (Some 1%positive) ∈ trace st'
    ∧ EvAccountRecomputeBalance None ∈ trace st'
    ∧ trans_heap st' !! 1%positive = Some tr
    ∧ split_heap st' !! 1%positive = Some sp.
Proof.
  intros sp tr st.
  apply (xaccSplitDestroy_lone_split_not_freed st 1 1 sp tr).
  - reflexivity.
  - reflexivity.
  - reflexivity.
  - reflexivity.
  - discriminate.
Defined.

(** ** Mutation of a transaction that is not open *)

Lemma for_each_MARK_SPLIT st l :
  (∀ s, s ∈ l → ∃ sp, split_heap st !! s = Some sp
                      ∧ ∀ a, acc sp = Some a → is_Some (accounts st !! a)) →
  ∃ st', for_each (λ s, MARK_SPLIT (Some s)) l st = Ok st'
         ∧ split_heap st' = split_heap st
         ∧ trans_heap st' = trans_heap st
         ∧ trace st' = trace st.
Proof.
  revert st. induction l as [|s l IH]; intros st Hl.
  - exists st. repeat split.
  - destruct (Hl s) as (sp & Hs & Ha); [left|].
    cbn [for_each]. rewrite (MARK_SPLIT_live st s sp Hs Ha). cbn [mbind outcome_bind].
    destruct (IH (marked sp st)) as (st' & Hrun & H1 & H2 & H3).
    { intros s' Hs'. destruct (Hl s') as (sp' & Hs'' & Ha'); [right; exact Hs'|].
      exists sp'. rewrite marked_split_heap. split; [exact Hs''|].
      intros a E. apply marked_accounts_live. exact (Ha' a E). }
    exists st'. rewrite Hrun, H1, H2, H3.
    rewrite marked_split_heap, marked_trans_heap, marked_trace. repeat split.
Qed.

Lemma set_acc_same sp : set_acc (acc sp) sp = sp.
Proof. destruct sp. reflexivity. Qed.

Lemma store_split_same st s sp :
  split_heap st !! s = Some sp → split_heap (store_split s sp st) = split_heap st.
Proof. intros H. simpl. apply insert_id. exact H. Qed.

Lemma reinsert_split_live st s sp :
  split_heap st !! s = Some sp →
  ∃ st', reinsert_split s st = Ok st'
         ∧ split_heap st' = split_heap st
         ∧ trans_heap st' = trans_heap st
         ∧ ∀ e, e ∈ trace st → e ∈ trace st'.
Proof.
  intros Hs. unfold reinsert_split.
  rewrite (deref_split_live _ _ _ Hs). cbn [mbind outcome_bind].
  unfold xaccAccountInsertSplit.
  set (st1 := emit (EvAccountInsertSplit (acc sp) (Some s))
                (xaccAccountRemoveSplit (acc sp) (Some s) st)).
  assert (Hs1 : split_heap st1 !! s = Some sp) by exact Hs.
  assert (Htr : ∀ e, e ∈ trace st → e ∈ trace st1).
  { intros e He. unfold st1. simpl. set_solver. }
  destruct (acc sp) as [a|] eqn:Ea.
  - rewrite (deref_split_live _ _ _ Hs1). cbn [mbind outcome_bind].
    rewrite <- Ea, set_acc_same.
    eexists. split; [reflexivity|]. rewrite store_split_same by exact Hs1.
    repeat split. exact Htr.
  - exists st1. repeat split. exact Htr.
Qed.

(** The loop of [xaccTransSetDateSecs] takes every split out of its account
    and puts it back. *)
Lemma for_each_reinsert st l :
  (∀ s, s ∈ l → is_Some (split_heap st !! s)) →
  ∃ st', for_each reinsert_split l st = Ok st'
         ∧ split_heap st' = split_heap st
         ∧ trans_heap st' = trans_heap st
         ∧ ∀ e, e ∈ trace st → e ∈ trace st'.
Proof.
  revert st. induction l as [|s l IH]; intros st Hl.
  - exists st. repeat split. trivial.
  - destruct (Hl s) as (sp & Hs); [left|].
    destruct (reinsert_split_live st s sp Hs) as (st2 & Hrun & H1 & H2 & H3).
    destruct (IH st2) as (st' & Hrun' & H1' & H2' & H3').
    { intros s' Hs'. rewrite H1. apply Hl. right. exact Hs'. }
    exists st'. cbn [for_each]. rewrite Hrun. cbn [mbind outcome_bind].
    rewrite Hrun', H1', H2', H1, H2. repeat split. auto.
Qed.

(** C7, as stated: on a transaction fresh from [xaccMallocTransaction],
    which is not open, [xaccTransSetNum] returns normally and the number is
    the new one. *)
Lemma closed_transaction_setter_counterexample :
  let st := snd (xaccMallocTransaction initial_engine) in
  ∃ st', xaccTransSetNum (Some 1%positive) (Some "101"%string) st = Ok st'
         ∧ open <$> trans_heap st !! 1%positive = Some 0%Z
         ∧ xaccTransGetNum st (Some 1%positive) = Ok (Some ""%string)
         ∧ xaccTransGetNum st' (Some 1%positive) = Ok (Some "101"%string).
Proof.
  eexists. split; [vm_compute; reflexivity|]. repeat split.
Qed.

(** C7, amended. A mutation of a transaction that is not open is not
    refused: [CHECK_OPEN] prints that the transaction is not open for
    editing and the function goes on.  [xaccTransSetNum],
    [xaccTransSetDescription] and [xaccTransSetDateSecs] return normally
    and the transaction has the new number, description and dates. *)
Theorem closed_transaction_is_mutated
    (st : Engine) (t : positive) (tr : Transaction) (x : string) (secs : Z) :
  engine_wf st → accounts_live st →
  trans_heap st !! t = Some tr →
  open tr = 0%Z →
  CHECK_OPEN t st = Ok (emit (EvPrintf (MsgNotOpen t)) st)
  ∧ (∃ st', xaccTransSetNum (Some t) (Some x) st = Ok st'
            ∧ trans_heap st' !! t = Some (set_num (Some x) tr)
            ∧ EvPrintf (MsgNotOpen t) ∈ trace st')
  ∧ (∃ st', xaccTransSetDescription (Some t) (Some x) st = Ok st'
            ∧ trans_heap st' !! t = Some (set_description (Some x) tr)
            ∧ EvPrintf (MsgNotOpen t) ∈ trace st')
  ∧ (∃ st', xaccTransSetDateSecs (Some t) secs st = Ok st'
            ∧ trans_heap st' !! t
              = Some (set_date_posted_sec secs (set_date_entered_sec secs tr))
            ∧ EvPrintf (MsgNotOpen t) ∈ trace st').
Proof.
  intros Hwf Hacc Ht Hopen.
  assert (Hchk : CHECK_OPEN t st = Ok (emit (EvPrintf (MsgNotOpen t)) st)).
  { rewrite (CHECK_OPEN_live _ _ _ Ht). unfold checked. rewrite Hopen. reflexivity. }
  set (st1 := emit (EvPrintf (MsgNotOpen t)) st) in *.
  assert (Hlive : ∀ tr', splits tr' = splits tr → ∀ s, s ∈ splits tr' →
            ∃ sp, split_heap st !! s = Some sp
                  ∧ ∀ a, acc sp = Some a → is_Some (accounts st !! a)).
  { intros tr' E s Hs. rewrite E in Hs.
    destruct (wf_member _ Hwf t tr s Ht Hs) as (sp & Hsp & _).
    exists sp. split; [exact Hsp|]. intros a Ea. exact (Hacc s sp a Hsp Ea). }
  assert (Hmark : ∀ tr', splits tr' = splits tr →
            ∃ st', MarkChanged t (store_trans t tr' st1) = Ok st'
                   ∧ trans_heap st' !! t = Some tr'
                   ∧ EvPrintf (MsgNotOpen t) ∈ trace st').
  { intros tr' E. unfold MarkChanged, deref_trans. simpl.
    rewrite lookup_insert_eq. cbn [mbind outcome_bind].
    destruct (for_each_MARK_SPLIT (store_trans t tr' st1) (splits tr'))
      as (st' & Hrun & _ & H2 & H3); [exact (Hlive tr' E)|].
    exists st'. split; [exact Hrun|]. rewrite H2, H3. simpl.
    rewrite lookup_insert_eq. split; [reflexivity | set_solver]. }
  split; [exact Hchk|]. split; [|split].
  - unfold xaccTransSetNum. rewrite Hchk. cbn [mbind outcome_bind strdup].
    assert (Ht1 : trans_heap st1 !! t = Some tr) by exact Ht.
    rewrite (deref_trans_live _ _ _ Ht1). cbn [mbind outcome_bind].
    apply Hmark. reflexivity.
  - unfold xaccTransSetDescription. rewrite Hchk. cbn [mbind outcome_bind strdup].
    assert (Ht1 : trans_heap st1 !! t = Some tr) by exact Ht.
    rewrite (deref_trans_live _ _ _ Ht1). cbn [mbind outcome_bind].
    apply Hmark. reflexivity.
  - unfold xaccTransSetDateSecs. rewrite Hchk. cbn [mbind outcome_bind].
    assert (Ht1 : trans_heap st1 !! t = Some tr) by exact Ht.
    rewrite (deref_trans_live _ _ _ Ht1). cbn [mbind outcome_bind].
    match goal with
    | |- ∃ st', for_each ?body ?l ?s0 = _ ∧ _ =>
        destruct (for_each_reinsert s0 l) as (st' & Hrun & _ & H2 & H3)
    end.
    { intros s Hs. destruct (Hlive tr eq_refl s Hs) as (sp & Hsp & _).
      simpl. rewrite Hsp. eauto. }
    exists st'. split; [exact Hrun|]. rewrite H2. simpl. rewrite lookup_insert_eq.
    split; [reflexivity|]. apply H3. simpl. set_solver.
Qed.

(** ** Well-formed engines *)

Lemma initial_engine_wf : engine_wf initial_engine.
Proof.
  split; simpl; intros *; rewrite lookup_empty; discriminate.
Qed.

Lemma initial_engine_accounts_live : accounts_live initial_engine.
Proof. intros s sp a. simpl. rewrite lookup_empty. discriminate. Qed.

Lemma fresh_split_free st : split_heap st !! fresh (dom (split_heap st)) = None.
Proof. apply not_elem_of_dom. apply is_fresh. Qed.

Lemma fresh_trans_free st : trans_heap st !! fresh (dom (trans_heap st)) = None.
Proof. apply not_elem_of_dom. apply is_fresh. Qed.

Lemma xaccMallocSplit_wf st : engine_wf st → engine_wf (snd (xaccMallocSplit st)).
Proof.
  intros [Hm Hp Hn]. pose proof (fresh_split_free st) as Hf.
  unfold xaccMallocSplit. simpl. set (s0 := fresh (dom (split_heap st))) in *.
  split; simpl.
  - intros t tr s Ht Hs. destruct (Hm t tr s Ht Hs) as (sp & Hsp & Hpar).
    exists sp. split; [|exact Hpar].
    rewrite lookup_insert_ne; [exact Hsp | congruence].
  - intros s sp t Hs Hpar.
    destruct (decide (s0 = s)) as [<-|Hne].
    + rewrite lookup_insert_eq in Hs. injection Hs as <-. discriminate.
    + rewrite lookup_insert_ne in Hs by assumption. eauto.
  - exact Hn.
Qed.

Lemma xaccMallocSplit_accounts_live st :
  accounts_live st → accounts_live (snd (xaccMallocSplit st)).
Proof.
  intros H s sp a. unfold xaccMallocSplit. simpl.
  destruct (decide (fresh (dom (split_heap st)) = s)) as [<-|Hne].
  - rewrite lookup_insert_eq. intros [= <-]. discriminate.
  - rewrite lookup_insert_ne by assumption. apply H.
Qed.

Lemma xaccMallocTransaction_wf st :
  engine_wf st → engine_wf (snd (xaccMallocTransaction st)).
Proof.
  intros [Hm Hp Hn].
  pose proof (fresh_split_free st) as Hfs. pose proof (fresh_trans_free st) as Hft.
  unfold xaccMallocTransaction, xaccMallocSplit. simpl.
  set (s0 := fresh (dom (split_heap st))) in *.
  set (t0 := fresh (dom (trans_heap st))) in *.
  split; simpl.
  - intros t tr s Ht Hs.
    destruct (decide (t0 = t)) as [<-|Hne].
    + rewrite lookup_insert_eq in Ht. injection Ht as <-. simpl in Hs.
      apply list_elem_of_singleton in Hs. subst s.
      rewrite lookup_insert_eq. eauto.
    + rewrite lookup_insert_ne in Ht by assumption.
      destruct (Hm t tr s Ht Hs) as (sp & Hsp & Hpar).
      exists sp. split; [|exact Hpar].
      rewrite !lookup_insert_ne; [exact Hsp | congruence | congruence].
  - intros s sp t Hs Hpar.
    destruct (decide (s0 = s)) as [<-|Hne].
    + rewrite lookup_insert_eq in Hs. injection Hs as <-. simpl in Hpar.
      injection Hpar as <-. rewrite lookup_insert_eq. eexists. split; [reflexivity|].
      simpl. left.
    + rewrite !lookup_insert_ne in Hs by assumption.
      destruct (Hp s sp t Hs Hpar) as (tr & Ht & Hin).
      exists tr. split; [|exact Hin].
      rewrite lookup_insert_ne; [exact Ht | congruence].
  - intros t tr Ht.
    destruct (decide (t0 = t)) as [<-|Hne].
    + rewrite lookup_insert_eq in Ht. injection Ht as <-. simpl.
      apply NoDup_singleton.
    + rewrite lookup_insert_ne in Ht by assumption. eauto.
Qed.

Lemma xaccMallocTransaction_accounts_live st :
  accounts_live st → accounts_live (snd (xaccMallocTransaction st)).
Proof.
  intros H s sp a. unfold xaccMallocTransaction, xaccMallocSplit. simpl.
  destruct (decide (fresh (dom (split_heap st)) = s)) as [<-|Hne].
  - rewrite lookup_insert_eq. intros [= <-]. discriminate.
  - rewrite !lookup_insert_ne by assumption. apply H.
Qed.

(** A transaction fresh from [xaccMallocTransaction]: its [open] is 0. *)
Lemma closed_transaction_is_mutated_witness :
  let st := snd (xaccMallocTransaction initial_engine) in
  ∃ st', xaccTransSetNum (Some 1%positive) (Some "101"%string) st = Ok st'
         ∧ num <$> trans_heap st' !! 1%positive = Some (Some "101"%string)
         ∧ EvPrintf (MsgNotOpen 1) ∈ trace st'.
Proof.
  intros st.
  destruct (closed_transaction_is_mutated st 1
              (mkTransaction (Some ""%string) (Some ""%string) (Some ""%string)
                 [1%positive] (mkTimespec 0 0) (mkTimespec 0 0) 0) "101"%string 0)
    as (_ & (st' & Hrun & Hnum & Htr) & _).
  - apply xaccMallocTransaction_wf, initial_engine_wf.
  - apply xaccMallocTransaction_accounts_live, initial_engine_accounts_live.
  - reflexivity.
  - reflexivity.
  - exists st'. split; [exact Hrun|]. rewrite Hnum. split; [reflexivity | exact Htr].
Defined.

(** ** The depth of the calls between the rebalancer and the append *)

Lemma returns_bind {A B : Type} (m : outcome A) (f : A → outcome B) :
  returns m → (∀ a, returns (f a)) → returns (m ≫= f).
Proof. unfold returns. destruct m; simpl; auto. Qed.

Ltac returns_step :=
  match goal with
  | |- returns (_ ≫= _) => apply returns_bind; [|intros ?]
  | |- returns (Ok _) => discriminate
  | |- returns AssertFail => discriminate
  | |- returns Fault => discriminate
  | |- returns (match ?x with _ => _ end) => destruct x
  | |- returns (let '(_, _) := ?p in _) => destruct p
  end.

Lemma deref_split_returns st p : returns (deref_split st p).
Proof. unfold deref_split. repeat returns_step. Qed.

Lemma deref_trans_returns st p : returns (deref_trans st p).
Proof. unfold deref_trans. repeat returns_step. Qed.

Lemma deref_account_returns st p : returns (deref_account st p).
Proof. unfold deref_account. repeat returns_step. Qed.

Lemma strdup_returns s : returns (strdup s).
Proof. unfold strdup. repeat returns_step. Qed.

Create HintDb returns.

#[local] Hint Resolve deref_split_returns deref_trans_returns
  deref_account_returns strdup_returns : returns.

Ltac returns_auto := repeat (first [ solve [auto with returns] | returns_step ]).

Lemma MARK_SPLIT_returns p st : returns (MARK_SPLIT p st).
Proof. unfold MARK_SPLIT. returns_auto. Qed.

Lemma CHECK_OPEN_returns t st : returns (CHECK_OPEN t st).
Proof. unfold CHECK_OPEN. returns_auto. Qed.

Lemma xaccAccountInsertSplit_returns a s st : returns (xaccAccountInsertSplit a s st).
Proof. unfold xaccAccountInsertSplit. returns_auto. Qed.

Lemma xaccSplitSetBaseValue_returns s v b st : returns (xaccSplitSetBaseValue s v b st).
Proof. unfold xaccSplitSetBaseValue. returns_auto. Qed.

Lemma xaccTransRemoveSplit_returns t s st : returns (xaccTransRemoveSplit t s st).
Proof. unfold xaccTransRemoveSplit. returns_auto. Qed.

Lemma ComputeValue_returns st l skip b : returns (ComputeValue st l skip b).
Proof.
  unfold ComputeValue. generalize 0%Qc.
  induction l as [|s l IH]; intros v; cbn [ComputeValue_loop]; returns_auto.
Qed.

Lemma resolve_loop_returns st l ra rb : returns (resolve_loop st l ra rb).
Proof.
  revert ra rb. induction l as [|s l IH]; intros ra rb; cbn [resolve_loop]; returns_auto.
Qed.

#[local] Hint Resolve MARK_SPLIT_returns CHECK_OPEN_returns
  xaccAccountInsertSplit_returns xaccSplitSetBaseValue_returns
  xaccTransRemoveSplit_returns ComputeValue_returns resolve_loop_returns : returns.

Lemma force_balance_returns append split sp trans tr b st :
  (∀ t s st, returns (append t s st)) →
  returns (force_balance append split sp trans tr b st).
Proof.
  intros Happ. unfold force_balance, xaccMallocSplit. returns_auto.
Qed.

Lemma xaccSplitRebalance_body_returns append split st :
  (∀ t s st, returns (append t s st)) →
  returns (xaccSplitRebalance_body append split st).
Proof.
  intros Happ. unfold xaccSplitRebalance_body.
  pose proof (force_balance_returns append) as Hfb.
  returns_auto.
Qed.

Lemma xaccTransAppendSplit_body_returns rebalance trans split st :
  (∀ s st, returns (rebalance s st)) →
  returns (xaccTransAppendSplit_body rebalance trans split st).
Proof.
  intros Hreb. unfold xaccTransAppendSplit_body, xaccTransRebalance_with.
  returns_auto.
Qed.

(** With a second entry in the array the rebalancer creates no split. *)
Lemma force_balance_second f g split sp trans tr b st :
  is_Some (splits tr !! 1%nat) →
  force_balance f split sp trans tr b st = force_balance g split sp trans tr b st.
Proof.
  intros [s1 H]. unfold force_balance. rewrite H. reflexivity.
Qed.

Lemma xaccSplitRebalance_body_second f g split st :
  (∀ i sp t tr, split = Some i → split_heap st !! i = Some sp →
                parent sp = Some t → trans_heap st !! t = Some tr →
                is_Some (splits tr !! 1%nat)) →
  xaccSplitRebalance_body f split st = xaccSplitRebalance_body g split st.
Proof.
  intros H. unfold xaccSplitRebalance_body.
  destruct (deref_split st split) as [sp| | |] eqn:Esp; try reflexivity.
  cbn [mbind outcome_bind]. destruct (parent sp) as [t|] eqn:Ep; [|reflexivity].
  destruct (deref_trans st (Some t)) as [tr| | |] eqn:Etr; try reflexivity.
  cbn [mbind outcome_bind]. inv_ok.
  pose proof (H _ _ _ _ eq_refl Hl Ep Hl0) as H2.
  destruct (negb _); [reflexivity|].
  destruct (acc sp) as [a|].
  - destruct (deref_account st (Some a)) as [ac| | |]; try reflexivity.
    cbn [mbind outcome_bind]. destruct (negb _); [reflexivity|].
    destruct (splits tr) eqn:El; [reflexivity|]. rewrite <- El in *.
    destruct (resolve_loop _ _ _ _) as [r| | |]; try reflexivity.
    cbn [mbind outcome_bind]. apply force_balance_second. exact H2.
  - destruct (splits tr) eqn:El; [reflexivity|]. rewrite <- El in *.
    apply force_balance_second. exact H2.
Qed.

Lemma xaccTransAppendSplit_body_orphan f g t s st :
  orphan_call t s st →
  xaccTransAppendSplit_body (xaccSplitRebalance_body f) (Some t) (Some s) st
  = xaccTransAppendSplit_body (xaccSplitRebalance_body g) (Some t) (Some s) st.
Proof.
  intros ((sp & Hs & Hp) & (tr & Ht & Hne)).
  unfold xaccTransAppendSplit_body.
  rewrite (CHECK_OPEN_live _ _ _ Ht). cbn [mbind outcome_bind].
  set (st1 := checked t tr st).
  assert (Hs1 : split_heap st1 !! s = Some sp) by (unfold st1; rewrite checked_split_heap; exact Hs).
  assert (Ht1 : trans_heap st1 !! t = Some tr) by (unfold st1; rewrite checked_trans_heap; exact Ht).
  rewrite (deref_split_live _ _ _ Hs1). cbn [mbind outcome_bind]. rewrite Hp.
  cbn [mbind outcome_bind].
  rewrite (deref_split_live _ _ _ Hs1). cbn [mbind outcome_bind].
  assert (Ht2 : trans_heap (store_split s (set_parent (Some t) sp) st1) !! t = Some tr)
    by exact Ht1.
  rewrite (deref_trans_live _ _ _ Ht2). cbn [mbind outcome_bind].
  apply xaccSplitRebalance_body_second.
  intros i sp' t' tr' [= <-]. simpl. rewrite lookup_insert_eq. intros [= <-]. simpl.
  intros [= <-]. rewrite lookup_insert_eq. intros [= <-]. simpl.
  destruct (splits tr) as [|x [|y l]]; [contradiction | |]; simpl; eauto.
Qed.

Lemma force_balance_orphan F G split sp trans tr b st :
  trans_heap st !! trans = Some tr → splits tr ≠ [] →
  (∀ t s st, orphan_call t s st → F (Some t) (Some s) st = G (Some t) (Some s) st) →
  force_balance F split sp trans tr b st = force_balance G split sp trans tr b st.
Proof.
  intros Ht Hne H. unfold force_balance.
  destruct (bool_decide _); [|reflexivity].
  destruct (splits tr !! 1%nat); [reflexivity|].
  destruct (_ && _); [|reflexivity].
  unfold xaccMallocSplit. cbn zeta.
  destruct (strdup (memo sp)) as [m| | |]; try reflexivity. cbn [mbind outcome_bind].
  destruct (strdup (action sp)) as [a| | |]; try reflexivity. cbn [mbind outcome_bind].
  destruct (MARK_SPLIT _ _) as [st3| | |] eqn:E; try reflexivity.
  cbn [mbind outcome_bind]. rewrite H; [reflexivity|].
  apply MARK_SPLIT_Ok in E. destruct E as (s' & sp' & [= <-] & Hs' & -> & _).
  split.
  - rewrite marked_split_heap. exists sp'. split; [exact Hs'|].
    simpl in Hs'. rewrite lookup_insert_eq in Hs'. injection Hs' as <-. reflexivity.
  - rewrite marked_trans_heap. simpl. eauto.
Qed.

Lemma xaccSplitRebalance_body_orphan F G split st :
  (∀ t s st, orphan_call t s st → F (Some t) (Some s) st = G (Some t) (Some s) st) →
  xaccSplitRebalance_body F split st = xaccSplitRebalance_body G split st.
Proof.
  intros H. unfold xaccSplitRebalance_body.
  destruct (deref_split st split) as [sp| | |] eqn:Esp; try reflexivity.
  cbn [mbind outcome_bind]. destruct (parent sp) as [t|] eqn:Ep; [|reflexivity].
  destruct (deref_trans st (Some t)) as [tr| | |] eqn:Etr; try reflexivity.
  cbn [mbind outcome_bind]. inv_ok.
  destruct (negb _); [reflexivity|].
  destruct (acc sp) as [a|].
  - destruct (deref_account st (Some a)) as [ac| | |]; try reflexivity.
    cbn [mbind outcome_bind]. destruct (negb _); [reflexivity|].
    destruct (splits tr) eqn:El; [reflexivity|].
    destruct (resolve_loop _ _ _ _) as [r| | |]; try reflexivity.
    cbn [mbind outcome_bind]. apply force_balance_orphan; [exact Hl0 | congruence | exact H].
  - destruct (splits tr) eqn:El; [reflexivity|].
    apply force_balance_orphan; [exact Hl0 | congruence | exact H].
Qed.

(** Depth 2 is enough: more fuel changes nothing and the fuel never runs
    out, so [xaccSplitRebalance] is the function of the source. *)
Lemma rebalance_fuel_enough n split st :
  xaccSplitRebalance_fuel (S (S n)) split st = xaccSplitRebalance split st
  ∧ returns (xaccSplitRebalance split st).
Proof.
  assert (E : ∀ g, xaccSplitRebalance_fuel (S (S n)) split st
              = xaccSplitRebalance_body
                  (xaccTransAppendSplit_body (xaccSplitRebalance_body g)) split st).
  { intros g. cbn [xaccSplitRebalance_fuel].
    apply xaccSplitRebalance_body_orphan. intros t s st' Ho.
    destruct n; cbn [xaccSplitRebalance_fuel];
      apply xaccTransAppendSplit_body_orphan; exact Ho. }
  assert (E2 : ∀ g, xaccSplitRebalance split st
              = xaccSplitRebalance_body
                  (xaccTransAppendSplit_body (xaccSplitRebalance_body g)) split st).
  { intros g. unfold xaccSplitRebalance. cbn [xaccSplitRebalance_fuel].
    apply xaccSplitRebalance_body_orphan. intros t s st' Ho.
    apply xaccTransAppendSplit_body_orphan; exact Ho. }
  split.
  - rewrite (E (λ _ _ _, Fault)), (E2 (λ _ _ _, Fault)). reflexivity.
  - rewrite (E2 (λ _ _ _, Fault)).
    apply xaccSplitRebalance_body_returns. intros.
    apply xaccTransAppendSplit_body_returns. intros.
    apply xaccSplitRebalance_body_returns. intros. discriminate.
Qed.

Lemma xaccTransAppendSplit_returns trans split st :
  returns (xaccTransAppendSplit trans split st).
Proof.
  apply xaccTransAppendSplit_body_returns. intros. apply (rebalance_fuel_enough 0).
Qed.

(** ** The split the rebalancer creates *)

Lemma DEQ_false (x : Qc) : x ≠ 0%Qc → DEQ 0%Qc x = false.
Proof. intros H. unfold DEQ. apply bool_decide_eq_false_2. congruence. Qed.

Lemma eqb_false_of_ne (x : Z) : x ≠ 0%Z → (x =? 0)%Z = false.
Proof. intros H. apply Z.eqb_neq. exact H. Qed.

(** Under [force_double_entry], when the source split is alone and its
    amount is not zero, the rebalancer creates the balancing split and
    appends it; the append rebalances from the new split, which has no
    account yet, and [ComputeValue] stops at [assert (s->acc)]. *)
Lemma force_balance_creates_and_aborts st s sp t tr base_currency :
  force_double_entry st ≠ 0%Z →
  split_heap st !! s = Some sp →
  trans_heap st !! t = Some tr →
  splits tr = [s] →
  damount sp ≠ 0%Qc →
  Z.land DEFER_REBALANCE (open tr) = 0%Z →
  force_balance (xaccTransAppendSplit_body (xaccSplitRebalance_fuel 1))
    (Some s) sp t tr base_currency st
  = (m ← strdup (memo sp); a ← strdup (action sp); AssertFail).
Proof.
  intros Hf Hs Ht Hl Hd Ho.
  unfold force_balance. rewrite Hl. cbn [head lookup list_lookup].
  rewrite bool_decide_eq_true_2 by reflexivity.
  rewrite (eqb_false_of_ne _ Hf), (DEQ_false _ Hd). cbn [negb andb].
  unfold xaccMallocSplit. cbn zeta.
  pose proof (fresh_split_free st) as Hfresh.
  set (s' := fresh (dom (split_heap st))) in *.
  assert (Hne : s' ≠ s) by congruence.
  destruct (strdup (memo sp)) as [m| | |]; try reflexivity. cbn [mbind outcome_bind].
  destruct (strdup (action sp)) as [a| | |]; try reflexivity. cbn [mbind outcome_bind].
  set (new := set_action a (set_memo m (set_damount (- (share_price sp * damount sp))%Qc xaccInitSplit))).
  set (st3 := store_split s' new (store_split s' xaccInitSplit st)).
  assert (Hs3 : split_heap st3 !! s' = Some new) by apply lookup_insert_eq.
  rewrite (MARK_SPLIT_live st3 s' new Hs3) by discriminate.
  cbn [mbind outcome_bind]. change (marked new st3) with st3.
  assert (Ht3 : trans_heap st3 !! t = Some tr) by exact Ht.
  unfold xaccTransAppendSplit_body.
  rewrite (CHECK_OPEN_live _ _ _ Ht3). cbn [mbind outcome_bind].
  set (st4 := checked t tr st3).
  assert (Hs4 : split_heap st4 !! s' = Some new)
    by (unfold st4; rewrite checked_split_heap; exact Hs3).
  assert (Ht4 : trans_heap st4 !! t = Some tr)
    by (unfold st4; rewrite checked_trans_heap; exact Ht3).
  rewrite (deref_split_live _ _ _ Hs4). cbn [mbind outcome_bind parent new set_action set_memo set_damount xaccInitSplit].
  rewrite (deref_split_live _ _ _ Hs4). cbn [mbind outcome_bind].
  assert (Ht5 : trans_heap (store_split s' (set_parent (Some t) new) st4) !! t = Some tr)
    by exact Ht4.
  rewrite (deref_trans_live _ _ _ Ht5). cbn [mbind outcome_bind]. rewrite Hl.
  set (st6 := store_trans t (set_splits ([s] ++ [s']) tr)
                (store_split s' (set_parent (Some t) new) st4)).
  assert (Hs6 : split_heap st6 !! s' = Some (set_parent (Some t) new)) by apply lookup_insert_eq.
  assert (Ht6 : trans_heap st6 !! t = Some (set_splits ([s] ++ [s']) tr)) by apply lookup_insert_eq.
  assert (Hf6 : force_double_entry st6 = force_double_entry st).
  { unfold st6. simpl. unfold st4. rewrite checked_force_double_entry. reflexivity. }
  cbn [xaccSplitRebalance_fuel]. unfold xaccSplitRebalance_body.
  rewrite (deref_split_live _ _ _ Hs6). cbn [mbind outcome_bind parent set_parent].
  rewrite (deref_trans_live _ _ _ Ht6). cbn [mbind outcome_bind open set_splits].
  rewrite Ho. cbn [Z.eqb negb].
  change (acc (set_parent (Some t) new)) with (@None positive).
  change (splits (set_splits ([s] ++ [s']) tr)) with [s; s'].
  unfold force_balance.
  change (splits (set_splits ([s] ++ [s']) tr)) with [s; s']. cbn [head].
  rewrite bool_decide_eq_false_2 by congruence.
  unfold ComputeValue. cbn [ComputeValue_loop].
  rewrite bool_decide_eq_true_2 by reflexivity.
  rewrite bool_decide_eq_false_2 by congruence.
  rewrite (deref_split_live _ _ _ Hs6). cbn [mbind outcome_bind acc].
  rewrite Hf6, (eqb_false_of_ne _ Hf). reflexivity.
Qed.

Lemma strdup_present (x : option string) : x ≠ None → strdup x = Ok x.
Proof. destruct x; [reflexivity | contradiction]. Qed.

Lemma resolve_loop_single st s sp a ac ra rb :
  force_double_entry st ≠ 0%Z →
  split_heap st !! s = Some sp → acc sp = Some a → accounts st !! a = Some ac →
  resolve_loop st [s] ra rb = AssertFail ∨ ∃ r, resolve_loop st [s] ra rb = Ok r.
Proof.
  intros Hf Hs Ha Hac. cbn [resolve_loop].
  rewrite (eqb_false_of_ne _ Hf), (deref_split_live _ _ _ Hs). cbn [mbind outcome_bind].
  rewrite Ha, (deref_account_live _ _ _ Hac). cbn [mbind outcome_bind].
  destruct (narrow _ _ _ _) as [ra' rb'].
  destruct (_ && _); eauto.
Qed.

(** C2. With [force_double_entry] on, setting a non-zero amount (50 in the
    scenario) on the only split of a transaction that is not in deferred
    mode stops the program: the balancing split is created and appended,
    and the rebalance that the append starts fails the assertion of
    [ComputeValue] on the new split, which has no account yet. *)
Theorem xaccSplitSetShareAmount_lone_split_aborts
    (st : Engine) (s t : positive) (sp : Split) (tr : Transaction) (amt : Qc) :
  force_double_entry st ≠ 0%Z →
  split_heap st !! s = Some sp →
  parent sp = Some t →
  trans_heap st !! t = Some tr →
  splits tr = [s] →
  Z.land DEFER_REBALANCE (open tr) = 0%Z →
  memo sp ≠ None → action sp ≠ None →
  (∀ a, acc sp = Some a →
        ∃ ac, accounts st !! a = Some ac
              ∧ Z.land ACC_DEFER_REBALANCE (acc_open ac) = 0%Z) →
  amt ≠ 0%Qc →
  xaccSplitSetShareAmount (Some s) amt st = AssertFail.
Proof.
  intros Hf Hs Hp Ht Hl Ho Hm Hact Ha Hamt.
  unfold xaccSplitSetShareAmount.
  rewrite (MARK_SPLIT_live st s sp Hs) by (intros a E; destruct (Ha a E) as (? & ? & _); eauto).
  cbn [mbind outcome_bind].
  assert (Hs1 : split_heap (marked sp st) !! s = Some sp) by (rewrite marked_split_heap; exact Hs).
  rewrite (deref_split_live _ _ _ Hs1). cbn [mbind outcome_bind].
  set (sp2 := set_damount amt sp).
  set (st2 := store_split s sp2 (marked sp st)).
  assert (Hs2 : split_heap st2 !! s = Some sp2) by apply lookup_insert_eq.
  assert (Ht2 : trans_heap st2 !! t = Some tr)
    by (unfold st2; simpl; rewrite marked_trans_heap; exact Ht).
  assert (Hf2 : force_double_entry st2 ≠ 0%Z)
    by (unfold st2; simpl; rewrite marked_force_double_entry; exact Hf).
  assert (Hfb : ∀ b, force_balance
                       (xaccTransAppendSplit_body (xaccSplitRebalance_fuel 1))
                       (Some s) sp2 t tr b st2 = AssertFail).
  { intros b.
    rewrite (force_balance_creates_and_aborts st2 s sp2 t tr b Hf2 Hs2 Ht2 Hl Hamt Ho).
    change (memo sp2) with (memo sp). change (action sp2) with (action sp).
    rewrite (strdup_present _ Hm), (strdup_present _ Hact). reflexivity. }
  unfold xaccSplitRebalance. cbn [xaccSplitRebalance_fuel].
  unfold xaccSplitRebalance_body.
  rewrite (deref_split_live _ _ _ Hs2). cbn [mbind outcome_bind].
  change (parent sp2) with (parent sp). rewrite Hp.
  rewrite (deref_trans_live _ _ _ Ht2). cbn [mbind outcome_bind].
  rewrite Ho. cbn [Z.eqb negb]. change (acc sp2) with (acc sp).
  destruct (acc sp) as [a|] eqn:Ea.
  - destruct (Ha a eq_refl) as (ac & Hac & Hdef).
    assert (∃ ac2, accounts st2 !! a = Some ac2 ∧ acc_open ac2 = acc_open ac)
      as (ac2 & Hac2 & Hopen2).
    { unfold st2, marked. simpl. rewrite Ea, Hac. simpl. rewrite lookup_insert_eq.
      eexists. split; reflexivity. }
    rewrite (deref_account_live _ _ _ Hac2). cbn [mbind outcome_bind].
    rewrite Hopen2, Hdef. cbn [Z.eqb negb]. rewrite Hl.
    destruct (resolve_loop_single st2 s sp2 a ac2 (currency ac2)
                (empty_is_null (security ac2)) Hf2 Hs2 Ea Hac2) as [E|[r E]];
      rewrite E; [reflexivity|].
    cbn [mbind outcome_bind]. apply Hfb.
  - rewrite Hl. apply Hfb.
Qed.

(** The scenario of the claim: one split in an account kept in USD, the
    transaction open for editing, and the amount 50. *)
Lemma xaccSplitSetShareAmount_lone_split_aborts_witness :
  let sp := set_acc (Some 1%positive) (set_parent (Some 1%positive) xaccInitSplit) in
  let tr := mkTransaction (Some ""%string) (Some ""%string) (Some ""%string)
              [1%positive] (mkTimespec 0 0) (mkTimespec 0 0) BEGIN_EDIT in
  let ac := mkAccount (Some "Bank"%string) (Some "USD"%string) (Some ""%string) 0 0 in
  let st := set_force_double_entry 1
              (store_account 1 ac (store_trans 1 tr (store_split 1 sp initial_engine))) in
  xaccSplitSetShareAmount (Some 1%positive) (Q2Qc 50) st = AssertFail.
Proof.
  intros sp tr ac st.
  apply (xaccSplitSetShareAmount_lone_split_aborts st 1 1 sp tr (Q2Qc 50)).
  - discriminate.
  - reflexivity.
  - reflexivity.
  - reflexivity.
  - reflexivity.
  - reflexivity.
  - discriminate.
  - discriminate.
  - intros a [= <-]. exists ac. split; reflexivity.
  - discriminate.
Defined.

(** ** Appending a split to a fresh transaction *)

(** C3. With [force_double_entry] at its initial value 0: a transaction
    fresh from [xaccMallocTransaction] has one split, the source, with
    amount 0; after a fresh split with price 1 and amount 100 is appended,
    the transaction has two splits and the amount of the source is -100. *)
Theorem append_to_fresh_transaction_balances_source (st : Engine) :
  force_double_entry st = 0%Z →
  let t := fst (xaccMallocTransaction st) in
  let st1 := snd (xaccMallocTransaction st) in
  let s := fst (xaccMallocSplit st1) in
  let st2 := snd (xaccMallocSplit st1) in
  ∃ st3 st4 s0,
    xaccTransGetSplit st1 (Some t) 0 = Ok (Some s0)
    ∧ xaccTransCountSplits st1 (Some t) = Ok 1%Z
    ∧ xaccSplitGetShareAmount st1 (Some s0) = Ok 0%Qc
    ∧ xaccSplitSetSharePriceAndAmount (Some s) 1%Qc (Q2Qc 100) st2 = Ok st3
    ∧ xaccTransAppendSplit (Some t) (Some s) st3 = Ok st4
    ∧ xaccTransCountSplits st4 (Some t) = Ok 2%Z
    ∧ xaccTransGetSplit st4 (Some t) 0 = Ok (Some s0)
    ∧ xaccTransGetSplit st4 (Some t) 1 = Ok (Some s)
    ∧ xaccSplitGetShareAmount st4 (Some s) = Ok (Q2Qc 100)
    ∧ xaccSplitGetShareAmount st4 (Some s0) = Ok (Q2Qc (-100)).
Proof.
  intros Hf t st1 s st2.
  assert (Hfresh : split_heap st1 !! s = None) by apply (fresh_split_free st1).
  set (s0 := fresh (dom (split_heap st))).
  set (sp0 := set_parent (Some t) xaccInitSplit).
  set (tr0 := mkTransaction (Some ""%string) (Some ""%string) (Some ""%string) [s0]
                (mkTimespec 0 0) (mkTimespec 0 0) 0).
  assert (Hs0 : split_heap st1 !! s0 = Some sp0) by apply lookup_insert_eq.
  assert (Ht0 : trans_heap st1 !! t = Some tr0) by apply lookup_insert_eq.
  assert (Hne : s ≠ s0).
  { intros E. rewrite E, Hs0 in Hfresh. discriminate. }
  set (sp1 := set_damount (Q2Qc 100) (set_share_price 1%Qc xaccInitSplit)).
  set (st3 := store_split s sp1 st2).
  assert (Hset : xaccSplitSetSharePriceAndAmount (Some s) 1%Qc (Q2Qc 100) st2 = Ok st3).
  { unfold xaccSplitSetSharePriceAndAmount.
    assert (Hs2 : split_heap st2 !! s = Some xaccInitSplit) by apply lookup_insert_eq.
    rewrite (MARK_SPLIT_live st2 s _ Hs2) by discriminate. cbn [mbind outcome_bind].
    change (marked xaccInitSplit st2) with st2.
    rewrite (deref_split_live _ _ _ Hs2). cbn [mbind outcome_bind]. fold sp1 st3.
    unfold xaccSplitRebalance. cbn [xaccSplitRebalance_fuel].
    unfold xaccSplitRebalance_body.
    assert (Hs3 : split_heap st3 !! s = Some sp1) by apply lookup_insert_eq.
    rewrite (deref_split_live _ _ _ Hs3). reflexivity. }
  assert (Hs3 : split_heap st3 !! s = Some sp1) by apply lookup_insert_eq.
  assert (Ht3 : trans_heap st3 !! t = Some tr0) by exact Ht0.
  set (sp1' := set_parent (Some t) sp1).
  set (tr1 := set_splits [s0; s] tr0).
  set (st4 := store_trans t tr1
                (store_split s sp1' (emit (EvPrintf (MsgNotOpen t)) st3))).
  set (sp0' := set_damount (- (0 + Q2Qc 100 * 1) / 1)%Qc sp0).
  set (st5 := xaccAccountRecomputeBalance None (store_split s0 sp0' st4)).
  assert (Happ : xaccTransAppendSplit (Some t) (Some s) st3 = Ok st5).
  { unfold xaccTransAppendSplit, xaccTransAppendSplit_body.
    rewrite (CHECK_OPEN_live _ _ _ Ht3). cbn [mbind outcome_bind].
    change (checked t tr0 st3) with (emit (EvPrintf (MsgNotOpen t)) st3).
    set (st3' := emit (EvPrintf (MsgNotOpen t)) st3).
    assert (Hs3' : split_heap st3' !! s = Some sp1) by exact Hs3.
    rewrite (deref_split_live _ _ _ Hs3'). cbn [mbind outcome_bind].
    change (parent sp1) with (@None positive). cbn [mbind outcome_bind].
    rewrite (deref_split_live _ _ _ Hs3'). cbn [mbind outcome_bind].
    assert (Ht3' : trans_heap (store_split s (set_parent (Some t) sp1) st3') !! t = Some tr0)
      by exact Ht0.
    rewrite (deref_trans_live _ _ _ Ht3'). cbn [mbind outcome_bind].
    change (store_trans t (set_splits (splits tr0 ++ [s]) tr0)
              (store_split s (set_parent (Some t) sp1) st3')) with st4.
    assert (Hs4 : split_heap st4 !! s = Some sp1') by apply lookup_insert_eq.
    assert (Hs04 : split_heap st4 !! s0 = Some sp0).
    { change (<[s:=sp1']> (<[s:=sp1]> (<[s:=xaccInitSplit]> (split_heap st1))) !! s0
              = Some sp0).
      rewrite !lookup_insert_ne by exact Hne. exact Hs0. }
    assert (Ht4 : trans_heap st4 !! t = Some tr1) by apply lookup_insert_eq.
    unfold xaccSplitRebalance. cbn [xaccSplitRebalance_fuel].
    unfold xaccSplitRebalance_body.
    rewrite (deref_split_live _ _ _ Hs4). cbn [mbind outcome_bind].
    change (parent sp1') with (Some t). cbv beta iota.
    rewrite (deref_trans_live _ _ _ Ht4). cbn [mbind outcome_bind].
    change (open tr1) with 0%Z. cbn [Z.land DEFER_REBALANCE Z.eqb negb].
    change (acc sp1') with (@None positive). change (splits tr1) with [s0; s].
    cbv beta iota.
    unfold force_balance. change (splits tr1) with [s0; s]. cbn [head].
    rewrite bool_decide_eq_false_2 by congruence.
    unfold ComputeValue. cbn [ComputeValue_loop].
    rewrite bool_decide_eq_true_2 by reflexivity.
    rewrite bool_decide_eq_false_2 by congruence.
    rewrite (deref_split_live _ _ _ Hs4). cbn [mbind outcome_bind].
    change (acc sp1') with (@None positive). cbv beta iota.
    change (force_double_entry st4) with (force_double_entry st). rewrite Hf.
    cbn [Z.eqb mbind outcome_bind].
    unfold xaccSplitSetBaseValue.
    rewrite (deref_split_live _ _ _ Hs04). cbn [mbind outcome_bind].
    change (acc sp0) with (@None positive). cbv beta iota.
    change (force_double_entry st4) with (force_double_entry st). rewrite Hf.
    cbn [Z.eqb mbind outcome_bind].
    change (damount sp1') with (Q2Qc 100). change (share_price sp1') with 1%Qc.
    change (share_price sp0) with 1%Qc. fold sp0'.
    assert (Hs05 : split_heap (store_split s0 sp0' st4) !! s0 = Some sp0')
      by apply lookup_insert_eq.
    rewrite (MARK_SPLIT_live _ s0 sp0' Hs05) by discriminate.
    cbn [mbind outcome_bind].
    change (marked sp0' (store_split s0 sp0' st4)) with (store_split s0 sp0' st4).
    rewrite (deref_split_live _ _ _ Hs05). reflexivity. }
  exists st3, st5, s0.
  assert (Ht5 : trans_heap st5 !! t = Some tr1) by apply lookup_insert_eq.
  assert (Hs5 : split_heap st5 !! s = Some sp1').
  { change (<[s0:=sp0']> (<[s:=sp1']> (split_heap (emit (EvPrintf (MsgNotOpen t)) st3))) !! s
            = Some sp1').
    rewrite lookup_insert_ne by congruence. apply lookup_insert_eq. }
  assert (Hs05 : split_heap st5 !! s0 = Some sp0') by apply lookup_insert_eq.
  unfold xaccTransGetSplit, xaccTransCountSplits, xaccSplitGetShareAmount.
  rewrite !(deref_trans_live _ _ _ Ht0), !(deref_trans_live _ _ _ Ht5).
  rewrite (deref_split_live _ _ _ Hs0), (deref_split_live _ _ _ Hs5),
    (deref_split_live _ _ _ Hs05).
  repeat split; try assumption.
Qed.

(** The scenario from the engine as it starts. *)
Lemma append_to_fresh_transaction_balances_source_witness :
  ∃ st4 s0,
    xaccTransGetSplit st4 (Some 1%positive) 0 = Ok (Some s0)
    ∧ xaccTransCountSplits st4 (Some 1%positive) = Ok 2%Z
    ∧ xaccSplitGetShareAmount st4 (Some s0) = Ok (Q2Qc (-100)).
Proof.
  destruct (append_to_fresh_transaction_balances_source initial_engine eq_refl)
    as (st3 & st4 & s0 & _ & _ & _ & _ & _ & Hn & Hsrc & _ & _ & Hamt).
  exists st4, s0. split; [exact Hsrc|]. split; [exact Hn | exact Hamt].
Defined.

(** ** The back-references between splits and transactions *)

Lemma parents_kept_refl st : parents_kept st st.
Proof. intros i sp H. eauto. Qed.

Lemma parents_kept_trans st1 st2 st3 :
  parents_kept st1 st2 → parents_kept st2 st3 → parents_kept st1 st3.
Proof.
  intros H1 H2 i sp Hi.
  destruct (H1 i sp Hi) as (sp' & Hi' & E').
  destruct (H2 i sp' Hi') as (sp'' & Hi'' & E'').
  exists sp''. split; [exact Hi'' | congruence].
Qed.

Lemma parents_kept_weaken s st st' : parents_kept st st' → parents_kept_but s st st'.
Proof. intros H i sp _. apply H. Qed.

Lemma keeps_refl st : keeps st st.
Proof. split; [trivial | apply parents_kept_refl]. Qed.

Lemma keeps_trans st1 st2 st3 : keeps st1 st2 → keeps st2 st3 → keeps st1 st3.
Proof.
  intros [W1 P1] [W2 P2]. split; [auto | eapply parents_kept_trans; eassumption].
Qed.

Lemma engine_wf_heaps st st' :
  split_heap st' = split_heap st → trans_heap st' = trans_heap st →
  engine_wf st → engine_wf st'.
Proof.
  intros Es Et [Hm Hp Hn]. split; rewrite ?Es, ?Et; assumption.
Qed.

Lemma keeps_heaps st st' :
  split_heap st' = split_heap st → trans_heap st' = trans_heap st → keeps st st'.
Proof.
  intros Es Et. split; [apply engine_wf_heaps; assumption|].
  intros i sp H. rewrite Es. eauto.
Qed.

Lemma keeps_store_split st i sp sp' :
  split_heap st !! i = Some sp → parent sp' = parent sp →
  keeps st (store_split i sp' st).
Proof.
  intros Hi Hpar. split.
  - intros [Hm Hp Hn]. split; simpl.
    + intros t tr s Ht Hs. destruct (Hm t tr s Ht Hs) as (sp0 & Hs0 & Hp0).
      destruct (decide (i = s)) as [->|Hne].
      * rewrite lookup_insert_eq. exists sp'. split; [reflexivity | congruence].
      * rewrite lookup_insert_ne by assumption. eauto.
    + intros s sp0 t Hs Hp0.
      destruct (decide (i = s)) as [->|Hne].
      * rewrite lookup_insert_eq in Hs. injection Hs as <-.
        apply (Hp s sp t Hi). congruence.
      * rewrite lookup_insert_ne in Hs by assumption. eauto.
    + exact Hn.
  - intros j sp0 Hj. simpl.
    destruct (decide (i = j)) as [->|Hne].
    + rewrite lookup_insert_eq. exists sp'. split; [reflexivity | congruence].
    + rewrite lookup_insert_ne by assumption. eauto.
Qed.

Lemma keeps_store_trans st t tr tr' :
  trans_heap st !! t = Some tr → splits tr' = splits tr →
  keeps st (store_trans t tr' st).
Proof.
  intros Ht Hl. split; [|intros i sp H; simpl; eauto].
  intros [Hm Hp Hn]. split; simpl.
  - intros t0 tr0 s Ht0 Hs.
    destruct (decide (t = t0)) as [->|Hne].
    + rewrite lookup_insert_eq in Ht0. injection Ht0 as <-. rewrite Hl in Hs. eauto.
    + rewrite lookup_insert_ne in Ht0 by assumption. eauto.
  - intros s sp t0 Hs Hp0. destruct (Hp s sp t0 Hs Hp0) as (tr0 & Ht0 & Hin).
    destruct (decide (t = t0)) as [->|Hne].
    + rewrite lookup_insert_eq. exists tr'. split; [reflexivity|]. congruence.
    + rewrite lookup_insert_ne by assumption. eauto.
  - intros t0 tr0 Ht0.
    destruct (decide (t = t0)) as [->|Hne].
    + rewrite lookup_insert_eq in Ht0. injection Ht0 as <-. rewrite Hl. eauto.
    + rewrite lookup_insert_ne in Ht0 by assumption. eauto.
Qed.

(** A split that comes into being without a parent. *)
Lemma keeps_new_split st s sp :
  split_heap st !! s = None → parent sp = None → keeps st (store_split s sp st).
Proof.
  intros Hfree Hpar. split.
  - intros [Hm Hp Hn]. split; simpl.
    + intros t tr s0 Ht Hs. destruct (Hm t tr s0 Ht Hs) as (sp0 & Hs0 & Hp0).
      exists sp0. split; [|exact Hp0]. rewrite lookup_insert_ne; [exact Hs0 | congruence].
    + intros s0 sp0 t Hs Hp0.
      destruct (decide (s = s0)) as [->|Hne].
      * rewrite lookup_insert_eq in Hs. injection Hs as <-. congruence.
      * rewrite lookup_insert_ne in Hs by assumption. eauto.
    + exact Hn.
  - intros j sp0 Hj. simpl. exists sp0. split; [|reflexivity].
    rewrite lookup_insert_ne; [exact Hj | congruence].
Qed.

Lemma MARK_SPLIT_keeps p st st' : MARK_SPLIT p st = Ok st' → keeps st st'.
Proof.
  intros H. apply MARK_SPLIT_Ok in H. destruct H as (s & sp & _ & _ & -> & _).
  apply keeps_heaps; [apply marked_split_heap | apply marked_trans_heap].
Qed.

Lemma CHECK_OPEN_keeps t st st' : CHECK_OPEN t st = Ok st' → keeps st st'.
Proof.
  intros H. apply CHECK_OPEN_Ok in H. destruct H as (tr & _ & ->).
  apply keeps_heaps; [apply checked_split_heap | apply checked_trans_heap].
Qed.

Lemma emit_keeps e st : keeps st (emit e st).
Proof. apply keeps_heaps; reflexivity. Qed.

Lemma xaccSplitSetBaseValue_keeps s v b st st' :
  xaccSplitSetBaseValue s v b st = Ok st' → keeps st st'.
Proof.
  unfold xaccSplitSetBaseValue. intros H.
  destruct s as [i|]; [|inv_ok; apply keeps_refl].
  inv_ok. destruct (acc x) as [a|].
  - inv_ok.
    repeat match type of Hk0 with
           | (if ?c then _ else _) = _ => destruct c
           end; inv_ok;
      first [ apply (keeps_store_split _ _ x); [assumption | reflexivity]
            | apply emit_keeps ].
  - destruct (_ =? _)%Z; inv_ok. apply (keeps_store_split _ _ x); [assumption | reflexivity].
Qed.

Lemma xaccAccountInsertSplit_keeps a s st st' :
  xaccAccountInsertSplit a s st = Ok st' → keeps st st'.
Proof.
  unfold xaccAccountInsertSplit. intros H.
  destruct a as [a|], s as [i|]; inv_ok; try apply emit_keeps.
  eapply keeps_trans; [apply emit_keeps|].
  apply (keeps_store_split _ _ x); [assumption | reflexivity].
Qed.

Lemma elem_of_compact s x l : x ∈ compact s l ↔ x ∈ l ∧ x ≠ s.
Proof.
  induction l as [|y l IH]; simpl.
  - rewrite elem_of_nil. tauto.
  - destruct (bool_decide_reflect (s = y)) as [<-|Hne].
    + rewrite IH, elem_of_cons. split; [tauto|]. intros [[E|H] Hx]; [contradiction | tauto].
    + rewrite !elem_of_cons, IH. split.
      * intros [->|[H Hx]]; split; auto.
      * intros [[E|H] Hx]; auto.
Qed.

Lemma NoDup_compact s l : NoDup l → NoDup (compact s l).
Proof.
  induction 1 as [|y l Hy Hl IH]; simpl; [constructor|].
  destruct (bool_decide (s = y)); [exact IH|].
  constructor; [|exact IH]. rewrite elem_of_compact. tauto.
Qed.

(** [xaccTransRemoveSplit] of a split from the transaction that is its
    parent. *)
Lemma xaccTransRemoveSplit_parent st t s sp st' :
  split_heap st !! s = Some sp → parent sp = Some t →
  xaccTransRemoveSplit (Some t) (Some s) st = Ok st' →
  (engine_wf st → engine_wf st')
  ∧ parents_kept_but s st st'
  ∧ split_heap st' !! s = Some (set_parent None sp)
  ∧ ∃ tr, trans_heap st !! t = Some tr
          ∧ trans_heap st' !! t = Some (set_splits (compact s (splits tr)) tr)
          ∧ s ∉ compact s (splits tr).
Proof.
  intros Hs Hpar H. unfold xaccTransRemoveSplit in H. inv_ok.
  simpl in Hl0. rewrite Hs in Hl. injection Hl as <-.
  split; [|split; [|split]].
  - intros [Hm Hp Hn]. split; simpl.
    + intros t0 tr0 s0 Ht0 Hs0.
      destruct (decide (t = t0)) as [<-|Hne].
      * rewrite lookup_insert_eq in Ht0. injection Ht0 as <-. simpl in Hs0.
        apply elem_of_compact in Hs0. destruct Hs0 as [Hin Hne].
        rewrite lookup_insert_ne by congruence. eauto.
      * rewrite lookup_insert_ne in Ht0 by assumption.
        destruct (Hm t0 tr0 s0 Ht0 Hs0) as (sp0 & Hsp0 & Hp0).
        assert (s ≠ s0) by (intros <-; congruence).
        rewrite lookup_insert_ne by assumption. eauto.
    + intros s0 sp0 t0 Hs0 Hp0.
      destruct (decide (s = s0)) as [<-|Hne].
      * rewrite lookup_insert_eq in Hs0. injection Hs0 as <-. discriminate.
      * rewrite lookup_insert_ne in Hs0 by assumption.
        destruct (Hp s0 sp0 t0 Hs0 Hp0) as (tr0 & Ht0 & Hin).
        destruct (decide (t = t0)) as [<-|Hnet].
        -- rewrite lookup_insert_eq. eexists. split; [reflexivity|]. simpl.
           apply elem_of_compact. split; [congruence | congruence].
        -- rewrite lookup_insert_ne by assumption. eauto.
    + intros t0 tr0 Ht0.
      destruct (decide (t = t0)) as [<-|Hne].
      * rewrite lookup_insert_eq in Ht0. injection Ht0 as <-. simpl.
        apply NoDup_compact. eauto.
      * rewrite lookup_insert_ne in Ht0 by assumption. eauto.
  - intros j sp0 Hne Hj. simpl. rewrite lookup_insert_ne by congruence. eauto.
  - simpl. apply lookup_insert_eq.
  - exists x0. split; [exact Hl0|]. split; [simpl; apply lookup_insert_eq|].
    rewrite elem_of_compact. tauto.
Qed.

(** The two assignments of [xaccTransAppendSplit] that put a split without
    a parent at the end of an array. *)
Lemma attach_split_wf st t s sp tr :
  split_heap st !! s = Some sp → parent sp = None →
  trans_heap st !! t = Some tr →
  engine_wf st →
  engine_wf (store_trans t (set_splits (splits tr ++ [s]) tr)
               (store_split s (set_parent (Some t) sp) st)).
Proof.
  intros Hs Hpar Ht [Hm Hp Hn].
  assert (Hnotin : ∀ t0 tr0, trans_heap st !! t0 = Some tr0 → s ∉ splits tr0).
  { intros t0 tr0 Ht0 Hin. destruct (Hm t0 tr0 s Ht0 Hin) as (sp0 & Hs0 & Hp0). congruence. }
  split; simpl.
  - intros t0 tr0 s0 Ht0 Hs0.
    destruct (decide (t = t0)) as [<-|Hne].
    + rewrite lookup_insert_eq in Ht0. injection Ht0 as <-. simpl in Hs0.
      apply elem_of_app in Hs0. destruct Hs0 as [Hin|Hin].
      * assert (s ≠ s0) by (intros <-; exact (Hnotin t tr Ht Hin)).
        rewrite lookup_insert_ne by assumption. eauto.
      * apply list_elem_of_singleton in Hin. subst s0.
        rewrite lookup_insert_eq. eauto.
    + rewrite lookup_insert_ne in Ht0 by assumption.
      assert (s ≠ s0) by (intros <-; exact (Hnotin t0 tr0 Ht0 Hs0)).
      rewrite lookup_insert_ne by assumption. eauto.
  - intros s0 sp0 t0 Hs0 Hp0.
    destruct (decide (s = s0)) as [<-|Hne].
    + rewrite lookup_insert_eq in Hs0. injection Hs0 as <-. simpl in Hp0.
      injection Hp0 as <-. rewrite lookup_insert_eq. eexists. split; [reflexivity|].
      simpl. apply elem_of_app. right. left.
    + rewrite lookup_insert_ne in Hs0 by assumption.
      destruct (Hp s0 sp0 t0 Hs0 Hp0) as (tr0 & Ht0 & Hin).
      destruct (decide (t = t0)) as [<-|Hnet].
      * rewrite lookup_insert_eq. eexists. split; [reflexivity|]. simpl.
        apply elem_of_app. left. congruence.
      * rewrite lookup_insert_ne by assumption. eauto.
  - intros t0 tr0 Ht0.
    destruct (decide (t = t0)) as [<-|Hne].
    + rewrite lookup_insert_eq in Ht0. injection Ht0 as <-. simpl.
      apply list.NoDup_app. split; [eauto|]. split; [|apply NoDup_singleton].
      intros x Hx Hx'. apply list_elem_of_singleton in Hx'. subst x.
      exact (Hnotin t tr Ht Hx).
    + rewrite lookup_insert_ne in Ht0 by assumption. eauto.
Qed.

(** Freeing a split that has no parent. *)
Lemma free_orphan_wf st s sp :
  split_heap st !! s = Some sp → parent sp = None →
  engine_wf st → engine_wf (free_split s st).
Proof.
  intros Hs Hpar [Hm Hp Hn]. split; simpl.
  - intros t tr s0 Ht Hs0. destruct (Hm t tr s0 Ht Hs0) as (sp0 & Hsp0 & Hp0).
    assert (s ≠ s0) by (intros <-; congruence).
    rewrite lookup_delete_ne by assumption. eauto.
  - intros s0 sp0 t Hs0 Hp0.
    destruct (decide (s = s0)) as [<-|Hne].
    + rewrite lookup_delete_eq in Hs0. discriminate.
    + rewrite lookup_delete_ne in Hs0 by assumption. eauto.
  - exact Hn.
Qed.

(** The loop of [xaccFreeTransaction] frees the entries of the array and
    leaves the rest of the store alone. *)
Lemma for_each_free st l st' :
  for_each (λ s, xaccFreeSplit (Some s)) l st = Ok st' →
  trans_heap st' = trans_heap st
  ∧ ∀ i, split_heap st' !! i = if decide (i ∈ l) then None else split_heap st !! i.
Proof.
  revert st. induction l as [|s l IH]; intros st H; cbn [for_each] in H.
  - inv_ok. split; [reflexivity|]. intros i. rewrite decide_False; [reflexivity|].
    apply not_elem_of_nil.
  - inv_ok. unfold xaccFreeSplit in Hx. inv_ok.
    destruct (IH _ Hk) as (Et & Es). split; [rewrite Et; reflexivity|].
    intros i. rewrite Es. simpl.
    destruct (decide (i ∈ l)) as [Hin|Hnin].
    + rewrite decide_True; [reflexivity | right; exact Hin].
    + destruct (decide (i = s)) as [->|Hne].
      * rewrite decide_True by left. apply lookup_delete_eq.
      * rewrite decide_False.
        -- apply lookup_delete_ne. congruence.
        -- rewrite elem_of_cons. tauto.
Qed.

Lemma xaccFreeTransaction_wf st t st' :
  xaccFreeTransaction (Some t) st = Ok st' → engine_wf st → engine_wf st'.
Proof.
  unfold xaccFreeTransaction. intros H [Hm Hp Hn]. inv_ok.
  destruct (for_each_free _ _ _ Hx0) as (Et & Es).
  split; simpl.
  - intros t0 tr0 s Ht0 Hs.
    destruct (decide (t = t0)) as [<-|Hne].
    + rewrite lookup_delete_eq in Ht0. discriminate.
    + rewrite lookup_delete_ne, Et in Ht0 by assumption.
      destruct (Hm t0 tr0 s Ht0 Hs) as (sp & Hsp & Hpar).
      exists sp. split; [|exact Hpar]. rewrite Es, decide_False; [exact Hsp|].
      intros Hin. destruct (Hm t x s Hl Hin) as (sp' & Hsp' & Hpar'). congruence.
  - intros s sp t0 Hs Hpar. rewrite Es in Hs.
    destruct (decide (s ∈ splits x)) as [Hin|Hnin]; [discriminate|].
    destruct (Hp s sp t0 Hs Hpar) as (tr0 & Ht0 & Hin).
    assert (t ≠ t0) by (intros <-; congruence).
    rewrite lookup_delete_ne, Et by assumption. eauto.
  - intros t0 tr0 Ht0.
    destruct (decide (t = t0)) as [<-|Hne].
    + rewrite lookup_delete_eq in Ht0. discriminate.
    + rewrite lookup_delete_ne, Et in Ht0 by assumption. eauto.
Qed.

Lemma force_balance_keeps append split sp t tr b st st' :
  append_keeps append →
  force_balance append split sp t tr b st = Ok st' → keeps st st'.
Proof.
  intros HA H. unfold force_balance in H.
  destruct (bool_decide _).
  - destruct (splits tr !! 1%nat) as [s1|].
    + inv_ok.
      eapply keeps_trans; [eapply xaccSplitSetBaseValue_keeps; eassumption|].
      eapply keeps_trans; [eapply MARK_SPLIT_keeps; eassumption|].
      apply emit_keeps.
    + destruct (_ && _); [|inv_ok; apply keeps_refl].
      unfold xaccMallocSplit in H. cbn zeta in H.
      pose proof (fresh_split_free st) as Hfresh.
      set (s' := fresh (dom (split_heap st))) in *.
      inv_ok.
      set (new := set_action x0 (set_memo x _)) in *.
      assert (K1 : keeps st (store_split s' xaccInitSplit st))
        by (apply keeps_new_split; [exact Hfresh | reflexivity]).
      assert (K2 : keeps (store_split s' xaccInitSplit st)
                     (store_split s' new (store_split s' xaccInitSplit st)))
        by (apply (keeps_store_split _ _ xaccInitSplit); [apply lookup_insert_eq | reflexivity]).
      pose proof (MARK_SPLIT_keeps _ _ _ Hx1) as K3.
      destruct (HA _ _ _ _ Hx2) as (W4 & P4 & _).
      pose proof (xaccAccountInsertSplit_keeps _ _ _ _ Hk) as K5.
      pose proof (keeps_trans _ _ _ (keeps_trans _ _ _ K1 K2) K3) as [W13 P13].
      split.
      * intros W. apply K5, W4, W13, W.
      * intros j spj Hj.
        assert (j ≠ s') by (intros ->; congruence).
        destruct (P13 j spj Hj) as (sp1 & Hj1 & E1).
        destruct (P4 j sp1 H Hj1) as (sp2 & Hj2 & E2).
        destruct (proj2 K5 j sp2 Hj2) as (sp3 & Hj3 & E3).
        exists sp3. split; [exact Hj3 | congruence].
  - inv_ok.
    eapply keeps_trans; [eapply xaccSplitSetBaseValue_keeps; eassumption|].
    eapply keeps_trans; [eapply MARK_SPLIT_keeps; eassumption|].
    apply emit_keeps.
Qed.

Lemma xaccSplitRebalance_body_keeps append :
  append_keeps append → rebalance_keeps (xaccSplitRebalance_body append).
Proof.
  intros HA split st st' H. unfold xaccSplitRebalance_body in H. inv_ok.
  destruct (parent x) as [t|]; [|inv_ok; apply keeps_refl]. inv_ok.
  destruct (negb _); [inv_ok; apply keeps_refl|].
  destruct (acc x) as [a|].
  - inv_ok. destruct (negb _); [inv_ok; apply keeps_refl|].
    destruct (splits x0) eqn:El; [discriminate|]. inv_ok.
    eapply force_balance_keeps; eassumption.
  - destruct (splits x0) eqn:El; [discriminate|].
    eapply force_balance_keeps; eassumption.
Qed.

Lemma xaccTransAppendSplit_body_keeps rebalance :
  rebalance_keeps rebalance → append_keeps (xaccTransAppendSplit_body rebalance).
Proof.
  intros HR t s st st' H. unfold xaccTransAppendSplit_body in H. inv_ok.
  rename x into st1, x0 into sp1, x1 into st3, x2 into sp3, x3 into tr,
    Hl0 into Hs1, Hl into Hs3, Hl1 into Ht4, Hk into Hreb, Hx1 into Hold.
  pose proof (CHECK_OPEN_keeps _ _ _ Hx) as [W1 P1].
  assert (K13 : (engine_wf st1 → engine_wf st3) ∧ parents_kept_but s st1 st3
                ∧ parent sp3 = None).
  { destruct (parent sp1) as [old|] eqn:Ep.
    - apply bind_Ok in Hold. destruct Hold as (st2 & Hrem & Hreb1).
      unfold xaccTransRebalance_with in Hreb1.
      apply bind_Ok in Hreb1. destruct Hreb1 as (trold & _ & Hreb1).
      destruct (xaccTransRemoveSplit_parent _ _ _ _ _ Hs1 Ep Hrem) as (W2 & P2 & Hs2 & _).
      destruct (HR _ _ _ Hreb1) as [W3 P3].
      split; [auto|]. split.
      + intros j spj Hne Hj. destruct (P2 j spj Hne Hj) as (sp2 & Hj2 & E2).
        destruct (P3 j sp2 Hj2) as (sp3' & Hj3 & E3).
        exists sp3'. split; [exact Hj3 | congruence].
      + destruct (P3 s _ Hs2) as (sp3' & Hj3 & E3).
        rewrite Hj3 in Hs3. injection Hs3 as <-. exact E3.
    - injection Hold as <-. split; [trivial|].
      split; [apply parents_kept_weaken, parents_kept_refl|]. congruence. }
  destruct K13 as (W3 & P3 & Hp3).
  simpl in Ht4.
  destruct (HR _ _ _ Hreb) as [W5 P5].
  split; [|split].
  - intros W. apply W5. apply attach_split_wf; auto.
  - intros j spj Hne Hj.
    destruct (P1 j spj Hj) as (sp1' & Hj1 & E1).
    destruct (P3 j sp1' Hne Hj1) as (sp3' & Hj3 & E3).
    destruct (P5 j sp3') as (sp5 & Hj5 & E5).
    { simpl. rewrite lookup_insert_ne by congruence. exact Hj3. }
    exists sp5. split; [exact Hj5 | congruence].
  - destruct (P5 s (set_parent (Some t) sp3)) as (sp5 & Hj5 & E5).
    { simpl. apply lookup_insert_eq. }
    exists sp5. split; [exact Hj5 | exact E5].
Qed.

Lemma xaccSplitRebalance_fuel_keeps n : rebalance_keeps (xaccSplitRebalance_fuel n).
Proof.
  induction n as [|n IH].
  - intros split st st' H. discriminate.
  - cbn [xaccSplitRebalance_fuel].
    apply xaccSplitRebalance_body_keeps, xaccTransAppendSplit_body_keeps, IH.
Qed.

Lemma SplitDestroy_scan_keeps t split l n b st b' st' :
  SplitDestroy_scan t split l n b st = Ok (b', st') → keeps st st'.
Proof.
  revert n b st. induction l as [|s l IH]; intros n b st H; cbn [SplitDestroy_scan] in H.
  - inv_ok. apply keeps_refl.
  - apply bind_Ok in H. destruct H as (st1 & Hmark & H).
    eapply keeps_trans; [apply emit_keeps|].
    eapply keeps_trans; [eapply MARK_SPLIT_keeps; exact Hmark|].
    eapply IH. exact H.
Qed.

Lemma xaccSplitDestroy_wf st s st' :
  xaccSplitDestroy (Some s) st = Ok st' → engine_wf st → engine_wf st'.
Proof.
  unfold xaccSplitDestroy. intros H W.
  apply bind_Ok in H. destruct H as (sp & Hsp & H).
  apply deref_split_Ok in Hsp. destruct Hsp as (? & [= <-] & Hs).
  destruct (parent sp) as [t|] eqn:Ep; [|discriminate].
  apply bind_Ok in H. destruct H as (st1 & Hchk & H).
  apply bind_Ok in H. destruct H as (tr & Htr & H).
  apply bind_Ok in H. destruct H as ([ismember st2] & Hscan & H).
  pose proof (keeps_trans _ _ _ (CHECK_OPEN_keeps _ _ _ Hchk)
                (SplitDestroy_scan_keeps _ _ _ _ _ _ _ _ Hscan)) as [W2 P2].
  destruct (negb ismember); [discriminate|].
  destruct (2 <? _)%Z.
  - apply bind_Ok in H. destruct H as (st3 & Hmark & H).
    apply bind_Ok in H. destruct H as (st4 & Hrem & H).
    apply bind_Ok in H. destruct H as (sp4 & Hsp4 & H).
    apply bind_Ok in H. destruct H as (st5 & Hfree & H).
    apply bind_Ok in H. destruct H as (tr5 & _ & H).
    destruct (MARK_SPLIT_keeps _ _ _ Hmark) as [W3 P3].
    destruct (P2 s sp Hs) as (sp2 & Hs2 & E2).
    destruct (P3 s sp2 Hs2) as (sp3 & Hs3 & E3).
    assert (Ep3 : parent sp3 = Some t) by congruence.
    destruct (xaccTransRemoveSplit_parent _ _ _ _ _ Hs3 Ep3 Hrem) as (W4 & _ & Hs4 & _).
    unfold xaccFreeSplit in Hfree.
    apply bind_Ok in Hfree. destruct Hfree as (sp5 & _ & [= <-]).
    apply (proj1 (xaccSplitRebalance_fuel_keeps 2 _ _ _ H)).
    apply (free_orphan_wf _ s (set_parent None sp3)); [exact Hs4 | reflexivity|].
    apply (engine_wf_heaps st4); [reflexivity | reflexivity|]. auto.
  - apply bind_Ok in H. destruct H as (sp0 & _ & H).
    apply bind_Ok in H. destruct H as (st3 & Hmark & H).
    pose proof (MARK_SPLIT_keeps _ _ _ Hmark) as [W3 _].
    assert (W3' : engine_wf st3) by (apply W3, (engine_wf_heaps st2); [reflexivity..|auto]).
    destruct (splits tr !! 1%nat) as [s1|].
    + apply bind_Ok in H. destruct H as (sp1 & _ & H).
      apply bind_Ok in H. destruct H as (st4 & Hmark4 & H).
      pose proof (MARK_SPLIT_keeps _ _ _ Hmark4) as [W4 _].
      eapply xaccFreeTransaction_wf; [exact H|].
      eapply engine_wf_heaps; [| |apply W4; eapply (engine_wf_heaps st3); [| |exact W3']];
        reflexivity.
    + injection H as <-. eapply engine_wf_heaps; [| |exact W3']; reflexivity.
Qed.

(** ** The back-references after an append or a removal *)

(** A turn of the resolver on an account whose currency is the first
    candidate leaves a first candidate. *)
Lemma narrow_own_currency c rb sb ra' rb' :
  narrow (Some c) rb (Some c) sb = (ra', rb') → ra' ≠ None.
Proof.
  unfold narrow. cbv zeta.
  rewrite (proj2 (safe_strcmp_eq (Some c) (Some c)) eq_refl).
  destruct rb as [y|]; cbn [Z.eqb andb negb]; [|intros [= <- <-]; discriminate].
  destruct (safe_strcmp (Some y) sb =? 0)%Z, (safe_strcmp (Some c) sb =? 0)%Z,
    (safe_strcmp (Some y) (Some c) =? 0)%Z; cbn [andb negb];
    intros [= <- <-]; discriminate.
Qed.

Lemma resolve_loop_lone st s sp a ac :
  force_double_entry st ≠ 0%Z →
  split_heap st !! s = Some sp → acc sp = Some a → accounts st !! a = Some ac →
  currency ac ≠ None →
  ∃ r, resolve_loop st [s] (currency ac) (empty_is_null (security ac)) = Ok r.
Proof.
  intros Hf Hs Ha Hac Hc. cbn [resolve_loop].
  rewrite (eqb_false_of_ne _ Hf), (deref_split_live _ _ _ Hs). cbn [mbind outcome_bind].
  rewrite Ha, (deref_account_live _ _ _ Hac). cbn [mbind outcome_bind].
  destruct (currency ac) as [c|]; [|contradiction].
  destruct (narrow _ _ _ _) as [ra' rb'] eqn:En.
  rewrite (bool_decide_eq_false_2 _ (narrow_own_currency _ _ _ _ _ En)).
  cbn [andb]. eauto.
Qed.

(** The state in which the rebalancer hands the split it has created to
    the closing rebalance of [xaccTransAppendSplit]: the new split is the
    last entry of the array and points back to the transaction. *)
Lemma rebalance_appends_created_split
    (rebalance : option positive → Engine → outcome Engine)
    (st : Engine) (t s : positive) (sp : Split) (tr : Transaction) :
  engine_wf st →
  force_double_entry st ≠ 0%Z →
  split_heap st !! s = Some sp →
  trans_heap st !! t = Some tr → splits tr = [s] →
  Z.land DEFER_REBALANCE (open tr) = 0%Z →
  damount sp ≠ 0%Qc → memo sp ≠ None → action sp ≠ None →
  (∀ a, acc sp = Some a →
        ∃ ac, accounts st !! a = Some ac
              ∧ Z.land ACC_DEFER_REBALANCE (acc_open ac) = 0%Z
              ∧ currency ac ≠ None) →
  ∃ s' st_mid,
    split_heap st !! s' = None
    ∧ xaccSplitRebalance_body (xaccTransAppendSplit_body rebalance) (Some s) st
      = (st2 ← rebalance (Some s') st_mid;
         sp2 ← deref_split st2 (Some s);
         xaccAccountInsertSplit (acc sp2) (Some s') st2)
    ∧ engine_wf st_mid
    ∧ xaccSplitGetParent st_mid (Some s') = Ok (Some t)
    ∧ splits <$> trans_heap st_mid !! t = Some [s; s'].
Proof.
  intros W Hf Hs Ht Hl Ho Hd Hm Hact Ha.
  destruct (wf_member _ W t tr s Ht) as (sp0 & Hs0 & Hp); [rewrite Hl; left|].
  rewrite Hs in Hs0. injection Hs0 as <-.
  pose proof (fresh_split_free st) as Hfresh.
  set (s' := fresh (dom (split_heap st))) in *.
  destruct (memo sp) as [m|] eqn:Em; [|contradiction].
  destruct (action sp) as [a|] eqn:Eact; [|contradiction].
  set (new := set_action (Some a)
                (set_memo (Some m)
                   (set_damount (- (share_price sp * damount sp))%Qc xaccInitSplit))).
  set (st3 := store_split s' new (store_split s' xaccInitSplit st)).
  set (st4 := checked t tr st3).
  set (st_mid := store_trans t (set_splits (splits tr ++ [s']) tr)
                   (store_split s' (set_parent (Some t) new) st4)).
  exists s', st_mid.
  assert (Hs3 : split_heap st3 !! s' = Some new) by apply lookup_insert_eq.
  assert (Hs4 : split_heap st4 !! s' = Some new)
    by (unfold st4; rewrite checked_split_heap; exact Hs3).
  assert (Ht4 : trans_heap st4 !! t = Some tr)
    by (unfold st4; rewrite checked_trans_heap; exact Ht).
  assert (Hcreate : ∀ b, force_balance (xaccTransAppendSplit_body rebalance)
                           (Some s) sp t tr b st
                         = (st2 ← rebalance (Some s') st_mid;
                            sp2 ← deref_split st2 (Some s);
                            xaccAccountInsertSplit (acc sp2) (Some s') st2)).
  { intros b. unfold force_balance. rewrite Hl. cbn [head lookup list_lookup].
    rewrite bool_decide_eq_true_2 by reflexivity.
    rewrite (eqb_false_of_ne _ Hf), (DEQ_false _ Hd). cbn [negb andb].
    unfold xaccMallocSplit. cbn zeta. fold s'.
    rewrite Em, Eact. cbn [strdup mbind outcome_bind]. fold new. fold st3.
    rewrite (MARK_SPLIT_live st3 s' new Hs3) by discriminate.
    cbn [mbind outcome_bind]. change (marked new st3) with st3.
    unfold xaccTransAppendSplit_body.
    assert (Ht3 : trans_heap st3 !! t = Some tr) by exact Ht.
    rewrite (CHECK_OPEN_live _ _ _ Ht3). cbn [mbind outcome_bind]. fold st4.
    rewrite (deref_split_live _ _ _ Hs4).
    cbn [mbind outcome_bind parent new set_action set_memo set_damount xaccInitSplit].
    rewrite (deref_split_live _ _ _ Hs4). cbn [mbind outcome_bind].
    assert (Ht5 : trans_heap (store_split s' (set_parent (Some t) new) st4) !! t = Some tr)
      by exact Ht4.
    rewrite (deref_trans_live _ _ _ Ht5). cbn [mbind outcome_bind].
    reflexivity. }
  split; [exact Hfresh|]. split; [|split; [|split]].
  - unfold xaccSplitRebalance_body.
    rewrite (deref_split_live _ _ _ Hs). cbn [mbind outcome_bind].
    rewrite Hp, (deref_trans_live _ _ _ Ht). cbn [mbind outcome_bind].
    rewrite Ho. cbn [Z.eqb negb].
    destruct (acc sp) as [a0|] eqn:Ea.
    + destruct (Ha a0 eq_refl) as (ac & Hac & Hdef & Hcur).
      rewrite (deref_account_live _ _ _ Hac). cbn [mbind outcome_bind].
      rewrite Hdef. cbn [Z.eqb negb]. rewrite Hl.
      destruct (resolve_loop_lone st s sp a0 ac Hf Hs Ea Hac Hcur) as (r & ->).
      cbn [mbind outcome_bind]. apply Hcreate.
    + rewrite Hl. apply Hcreate.
  - unfold st_mid. apply (attach_split_wf st4 t s' new tr Hs4 eq_refl Ht4).
    apply (engine_wf_heaps st3); [apply checked_split_heap | apply checked_trans_heap|].
    unfold st3.
    apply (keeps_store_split (store_split s' xaccInitSplit st) s' xaccInitSplit new);
      [apply lookup_insert_eq | reflexivity|].
    apply (keeps_new_split st s' xaccInitSplit Hfresh eq_refl). exact W.
  - unfold xaccSplitGetParent, deref_split, st_mid. simpl.
    rewrite lookup_insert_eq. reflexivity.
  - unfold st_mid. simpl. rewrite lookup_insert_eq. simpl. rewrite Hl. reflexivity.
Qed.

(** C4, as stated: [xaccTransRemoveSplit] is given a split and a
    transaction that is not the parent of the split.  Of two transactions
    fresh from [xaccMallocTransaction], the first still holds its split
    after the call, and the parent of that split is cleared. *)
Lemma xaccTransRemoveSplit_foreign_counterexample :
  let st := snd (xaccMallocTransaction (snd (xaccMallocTransaction initial_engine))) in
  engine_wf st
  ∧ xaccSplitGetParent st (Some 1%positive) = Ok (Some 1%positive)
  ∧ ∃ st', xaccTransRemoveSplit (Some 2%positive) (Some 1%positive) st = Ok st'
           ∧ xaccTransGetSplit st' (Some 1%positive) 0 = Ok (Some 1%positive)
           ∧ xaccSplitGetParent st' (Some 1%positive) = Ok None
           ∧ ¬ engine_wf st'.
Proof.
  intros st.
  split; [apply xaccMallocTransaction_wf, xaccMallocTransaction_wf, initial_engine_wf|].
  split; [reflexivity|].
  eexists. split; [vm_compute; reflexivity|].
  split; [reflexivity|]. split; [reflexivity|].
  intros W.
  destruct (wf_member _ W 1%positive
              (mkTransaction (Some ""%string) (Some ""%string) (Some ""%string)
                 [1%positive] (mkTimespec 0 0) (mkTimespec 0 0) 0) 1%positive)
    as (sp & Hs & Hp); [reflexivity | left |].
  vm_compute in Hs. injection Hs as <-. discriminate Hp.
Qed.

(** C4, amended. In an engine where every split's parent is the transaction
    whose array holds it, this is so again after [xaccTransAppendSplit]
    (the split is then in the array of the transaction and has it as
    parent), after [xaccTransRemoveSplit] of a split from the transaction
    that is its parent, which is how its callers call it (the split then
    has no parent and is in no array), after [xaccSplitDestroy] and after
    every [xaccSplitRebalance] that returns.  A rebalance that creates a
    split hands it to [xaccTransAppendSplit], and whatever the closing
    rebalance of the append does, it starts in a state where the new split
    is the last entry of the array, points back to the transaction, and
    every split's parent is the transaction that holds it. *)
Theorem parent_back_reference_maintained (st st' : Engine) (t s : positive) :
  engine_wf st →
  (xaccTransAppendSplit (Some t) (Some s) st = Ok st' →
   engine_wf st'
   ∧ xaccSplitGetParent st' (Some s) = Ok (Some t)
   ∧ ∃ tr, trans_heap st' !! t = Some tr ∧ s ∈ splits tr)
  ∧ (xaccSplitGetParent st (Some s) = Ok (Some t) →
     xaccTransRemoveSplit (Some t) (Some s) st = Ok st' →
     engine_wf st'
     ∧ xaccSplitGetParent st' (Some s) = Ok None
     ∧ ∀ t' tr', trans_heap st' !! t' = Some tr' → s ∉ splits tr')
  ∧ (xaccSplitDestroy (Some s) st = Ok st' → engine_wf st')
  ∧ (∀ split, xaccSplitRebalance split st = Ok st' → engine_wf st')
  ∧ (∀ rebalance sp tr,
       force_double_entry st ≠ 0%Z →
       split_heap st !! s = Some sp →
       trans_heap st !! t = Some tr → splits tr = [s] →
       Z.land DEFER_REBALANCE (open tr) = 0%Z →
       damount sp ≠ 0%Qc → memo sp ≠ None → action sp ≠ None →
       (∀ a, acc sp = Some a →
             ∃ ac, accounts st !! a = Some ac
                   ∧ Z.land ACC_DEFER_REBALANCE (acc_open ac) = 0%Z
                   ∧ currency ac ≠ None) →
       ∃ s' st_mid,
         split_heap st !! s' = None
         ∧ xaccSplitRebalance_body (xaccTransAppendSplit_body rebalance) (Some s) st
           = (st2 ← rebalance (Some s') st_mid;
              sp2 ← deref_split st2 (Some s);
              xaccAccountInsertSplit (acc sp2) (Some s') st2)
         ∧ engine_wf st_mid
         ∧ xaccSplitGetParent st_mid (Some s') = Ok (Some t)
         ∧ splits <$> trans_heap st_mid !! t = Some [s; s']).
Proof.
  intros W. split; [|split; [|split; [|split]]].
  - intros H.
    destruct (xaccTransAppendSplit_body_keeps _ (xaccSplitRebalance_fuel_keeps 2)
                _ _ _ _ H) as (W' & _ & sp & Hs & Hp).
    split; [auto|]. split.
    + unfold xaccSplitGetParent. rewrite (deref_split_live _ _ _ Hs). simpl. congruence.
    + apply (wf_parent _ (W' W) s sp t Hs Hp).
  - intros Hpar H. unfold xaccSplitGetParent in Hpar.
    apply bind_Ok in Hpar. destruct Hpar as (sp & Hsp & [= Hp]).
    apply deref_split_Ok in Hsp. destruct Hsp as (? & [= <-] & Hs).
    destruct (xaccTransRemoveSplit_parent _ _ _ _ _ Hs Hp H) as (W' & _ & Hs' & _).
    split; [auto|]. split.
    + unfold xaccSplitGetParent. rewrite (deref_split_live _ _ _ Hs'). reflexivity.
    + intros t' tr' Ht' Hin.
      destruct (wf_member _ (W' W) t' tr' s Ht' Hin) as (sp' & Hsp' & Hp').
      rewrite Hs' in Hsp'. injection Hsp' as <-. discriminate.
  - intros H. eapply xaccSplitDestroy_wf; eassumption.
  - intros split H. apply (proj1 (xaccSplitRebalance_fuel_keeps 2 _ _ _ H)). exact W.
  - intros rebalance sp tr. apply rebalance_appends_created_split. exact W.
Qed.

(** A split fresh from [xaccMallocSplit] is appended to a transaction
    fresh from [xaccMallocTransaction]; the split of a fresh transaction
    is removed from it, destroyed, or rebalanced; and with
    [force_double_entry] on, the only split of a fresh transaction has the
    amount 50 when it is rebalanced. *)
Lemma parent_back_reference_maintained_witness :
  let st0 := snd (xaccMallocTransaction initial_engine) in
  let st := snd (xaccMallocSplit st0) in
  let stc := set_force_double_entry 1
               (store_split 1 (set_damount (Q2Qc 50)
                                 (set_parent (Some 1%positive) xaccInitSplit)) st0) in
  (∃ st', xaccTransAppendSplit (Some 1%positive) (Some 2%positive) st = Ok st'
          ∧ engine_wf st'
          ∧ xaccSplitGetParent st' (Some 2%positive) = Ok (Some 1%positive))
  ∧ (∃ st', xaccTransRemoveSplit (Some 1%positive) (Some 1%positive) st0 = Ok st'
            ∧ engine_wf st'
            ∧ xaccSplitGetParent st' (Some 1%positive) = Ok None
            ∧ xaccTransCountSplits st' (Some 1%positive) = Ok 0%Z)
  ∧ (∃ st', xaccSplitDestroy (Some 1%positive) st0 = Ok st' ∧ engine_wf st')
  ∧ (∃ st', xaccSplitRebalance (Some 1%positive) st0 = Ok st' ∧ engine_wf st')
  ∧ ∃ s' st_mid,
      xaccSplitRebalance (Some 1%positive) stc
      = (st2 ← xaccSplitRebalance_fuel 1 (Some s') st_mid;
         sp2 ← deref_split st2 (Some 1%positive);
         xaccAccountInsertSplit (acc sp2) (Some s') st2)
      ∧ engine_wf st_mid
      ∧ xaccSplitGetParent st_mid (Some s') = Ok (Some 1%positive)
      ∧ xaccTransCountSplits st_mid (Some 1%positive) = Ok 2%Z.
Proof.
  intros st0 st stc.
  assert (W0 : engine_wf st0) by apply xaccMallocTransaction_wf, initial_engine_wf.
  split; [|split; [|split; [|split]]].
  - destruct (xaccTransAppendSplit (Some 1%positive) (Some 2%positive) st)
      as [st'| | |] eqn:E; try (vm_compute in E; discriminate E).
    exists st'. split; [reflexivity|].
    destruct (parent_back_reference_maintained st st' 1 2) as (Happ & _).
    + apply xaccMallocSplit_wf. exact W0.
    + destruct (Happ E) as (W & Hp & _). split; assumption.
  - destruct (xaccTransRemoveSplit (Some 1%positive) (Some 1%positive) st0)
      as [st'| | |] eqn:E; try (vm_compute in E; discriminate E).
    exists st'. split; [reflexivity|].
    destruct (parent_back_reference_maintained st0 st' 1 1 W0) as (_ & Hrem & _).
    destruct (Hrem eq_refl E) as (W & Hp & _).
    split; [exact W|]. split; [exact Hp|].
    vm_compute in E. injection E as <-. reflexivity.
  - destruct (xaccSplitDestroy (Some 1%positive) st0)
      as [st'| | |] eqn:E; try (vm_compute in E; discriminate E).
    exists st'. split; [reflexivity|].
    destruct (parent_back_reference_maintained st0 st' 1 1 W0) as (_ & _ & Hdes & _).
    exact (Hdes E).
  - destruct (xaccSplitRebalance (Some 1%positive) st0)
      as [st'| | |] eqn:E; try (vm_compute in E; discriminate E).
    exists st'. split; [reflexivity|].
    destruct (parent_back_reference_maintained st0 st' 1 1 W0) as (_ & _ & _ & Hreb & _).
    exact (Hreb (Some 1%positive) E).
  - assert (Wc : engine_wf stc).
    { apply (engine_wf_heaps
               (store_split 1 (set_damount (Q2Qc 50)
                                 (set_parent (Some 1%positive) xaccInitSplit)) st0));
        [reflexivity | reflexivity |].
      apply (keeps_store_split st0 1 (set_parent (Some 1%positive) xaccInitSplit));
        [reflexivity | reflexivity | exact W0]. }
    destruct (parent_back_reference_maintained stc stc 1 1 Wc) as (_ & _ & _ & _ & Hnew).
    destruct (Hnew (xaccSplitRebalance_fuel 1)
                (set_damount (Q2Qc 50) (set_parent (Some 1%positive) xaccInitSplit))
                (mkTransaction (Some ""%string) (Some ""%string) (Some ""%string)
                   [1%positive] (mkTimespec 0 0) (mkTimespec 0 0) 0))
      as (s' & st_mid & _ & Hrun & Wmid & Hp & Hl);
      try reflexivity; try discriminate.
    exists s', st_mid. split; [exact Hrun|]. split; [exact Wmid|]. split; [exact Hp|].
    unfold xaccTransCountSplits, deref_trans.
    destruct (trans_heap st_mid !! 1%positive) as [trm|]; [|discriminate Hl].
    injection Hl as Hl. cbn [mbind outcome_bind]. rewrite Hl. reflexivity.
Defined.

(** ** The common currency *)

Lemma empty_is_null_Some x c : empty_is_null x = Some c → x = Some c.
Proof. destruct x as [[|]|]; simpl; congruence. Qed.

Lemma safe_strcmp_eqb da db : (safe_strcmp da db =? 0)%Z = bool_decide (da = db).
Proof.
  destruct (Z.eqb_spec (safe_strcmp da db) 0) as [E|E].
  - symmetry. apply bool_decide_eq_true_2, safe_strcmp_eq, E.
  - symmetry. apply bool_decide_eq_false_2. rewrite <- safe_strcmp_eq. exact E.
Qed.

(** One turn of the loop only drops candidates, and keeps the first slot
    empty when it was. *)
Lemma narrow_candidates ra rb sa sb ra' rb' :
  narrow ra rb sa sb = (ra', rb') →
  (∀ c, ra' = Some c ∨ rb' = Some c → ra = Some c ∨ rb = Some c)
  ∧ (ra = None → ra' = None).
Proof.
  unfold narrow. destruct ra as [x|], rb as [y|]; rewrite ?safe_strcmp_eqb.
  - repeat case_bool_decide; simpl; intros [= <- <-];
      (split; [intros c [E|E]; try discriminate; auto | discriminate]).
  - repeat case_bool_decide; simpl; intros [= <- <-];
      (split; [intros c [E|E]; try discriminate; auto | discriminate]).
  - intros [= <- <-]. split; [auto | reflexivity].
  - intros [= <- <-]. split; [auto | reflexivity].
Qed.

(** After a turn that started with a first candidate, every candidate left
    is a unit of the split. *)
Lemma narrow_matches x rb sa sb ra' rb' c :
  narrow (Some x) rb sa sb = (ra', rb') →
  ra' = Some c ∨ rb' = Some c → sa = Some c ∨ sb = Some c.
Proof.
  unfold narrow. destruct rb as [y|]; rewrite ?safe_strcmp_eqb.
  - repeat case_bool_decide; simpl; intros [= <- <-] [E|E];
      try discriminate; try (injection E as <-); subst; auto; try congruence.
  - repeat case_bool_decide; simpl; intros [= <- <-] [E|E];
      try discriminate; try (injection E as <-); subst; auto; try congruence.
Qed.

Lemma resolve_loop_first st l ra rb b rb' :
  resolve_loop st l ra rb = Ok (Some b, rb') →
  (ra = Some b ∨ rb = Some b) ∧ ra ≠ None.
Proof.
  revert ra rb. induction l as [|s l IH]; intros ra rb H; cbn [resolve_loop] in H.
  - injection H as -> ->. split; [auto | discriminate].
  - destruct (force_double_entry st =? 0)%Z; [apply IH; exact H|].
    apply bind_Ok in H. destruct H as (sp & _ & H).
    destruct (acc sp) as [a|]; [|discriminate].
    apply bind_Ok in H. destruct H as (ac & _ & H).
    destruct (narrow _ _ _ _) as [ra1 rb1] eqn:En.
    destruct (_ && _); [discriminate|].
    destruct (IH _ _ H) as (Hc & Hne).
    destruct (narrow_candidates _ _ _ _ _ _ En) as (Hsub & Hnone).
    split; [apply Hsub; exact Hc | intros E; apply Hne, Hnone, E].
Qed.

(** When the loop ends with a currency, every split of the array has an
    account with that currency as its currency or as its security. *)
Lemma resolve_loop_units st l ra rb b rb' :
  force_double_entry st ≠ 0%Z →
  resolve_loop st l ra rb = Ok (Some b, rb') →
  ∀ s, s ∈ l → has_unit st b s.
Proof.
  intros Hf. revert ra rb. induction l as [|s l IH]; intros ra rb H s' Hin.
  - apply elem_of_nil in Hin. contradiction.
  - cbn [resolve_loop] in H. rewrite (eqb_false_of_ne _ Hf) in H.
    apply bind_Ok in H. destruct H as (sp & Hsp & H).
    apply deref_split_Ok in Hsp. destruct Hsp as (? & [= <-] & Hs).
    destruct (acc sp) as [a|] eqn:Ea; [|discriminate].
    apply bind_Ok in H. destruct H as (ac & Hac & H).
    apply deref_account_Ok in Hac. destruct Hac as (? & [= <-] & Hac).
    destruct (narrow _ _ _ _) as [ra1 rb1] eqn:En.
    destruct (_ && _); [discriminate|].
    apply elem_of_cons in Hin. destruct Hin as [->|Hin]; [|eapply IH; eassumption].
    destruct (resolve_loop_first _ _ _ _ _ _ H) as (Hc & Hne).
    destruct (narrow_candidates _ _ _ _ _ _ En) as (_ & Hnone).
    destruct ra as [x|]; [|exfalso; apply Hne, Hnone; reflexivity].
    exists sp, a, ac. repeat (split; [assumption|]).
    destruct (narrow_matches _ _ _ _ _ _ _ En Hc) as [E|E]; [left; exact E|].
    right. apply empty_is_null_Some, E.
Qed.

(** ** The sum of the values of a transaction *)

Lemma value_in_ext st st' b s :
  split_heap st' !! s = split_heap st !! s →
  (∀ a, set_changed 0 <$> accounts st' !! a = set_changed 0 <$> accounts st !! a) →
  value_in st' b s = value_in st b s.
Proof.
  intros Es Ea. unfold value_in. rewrite Es.
  destruct (split_heap st !! s) as [sp|]; [|reflexivity].
  destruct (acc sp) as [a|]; [|reflexivity].
  specialize (Ea a).
  destruct (accounts st' !! a) as [ac'|], (accounts st !! a) as [ac|];
    simpl in Ea; try discriminate; [|reflexivity].
  injection Ea as _ Ec Esec _. rewrite Ec, Esec. reflexivity.
Qed.

Lemma sum_of_values_ext st st' b l :
  (∀ s, s ∈ l → split_heap st' !! s = split_heap st !! s) →
  (∀ a, set_changed 0 <$> accounts st' !! a = set_changed 0 <$> accounts st !! a) →
  sum_of_values st' b l = sum_of_values st b l.
Proof.
  intros Es Ea. induction l as [|s l IH]; [reflexivity|].
  cbn [sum_of_values]. rewrite (value_in_ext st st' b s), IH; auto.
  - intros s' Hs'. apply Es. right. exact Hs'.
  - apply Es. left.
Qed.

(** What [ComputeValue] returns under [force_double_entry] is the sum of
    the values of the splits it does not skip. *)
Lemma ComputeValue_loop_sum st l skip b v r :
  force_double_entry st ≠ 0%Z →
  ComputeValue_loop st l skip b v = Ok r →
  ∃ total, sum_of_values st b (filter (λ s, Some s ≠ skip) l) = Some total
           ∧ r = (v + total)%Qc.
Proof.
  intros Hf. revert v. induction l as [|s l IH]; intros v H; cbn [ComputeValue_loop] in H.
  - injection H as <-. exists 0%Qc. split; [reflexivity | ring].
  - destruct (bool_decide_reflect (Some s = skip)) as [E|E].
    + rewrite filter_cons_False by (intros C; apply C, E). apply IH, H.
    + rewrite filter_cons_True by exact E.
      apply bind_Ok in H. destruct H as (sp & Hsp & H).
      apply deref_split_Ok in Hsp. destruct Hsp as (? & [= <-] & Hs).
      rewrite (eqb_false_of_ne _ Hf), andb_false_r in H.
      destruct (acc sp) as [a|] eqn:Ea; [|discriminate].
      apply bind_Ok in H. destruct H as (ac & Hac & H).
      apply deref_account_Ok in Hac. destruct Hac as (? & [= <-] & Hac).
      rewrite !safe_strcmp_eqb in H.
      cbn [sum_of_values]. unfold value_in. rewrite Hs, Ea, Hac.
      destruct (bool_decide_reflect (currency ac = b)) as [Ec|Ec].
      * rewrite decide_True by exact Ec.
        destruct (IH _ H) as (total & Hsum & ->). rewrite Hsum.
        eexists. split; [reflexivity | ring].
      * rewrite decide_False by exact Ec.
        destruct (bool_decide_reflect (security ac = b)) as [Esec|Esec]; [|discriminate].
        rewrite decide_True by exact Esec.
        destruct (IH _ H) as (total & Hsum & ->). rewrite Hsum.
        eexists. split; [reflexivity | ring].
Qed.

(** The sum over an array without duplicates, from the sum over the array
    without one of its splits and the value of that split. *)
Lemma sum_of_values_restore st st' b l s1 c r :
  NoDup l → s1 ∈ l →
  (∀ s, s ≠ s1 → value_in st' b s = value_in st b s) →
  value_in st' b s1 = Some c →
  sum_of_values st b (filter (λ s, Some s ≠ Some s1) l) = Some r →
  sum_of_values st' b l = Some (c + r)%Qc.
Proof.
  intros Hnd Hin Hother Hc. revert r.
  induction Hnd as [|s l Hs Hnd IH]; intros r Hsum.
  - apply elem_of_nil in Hin. contradiction.
  - cbn [sum_of_values].
    destruct (decide (s = s1)) as [->|Hne].
    + rewrite filter_cons_False in Hsum by (intros C; apply C; reflexivity).
      rewrite Hc.
      assert (E : sum_of_values st' b l = sum_of_values st b l).
      { clear -Hs Hother. induction l as [|x l IHl]; [reflexivity|].
        cbn [sum_of_values]. rewrite Hother, IHl; [reflexivity| |].
        - intros C. apply Hs. right. exact C.
        - intros ->. apply Hs. left. }
      rewrite E.
      assert (F : filter (λ s, Some s ≠ Some s1) l = l).
      { clear -Hs. induction l as [|x l IHl]; [reflexivity|].
        rewrite filter_cons_True.
        - rewrite IHl; [reflexivity|]. intros C. apply Hs. right. exact C.
        - intros [= ->]. apply Hs. left. }
      rewrite F in Hsum. rewrite Hsum. reflexivity.
    + rewrite filter_cons_True in Hsum by congruence.
      cbn [sum_of_values] in Hsum. rewrite (Hother s Hne).
      destruct (value_in st b s) as [v|]; [|discriminate].
      destruct (sum_of_values st b (filter _ l)) as [r'|] eqn:Er; [|discriminate].
      injection Hsum as <-.
      apply elem_of_cons in Hin. destruct Hin as [->|Hin]; [contradiction|].
      rewrite (IH Hin r' eq_refl). f_equal. ring.
Qed.

(** ** The balance after a commit *)

Lemma same_books_refl st : same_books st st.
Proof. repeat split. Qed.

Lemma same_books_trans st1 st2 st3 :
  same_books st1 st2 → same_books st2 st3 → same_books st1 st3.
Proof.
  intros (F1 & A1 & S1 & T1) (F2 & A2 & S2 & T2).
  repeat split; congruence.
Qed.

Lemma for_each_same_books {A : Type} (body : A → Engine → outcome Engine) l st st' :
  (∀ x st st', body x st = Ok st' → same_books st st') →
  for_each body l st = Ok st' → same_books st st'.
Proof.
  intros Hb. revert st. induction l as [|x l IH]; intros st H; cbn [for_each] in H.
  - injection H as <-. apply same_books_refl.
  - apply bind_Ok in H. destruct H as (st1 & H1 & H).
    eapply same_books_trans; [eapply Hb; exact H1 | apply IH; exact H].
Qed.

Lemma check_date_order_same_books s st st' :
  check_date_order s st = Ok st' → same_books st st'.
Proof.
  unfold check_date_order. intros H. apply bind_Ok in H.
  destruct H as (sp & _ & [= <-]). repeat split.
Qed.

Lemma recompute_balance_same_books s st st' :
  recompute_balance s st = Ok st' → same_books st st'.
Proof.
  unfold recompute_balance. intros H. apply bind_Ok in H.
  destruct H as (sp & _ & [= <-]). repeat split.
Qed.

Lemma resolve_loop_ext st st' l ra rb :
  force_double_entry st' = force_double_entry st →
  accounts st' = accounts st → split_heap st' = split_heap st →
  resolve_loop st' l ra rb = resolve_loop st l ra rb.
Proof.
  intros Ef Ea Es. revert ra rb.
  induction l as [|s l IH]; intros ra rb; cbn [resolve_loop]; [reflexivity|].
  unfold deref_split, deref_account. rewrite Ef, Es, Ea.
  destruct (_ =? _)%Z; [apply IH|].
  destruct (split_heap st !! s) as [sp|]; [|reflexivity]. cbn [mbind outcome_bind].
  destruct (acc sp) as [a|]; [|reflexivity].
  destruct (accounts st !! a) as [ac|]; [|reflexivity]. cbn [mbind outcome_bind].
  destruct (narrow _ _ _ _). destruct (_ && _); [reflexivity | apply IH].
Qed.

Lemma head_elem_of {A : Type} (l : list A) x : head l = Some x → x ∈ l.
Proof. destruct l; [discriminate|]. intros [= ->]. left. Qed.

(** The value of a split in a unit of its account, after its amount was
    forced by [xaccSplitSetBaseValue]. *)
Lemma forced_value st s1 sp1 a1 ac1 b value st1 :
  split_heap st !! s1 = Some sp1 → acc sp1 = Some a1 →
  accounts st !! a1 = Some ac1 →
  currency ac1 = Some b ∨ security ac1 = Some b →
  share_price sp1 ≠ 0%Qc →
  xaccSplitSetBaseValue (Some s1) value (Some b) st = Ok st1 →
  value_in st1 (Some b) s1 = Some value
  ∧ force_double_entry st1 = force_double_entry st
  ∧ accounts st1 = accounts st
  ∧ trans_heap st1 = trans_heap st
  ∧ (∀ s, s ≠ s1 → split_heap st1 !! s = split_heap st !! s)
  ∧ ∃ sp1', split_heap st1 !! s1 = Some sp1' ∧ acc sp1' = Some a1.
Proof.
  intros Hs Ha Hac Hunit Hprice H.
  unfold xaccSplitSetBaseValue, deref_split, deref_account in H.
  rewrite Hs in H. cbn [mbind outcome_bind] in H. rewrite Ha, Hac in H.
  cbn [mbind outcome_bind] in H. rewrite !safe_strcmp_eqb in H.
  destruct (bool_decide_reflect (currency ac1 = Some b)) as [Ec|Ec].
  - injection H as <-. unfold value_in. simpl. rewrite lookup_insert_eq. simpl.
    rewrite Ha, Hac, decide_True by exact Ec.
    split; [apply (f_equal Some); field; exact Hprice|]. repeat split.
    + intros s Hne. apply lookup_insert_ne. congruence.
    + eexists. split; [reflexivity | exact Ha].
  - destruct (bool_decide_reflect (security ac1 = Some b)) as [Esec|Esec];
      [|destruct Hunit; contradiction].
    injection H as <-. unfold value_in. simpl. rewrite lookup_insert_eq. simpl.
    rewrite Ha, Hac, decide_False, decide_True by assumption.
    repeat split.
    + intros s Hne. apply lookup_insert_ne. congruence.
    + eexists. split; [reflexivity | exact Ha].
Qed.

(** Under [force_double_entry], a rebalance from the source split that
    returns leaves the values of the splits, in the currency it resolved,
    with the sum zero. *)
Lemma rebalance_source_balances st st' t tr s0 sp0 a0 ac0 base rb :
  force_double_entry st ≠ 0%Z →
  engine_wf st →
  trans_heap st !! t = Some tr →
  head (splits tr) = Some s0 →
  split_heap st !! s0 = Some sp0 →
  acc sp0 = Some a0 →
  accounts st !! a0 = Some ac0 →
  Z.land ACC_DEFER_REBALANCE (acc_open ac0) = 0%Z →
  Z.land DEFER_REBALANCE (open tr) = 0%Z →
  resolve_loop st (splits tr) (currency ac0) (empty_is_null (security ac0))
    = Ok (Some base, rb) →
  (∀ s1 sp1, splits tr !! 1%nat = Some s1 → split_heap st !! s1 = Some sp1 →
             share_price sp1 ≠ 0%Qc) →
  xaccSplitRebalance (Some s0) st = Ok st' →
  sum_of_values st' (Some base) (splits tr) = Some 0%Qc
  ∧ trans_heap st' = trans_heap st
  ∧ force_double_entry st' = force_double_entry st.
Proof.
  intros Hf W Ht Hhead Hs0 Ha0 Hac0 Hadef Htdef Hres Hprice H.
  pose proof (head_elem_of _ _ Hhead) as Hin0.
  destruct (wf_member _ W t tr s0 Ht Hin0) as (sp0' & Hs0' & Hp0).
  rewrite Hs0 in Hs0'. injection Hs0' as <-.
  pose proof (resolve_loop_units _ _ _ _ _ _ Hf Hres) as Hunits.
  unfold xaccSplitRebalance in H. cbn [xaccSplitRebalance_fuel] in H.
  unfold xaccSplitRebalance_body in H.
  rewrite (deref_split_live _ _ _ Hs0) in H. cbn [mbind outcome_bind] in H.
  rewrite Hp0, (deref_trans_live _ _ _ Ht) in H. cbn [mbind outcome_bind] in H.
  rewrite Htdef, Ha0, (deref_account_live _ _ _ Hac0) in H.
  cbn [Z.eqb negb mbind outcome_bind] in H. rewrite Hadef in H.
  cbn [Z.eqb negb] in H.
  destruct (splits tr) as [|x [|s1 l]] eqn:El; [discriminate| |];
    rewrite <- El in H, Hres; rewrite Hres in H; cbn [mbind outcome_bind fst] in H;
    injection Hhead as ->.
  - (* the source split is alone *)
    destruct (decide (damount sp0 = 0%Qc)) as [Hz|Hnz].
    + unfold force_balance in H. rewrite El in H. cbn [head lookup list_lookup] in H.
      rewrite bool_decide_eq_true_2 in H by reflexivity.
      unfold DEQ in H. rewrite bool_decide_eq_true_2, andb_false_r in H by congruence.
      injection H as <-. split; [|split; reflexivity].
      destruct (Hunits s0) as (sp & a & ac & Hs & Ha & Hac & Hu); [left|].
      rewrite Hs0 in Hs. injection Hs as <-.
      cbn [sum_of_values]. unfold value_in. rewrite Hs0, Ha, Hac, Hz.
      destruct (decide (currency ac = Some base)).
      * apply (f_equal Some). ring.
      * rewrite decide_True by (destruct Hu; [contradiction | assumption]).
        apply (f_equal Some). ring.
    + rewrite (force_balance_creates_and_aborts st s0 sp0 t tr _ Hf Hs0 Ht El Hnz Htdef) in H.
      destruct (strdup (memo sp0)); try discriminate.
      destruct (strdup (action sp0)); discriminate.
  - (* the first destination split takes the imbalance *)
    unfold force_balance in H. rewrite El in H. cbn [head lookup list_lookup] in H.
    rewrite bool_decide_eq_true_2 in H by reflexivity. rewrite <- El in H.
    apply bind_Ok in H. destruct H as (value & Hval & H).
    apply bind_Ok in H. destruct H as (st1 & Hset & H).
    apply bind_Ok in H. destruct H as (st2 & Hmark & H).
    apply bind_Ok in H. destruct H as (sp1'' & _ & [= <-]).
    assert (Hin1 : s1 ∈ splits tr) by (rewrite El; right; left).
    destruct (Hunits s1) as (sp1 & a1 & ac1 & Hs1 & Ha1 & Hac1 & Hu1);
      [rewrite El in Hin1; exact Hin1|].
    assert (Hp1 : share_price sp1 ≠ 0%Qc) by (apply (Hprice s1 sp1); [reflexivity | exact Hs1]).
    destruct (forced_value _ _ _ _ _ _ _ _ Hs1 Ha1 Hac1 Hu1 Hp1 Hset)
      as (Hv1 & Hf1 & Hacc1 & Htr1 & Hoth1 & sp1' & Hs1' & Ha1').
    apply MARK_SPLIT_Ok in Hmark. destruct Hmark as (? & spm & [= <-] & Hsm & -> & _).
    unfold ComputeValue in Hval.
    destruct (ComputeValue_loop_sum _ _ _ _ _ _ Hf Hval) as (total & Hsum & ->).
    split; [|split].
    + rewrite <- El.
      rewrite (sum_of_values_restore st _ (Some base) (splits tr) s1
                 (- (0 + total))%Qc total (wf_nodup _ W t tr Ht) Hin1).
      * apply (f_equal Some). ring.
      * intros s Hne. apply value_in_ext.
        -- simpl. rewrite marked_split_heap. apply Hoth1. exact Hne.
        -- intros a. simpl. rewrite marked_accounts, Hacc1. reflexivity.
      * rewrite <- Hv1. apply value_in_ext.
        -- simpl. rewrite marked_split_heap. reflexivity.
        -- intros a. simpl. apply marked_accounts.
      * exact Hsum.
    + simpl. rewrite marked_trans_heap. exact Htr1.
    + simpl. rewrite marked_force_double_entry. exact Hf1.
Qed.

Lemma land_defer_cleared (o : Z) :
  Z.land DEFER_REBALANCE (Z.land o (Z.lnot DEFER_REBALANCE)) = 0%Z.
Proof.
  rewrite (Z.land_comm o), Z.land_assoc, Z.land_lnot_diag. reflexivity.
Qed.

(** C1, as stated: with [force_double_entry] on and all splits in USD, a
    commit returns with the sum 100 when the account of the source split
    is in the deferred-rebalance state: [xaccSplitRebalance] returns at
    [if (ACC_DEFER_REBALANCE & (split->acc->open)) return;]. *)
Lemma commit_with_deferred_account_counterexample :
  let bank := mkAccount (Some "Bank"%string) (Some "USD"%string) (Some ""%string)
                ACC_DEFER_REBALANCE 0 in
  let food := mkAccount (Some "Food"%string) (Some "USD"%string) (Some ""%string) 0 0 in
  let s1 := set_damount (Q2Qc 100)
              (set_acc (Some 1%positive) (set_parent (Some 1%positive) xaccInitSplit)) in
  let s2 := set_acc (Some 2%positive) (set_parent (Some 1%positive) xaccInitSplit) in
  let tr := mkTransaction (Some ""%string) (Some ""%string) (Some ""%string)
              [1%positive; 2%positive] (mkTimespec 0 0) (mkTimespec 0 0) BEGIN_EDIT in
  let st := set_force_double_entry 1
              (store_trans 1 tr
                 (store_split 2 s2
                    (store_split 1 s1
                       (store_account 2 food
                          (store_account 1 bank initial_engine))))) in
  resolve_loop st [1%positive; 2%positive] (Some "USD"%string) None
    = Ok (Some "USD"%string, None)
  ∧ ∃ st', xaccTransCommitEdit (Some 1%positive) st = Ok st'
           ∧ sum_of_values st' (Some "USD"%string) [1%positive; 2%positive]
             = Some (Q2Qc 100)
           ∧ Q2Qc 100 ≠ 0%Qc.
Proof.
  intros bank food s1 s2 tr st. split; [reflexivity|].
  eexists. split; [vm_compute; reflexivity|]. split; [reflexivity | discriminate].
Qed.

(** C1, amended. With [force_double_entry] on, in a well-formed engine, for
    a transaction whose source split has an account that is not in the
    deferred-rebalance state, whose splits have a common currency that the
    rebalancer resolves, and whose second split, if there is one, has a
    share price that is not zero: when [xaccTransCommitEdit] returns, the
    transaction is closed, has the splits it had, and the sum of their
    values in the resolved currency is zero. *)
Theorem commit_balances_transaction
    (st st' : Engine) (t s0 a0 : positive) (tr : Transaction) (sp0 : Split)
    (ac0 : Account) (base : string) (rb : option string) :
  force_double_entry st ≠ 0%Z →
  engine_wf st →
  trans_heap st !! t = Some tr →
  head (splits tr) = Some s0 →
  split_heap st !! s0 = Some sp0 →
  acc sp0 = Some a0 →
  accounts st !! a0 = Some ac0 →
  Z.land ACC_DEFER_REBALANCE (acc_open ac0) = 0%Z →
  resolve_loop st (splits tr) (currency ac0) (empty_is_null (security ac0))
    = Ok (Some base, rb) →
  (∀ s1 sp1, splits tr !! 1%nat = Some s1 → split_heap st !! s1 = Some sp1 →
             share_price sp1 ≠ 0%Qc) →
  xaccTransCommitEdit (Some t) st = Ok st' →
  ∃ tr', trans_heap st' !! t = Some tr'
         ∧ splits tr' = splits tr
         ∧ open tr' = 0%Z
         ∧ sum_of_values st' (Some base) (splits tr') = Some 0%Qc.
Proof.
  intros Hf W Ht Hhead Hs0 Ha0 Hac0 Hadef Hres Hprice H.
  unfold xaccTransCommitEdit in H.
  rewrite (CHECK_OPEN_live _ _ _ Ht) in H. cbn [mbind outcome_bind] in H.
  set (st1 := checked t tr st) in *.
  assert (Ht1 : trans_heap st1 !! t = Some tr)
    by (unfold st1; rewrite checked_trans_heap; exact Ht).
  rewrite (deref_trans_live _ _ _ Ht1) in H. cbn [mbind outcome_bind] in H.
  set (tr2 := set_open (Z.land (open tr) (Z.lnot DEFER_REBALANCE)) tr) in *.
  set (st2 := store_trans t tr2 st1) in *.
  assert (Ht2 : trans_heap st2 !! t = Some tr2) by apply lookup_insert_eq.
  assert (Es2 : split_heap st2 = split_heap st)
    by (unfold st2, st1; simpl; apply checked_split_heap).
  assert (Ea2 : accounts st2 = accounts st)
    by (unfold st2, st1; simpl; apply checked_accounts).
  assert (Ef2 : force_double_entry st2 = force_double_entry st)
    by (unfold st2, st1; simpl; apply checked_force_double_entry).
  assert (W2 : engine_wf st2).
  { apply (keeps_store_trans st1 t tr tr2 Ht1 eq_refl).
    apply (engine_wf_heaps st); [apply checked_split_heap | apply checked_trans_heap | exact W]. }
  apply bind_Ok in H. destruct H as (st3 & Hreb & H).
  unfold xaccTransRebalance, xaccTransRebalance_with in Hreb.
  rewrite (deref_trans_live _ _ _ Ht2) in Hreb. cbn [mbind outcome_bind] in Hreb.
  change (splits tr2) with (splits tr) in Hreb. rewrite Hhead in Hreb.
  destruct (rebalance_source_balances st2 st3 t tr2 s0 sp0 a0 ac0 base rb)
    as (Hsum & Et3 & Ef3); try assumption.
  - rewrite Ef2. exact Hf.
  - rewrite Es2. exact Hs0.
  - rewrite Ea2. exact Hac0.
  - apply land_defer_cleared.
  - change (splits tr2) with (splits tr).
    rewrite (resolve_loop_ext st st2) by assumption. exact Hres.
  - intros s1 sp1 E1 E2. rewrite Es2 in E2. exact (Hprice s1 sp1 E1 E2).
  - assert (Ht3 : trans_heap st3 !! t = Some tr2) by (rewrite Et3; exact Ht2).
    rewrite (deref_trans_live _ _ _ Ht3) in H. cbn [mbind outcome_bind] in H.
    apply bind_Ok in H. destruct H as (st4 & Hloop1 & H).
    apply bind_Ok in H. destruct H as (st5 & Hloop2 & H).
    pose proof (same_books_trans _ _ _
                  (for_each_same_books _ _ _ _ check_date_order_same_books Hloop1)
                  (for_each_same_books _ _ _ _ recompute_balance_same_books Hloop2))
      as (Ef5 & Ea5 & Es5 & Et5).
    assert (Ht5 : trans_heap st5 !! t = Some tr2) by (rewrite Et5; exact Ht3).
    rewrite (deref_trans_live _ _ _ Ht5) in H. cbn [mbind outcome_bind] in H.
    injection H as <-.
    exists (set_open 0 tr2). split; [apply lookup_insert_eq|].
    split; [reflexivity|]. split; [reflexivity|].
    change (splits (set_open 0 tr2)) with (splits tr).
    rewrite <- Hsum. apply sum_of_values_ext.
    + intros s _. simpl. rewrite Es5. reflexivity.
    + intros a. simpl. rewrite Ea5. reflexivity.
Qed.

(** Two splits in USD accounts, 100 on the source and nothing yet on the
    other: the commit puts -100 there. *)
Lemma commit_balances_transaction_witness :
  let bank := mkAccount (Some "Bank"%string) (Some "USD"%string) (Some ""%string) 0 0 in
  let food := mkAccount (Some "Food"%string) (Some "USD"%string) (Some ""%string) 0 0 in
  let s1 := set_damount (Q2Qc 100)
              (set_acc (Some 1%positive) (set_parent (Some 1%positive) xaccInitSplit)) in
  let s2 := set_acc (Some 2%positive) (set_parent (Some 1%positive) xaccInitSplit) in
  let tr := mkTransaction (Some ""%string) (Some ""%string) (Some ""%string)
              [1%positive; 2%positive] (mkTimespec 0 0) (mkTimespec 0 0) BEGIN_EDIT in
  let st := set_force_double_entry 1
              (store_trans 1 tr
                 (store_split 2 s2
                    (store_split 1 s1
                       (store_account 2 food
                          (store_account 1 bank initial_engine))))) in
  ∃ st' tr', xaccTransCommitEdit (Some 1%positive) st = Ok st'
             ∧ trans_heap st' !! 1%positive = Some tr'
             ∧ sum_of_values st' (Some "USD"%string) (splits tr') = Some 0%Qc.
Proof.
  intros bank food s1 s2 tr st.
  destruct (xaccTransCommitEdit (Some 1%positive) st) as [st'| | |] eqn:E;
    try (vm_compute in E; discriminate E).
  destruct (commit_balances_transaction st st' 1 1 1 tr s1 bank "USD"%string None)
    as (tr' & Ht' & _ & _ & Hsum).
  - discriminate.
  - split.
    + intros t0 tr0 s Ht0 Hs. simpl in Ht0.
      apply lookup_insert_Some in Ht0.
      destruct Ht0 as [[<- <-]|[_ Ht0]]; [|rewrite lookup_empty in Ht0; discriminate].
      simpl in Hs. apply elem_of_cons in Hs. destruct Hs as [->|Hs].
      * exists s1. split; reflexivity.
      * apply list_elem_of_singleton in Hs. subst s. exists s2. split; reflexivity.
    + intros s sp t0 Hs Hp. simpl in Hs.
      apply lookup_insert_Some in Hs. destruct Hs as [[<- <-]|[_ Hs]].
      * injection Hp as <-. exists tr. split; [reflexivity|]. simpl. right. left.
      * apply lookup_insert_Some in Hs. destruct Hs as [[<- <-]|[_ Hs]].
        -- injection Hp as <-. exists tr. split; [reflexivity|]. simpl. left.
        -- rewrite lookup_empty in Hs. discriminate.
    + intros t0 tr0 Ht0. simpl in Ht0.
      apply lookup_insert_Some in Ht0.
      destruct Ht0 as [[<- <-]|[_ Ht0]]; [|rewrite lookup_empty in Ht0; discriminate].
      simpl. apply list.NoDup_cons. split; [|apply NoDup_singleton].
      intros C. apply list_elem_of_singleton in C. discriminate.
  - reflexivity.
  - reflexivity.
  - reflexivity.
  - reflexivity.
  - reflexivity.
  - reflexivity.
  - reflexivity.
  - intros x sp1 [= <-] [= <-]. discriminate.
  - exact E.
  - exists st', tr'. split; [reflexivity|]. split; assumption.
Defined.

(** * Further properties of the code *)

(** ** What a rebalance changes *)

Lemma set_damount_same sp : set_damount (damount sp) sp = sp.
Proof. destruct sp. reflexivity. Qed.

Lemma amount_forced_at_refl target st : amount_forced_at target st st.
Proof.
  repeat split. intros j _. exists (match split_heap st !! j with
                                     | Some sp => damount sp | None => 0%Qc end).
  destruct (split_heap st !! j) as [sp|]; simpl; [|reflexivity].
  rewrite set_damount_same. reflexivity.
Qed.

(** A step that writes [changed] flags and the trace only. *)
Lemma amount_forced_at_marked target st st1 st2 :
  amount_forced_at target st st1 →
  force_double_entry st2 = force_double_entry st1 →
  trans_heap st2 = trans_heap st1 →
  split_heap st2 = split_heap st1 →
  (∀ a, set_changed 0 <$> accounts st2 !! a = set_changed 0 <$> accounts st1 !! a) →
  amount_forced_at target st st2.
Proof.
  intros (F & T & A & O & D) F2 T2 S2 A2.
  split; [congruence|]. split; [congruence|]. split; [|split].
  - intros a. rewrite A2. apply A.
  - intros j Hj. rewrite S2. apply O, Hj.
  - intros j Hj. rewrite S2. apply D, Hj.
Qed.

Lemma xaccSplitSetBaseValue_forces s v b st st' :
  xaccSplitSetBaseValue s v b st = Ok st' → amount_forced_at s st st'.
Proof.
  unfold xaccSplitSetBaseValue. intros H.
  destruct s as [i|]; [|injection H as <-; apply amount_forced_at_refl].
  apply bind_Ok in H. destruct H as (sp & Hsp & H).
  apply deref_split_Ok in Hsp. destruct Hsp as (? & [= <-] & Hs).
  assert (Hstore : ∀ d, amount_forced_at (Some i) st (store_split i (set_damount d sp) st)).
  { intros d. repeat split; simpl.
    - intros j Hj. apply lookup_insert_ne. congruence.
    - intros j [= ->]. exists d. rewrite lookup_insert_eq, Hs. reflexivity. }
  destruct (acc sp) as [a|].
  - apply bind_Ok in H. destruct H as (ac & _ & H).
    repeat match type of H with
           | (if ?c then _ else _) = _ => destruct c
           end; injection H as <-; try apply Hstore.
    eapply amount_forced_at_marked; [apply amount_forced_at_refl|..]; reflexivity.
  - destruct (_ =? _)%Z; [|discriminate]. injection H as <-. apply Hstore.
Qed.

Lemma balance_step_forces s v b st st' :
  (value ← Ok v;
   st1 ← xaccSplitSetBaseValue s (- value)%Qc b st;
   st2 ← MARK_SPLIT s st1;
   sp ← deref_split st2 s;
   Ok (xaccAccountRecomputeBalance (acc sp) st2)) = Ok st' →
  amount_forced_at s st st'.
Proof.
  cbn [mbind outcome_bind]. intros H.
  apply bind_Ok in H. destruct H as (st1 & Hset & H).
  apply bind_Ok in H. destruct H as (st2 & Hmark & H).
  apply bind_Ok in H. destruct H as (sp & _ & [= <-]).
  apply MARK_SPLIT_Ok in Hmark. destruct Hmark as (? & spm & _ & _ & -> & _).
  eapply amount_forced_at_marked; [eapply xaccSplitSetBaseValue_forces; exact Hset|..];
    simpl.
  - apply marked_force_double_entry.
  - apply marked_trans_heap.
  - apply marked_split_heap.
  - apply marked_accounts.
Qed.

(** A rebalance that returns has not created a split: it has changed at
    most the amount of one split, the balancing split of the transaction. *)
Lemma force_balance_forces s sp t tr b st st' :
  split_heap st !! s = Some sp →
  trans_heap st !! t = Some tr →
  splits tr ≠ [] →
  Z.land DEFER_REBALANCE (open tr) = 0%Z →
  force_balance (xaccTransAppendSplit_body (xaccSplitRebalance_fuel 1))
    (Some s) sp t tr b st = Ok st' →
  amount_forced_at (balancing_split tr (Some s)) st st'.
Proof.
  intros Hs Ht Hne Hdef H. unfold balancing_split.
  unfold force_balance in H.
  destruct (bool_decide_reflect (Some s = head (splits tr))) as [Eh|Eh].
  - destruct (splits tr !! 1%nat) as [s1|] eqn:E1.
    + apply bind_Ok in H. destruct H as (value & _ & H).
      apply (balance_step_forces (Some s1) value b). exact H.
    + destruct (negb (force_double_entry st =? 0)%Z && negb (DEQ 0%Qc (damount sp)))
        eqn:Ec; [|injection H as <-; apply amount_forced_at_refl].
      exfalso. apply andb_true_iff in Ec. destruct Ec as [Ef Ed].
      assert (El : splits tr = [s]).
      { destruct (splits tr) as [|x [|y l]]; [contradiction| |discriminate].
        injection Eh as ->. reflexivity. }
      assert (Hf : force_double_entry st ≠ 0%Z).
      { intros E. rewrite E in Ef. discriminate. }
      assert (Hd : damount sp ≠ 0%Qc).
      { intros E. unfold DEQ in Ed. rewrite bool_decide_eq_true_2 in Ed by congruence.
        discriminate. }
      pose proof (force_balance_creates_and_aborts st s sp t tr b Hf Hs Ht El Hd Hdef) as Hab.
      unfold force_balance in Hab. rewrite bool_decide_eq_true_2, E1 in Hab by exact Eh.
      rewrite Ef, Ed in Hab. simpl negb in Hab. cbn [andb] in Hab.
      rewrite Hab in H.
      destruct (strdup (memo sp)); try discriminate.
      destruct (strdup (action sp)); discriminate.
  - apply bind_Ok in H. destruct H as (value & _ & H).
    apply (balance_step_forces (head (splits tr)) value b). exact H.
Qed.

(** What a rebalance that returns has changed: see the theorem below. *)
Lemma rebalance_touches_one_amount
    (st st' : Engine) (s : positive) (sp : Split) :
  split_heap st !! s = Some sp →
  xaccSplitRebalance (Some s) st = Ok st' →
  (parent sp = None → st' = st)
  ∧ (∀ t, parent sp = Some t →
          ∃ tr, trans_heap st !! t = Some tr
                ∧ amount_forced_at (balancing_split tr (Some s)) st st').
Proof.
  intros Hs H.
  unfold xaccSplitRebalance in H. cbn [xaccSplitRebalance_fuel] in H.
  unfold xaccSplitRebalance_body in H.
  rewrite (deref_split_live _ _ _ Hs) in H. cbn [mbind outcome_bind] in H.
  split.
  - intros Ep. rewrite Ep in H. injection H as <-. reflexivity.
  - intros t Ep. rewrite Ep in H.
    apply bind_Ok in H. destruct H as (tr & Htr & H).
    apply deref_trans_Ok in Htr. destruct Htr as (? & [= <-] & Ht).
    exists tr. split; [exact Ht|].
    destruct (Z.eqb_spec (Z.land DEFER_REBALANCE (open tr)) 0) as [Hdef|Hdef];
      cbn [negb] in H; [|injection H as <-; apply amount_forced_at_refl].
    destruct (acc sp) as [a|].
    + apply bind_Ok in H. destruct H as (ac & _ & H).
      destruct (negb _); [injection H as <-; apply amount_forced_at_refl|].
      destruct (splits tr) eqn:El; [discriminate|]. rewrite <- El in *.
      apply bind_Ok in H. destruct H as (r & _ & H).
      apply (force_balance_forces s sp t tr (fst r) st st' Hs Ht);
        [congruence | exact Hdef | exact H].
    + destruct (splits tr) eqn:El; [discriminate|].
      apply (force_balance_forces s sp t tr None st st' Hs Ht);
        [congruence | exact Hdef | exact H].
Qed.

(** X1. A call of [xaccSplitRebalance] that returns has left every
    transaction as it was, has allocated and freed nothing, and has changed
    no field of any split but, at most, the amount of one split: the
    balancing split of the parent transaction (the first destination split
    when the rebalance starts at the source split, the source split
    otherwise).  For a split without a parent the state is unchanged. *)
Theorem xaccSplitRebalance_forces_one_amount
    (st st' : Engine) (s : positive) (sp : Split) :
  split_heap st !! s = Some sp →
  xaccSplitRebalance (Some s) st = Ok st' →
  (parent sp = None → st' = st)
  ∧ (∀ t, parent sp = Some t →
          ∃ tr, trans_heap st !! t = Some tr
                ∧ amount_forced_at (balancing_split tr (Some s)) st st').
Proof.
  intros Hs H.
  destruct (rebalance_touches_one_amount st st' s sp Hs H) as (Hnone & Hsome).
  split; [exact Hnone | exact Hsome].
Qed.

(** Two splits without accounts, 30 on the second; the rebalance from the
    second split puts -30 on the first and touches nothing else. *)
Lemma xaccSplitRebalance_forces_one_amount_witness :
  let s1 := set_parent (Some 1%positive) xaccInitSplit in
  let s2 := set_damount (Q2Qc 30) (set_parent (Some 1%positive) xaccInitSplit) in
  let tr := mkTransaction (Some ""%string) (Some ""%string) (Some ""%string)
              [1%positive; 2%positive] (mkTimespec 0 0) (mkTimespec 0 0) BEGIN_EDIT in
  let st := store_trans 1 tr (store_split 2 s2 (store_split 1 s1 initial_engine)) in
  ∃ st', xaccSplitRebalance (Some 2%positive) st = Ok st'
         ∧ amount_forced_at (Some 1%positive) st st'
         ∧ xaccSplitGetShareAmount st' (Some 1%positive) = Ok (Q2Qc (-30)).
Proof.
  intros s1 s2 tr st.
  destruct (xaccSplitRebalance (Some 2%positive) st) as [st'| | |] eqn:E;
    try (vm_compute in E; discriminate E).
  exists st'. split; [reflexivity|].
  destruct (xaccSplitRebalance_forces_one_amount st st' 2 s2 eq_refl E) as (_ & Hf).
  destruct (Hf 1%positive eq_refl) as (tr' & [= <-] & Hforced).
  split; [exact Hforced|].
  vm_compute in E. injection E as <-. reflexivity.
Defined.

(** ** A setter and its own rebalance *)

Lemma balancing_split_other st t tr s :
  engine_wf st → trans_heap st !! t = Some tr →
  Some s ≠ balancing_split tr (Some s).
Proof.
  intros W Ht. unfold balancing_split.
  destruct (bool_decide_reflect (Some s = head (splits tr))) as [Eh|Eh]; [|exact Eh].
  pose proof (wf_nodup _ W t tr Ht) as Hnd.
  destruct (splits tr) as [|x [|y l]]; simpl; try discriminate.
  injection Eh as <-. intros [= <-].
  apply list.NoDup_cons in Hnd. destruct Hnd as [Hnin _]. apply Hnin. left.
Qed.

(** What a setter of a split has written is still there after the
    rebalance it starts. *)
Lemma setter_write_survives st st' s sp sp' :
  engine_wf st →
  split_heap st !! s = Some sp →
  parent sp' = parent sp →
  xaccSplitRebalance (Some s) (store_split s sp' (marked sp st)) = Ok st' →
  split_heap st' !! s = Some sp'.
Proof.
  intros W Hs Hp H.
  set (st2 := store_split s sp' (marked sp st)) in *.
  assert (Hs2 : split_heap st2 !! s = Some sp') by apply lookup_insert_eq.
  destruct (rebalance_touches_one_amount st2 st' s sp' Hs2 H) as (Hnone & Hsome).
  destruct (parent sp) as [t|] eqn:Ep.
  - destruct (Hsome t Hp) as (tr & Ht & (_ & _ & _ & Hoth & _)).
    rewrite Hoth; [exact Hs2|].
    apply (balancing_split_other st t tr s W).
    unfold st2 in Ht. simpl in Ht. rewrite marked_trans_heap in Ht. exact Ht.
  - rewrite (Hnone Hp). exact Hs2.
Qed.

(** X2. In a well-formed engine the four setters of a split that start a
    rebalance are not undone by it: when the call returns, the split has
    the amount and the price that were set, and [xaccSplitSetShareAmount]
    and [xaccSplitSetValue] leave its share price alone.  In exact
    arithmetic (amounts and prices are rationals here, the rounding of the
    C doubles is not modelled) and for a share price that is not zero,
    [xaccSplitGetValue] after [xaccSplitSetValue] returns the value that
    was set. *)
Theorem split_setters_take_effect
    (st st' : Engine) (s : positive) (sp : Split) (x y : Qc) :
  engine_wf st →
  split_heap st !! s = Some sp →
  (xaccSplitSetShareAmount (Some s) x st = Ok st' →
   xaccSplitGetShareAmount st' (Some s) = Ok x
   ∧ xaccSplitGetSharePrice st' (Some s) = Ok (share_price sp))
  ∧ (xaccSplitSetSharePrice (Some s) x st = Ok st' →
     xaccSplitGetSharePrice st' (Some s) = Ok x
     ∧ xaccSplitGetShareAmount st' (Some s) = Ok (damount sp))
  ∧ (xaccSplitSetSharePriceAndAmount (Some s) x y st = Ok st' →
     xaccSplitGetSharePrice st' (Some s) = Ok x
     ∧ xaccSplitGetShareAmount st' (Some s) = Ok y)
  ∧ (share_price sp ≠ 0%Qc →
     xaccSplitSetValue (Some s) x st = Ok st' →
     xaccSplitGetValue st' (Some s) = Ok x
     ∧ xaccSplitGetSharePrice st' (Some s) = Ok (share_price sp)).
Proof.
  intros W Hs.
  assert (Hrun : ∀ sp', parent sp' = parent sp →
            (st1 ← MARK_SPLIT (Some s) st;
             sp1 ← deref_split st1 (Some s);
             xaccSplitRebalance (Some s) (store_split s sp' st1)) = Ok st' →
            split_heap st' !! s = Some sp').
  { intros sp' Hp H.
    apply bind_Ok in H. destruct H as (st1 & Hmark & H).
    apply bind_Ok in H. destruct H as (sp1 & _ & H).
    apply MARK_SPLIT_Ok in Hmark.
    destruct Hmark as (? & spm & [= <-] & Hsm & -> & _).
    rewrite Hs in Hsm. injection Hsm as <-.
    eapply setter_write_survives; eassumption. }
  assert (Hderef : ∀ st1, MARK_SPLIT (Some s) st = Ok st1 →
                          deref_split st1 (Some s) = Ok sp).
  { intros st1 Hmark. apply MARK_SPLIT_Ok in Hmark.
    destruct Hmark as (? & spm & [= <-] & Hsm & -> & _).
    apply deref_split_live. rewrite marked_split_heap. exact Hs. }
  unfold xaccSplitGetShareAmount, xaccSplitGetSharePrice, xaccSplitGetValue.
  split; [|split; [|split]].
  - intros H. unfold xaccSplitSetShareAmount in H.
    assert (E : split_heap st' !! s = Some (set_damount x sp)).
    { apply Hrun; [reflexivity|].
      destruct (MARK_SPLIT (Some s) st) as [st1| | |] eqn:Em; try discriminate.
      cbn [mbind outcome_bind] in *. rewrite (Hderef st1 eq_refl) in *.
      exact H. }
    rewrite (deref_split_live _ _ _ E). split; reflexivity.
  - intros H. unfold xaccSplitSetSharePrice in H.
    assert (E : split_heap st' !! s = Some (set_share_price x sp)).
    { apply Hrun; [reflexivity|].
      destruct (MARK_SPLIT (Some s) st) as [st1| | |] eqn:Em; try discriminate.
      cbn [mbind outcome_bind] in *. rewrite (Hderef st1 eq_refl) in *.
      exact H. }
    rewrite (deref_split_live _ _ _ E). split; reflexivity.
  - intros H. unfold xaccSplitSetSharePriceAndAmount in H.
    assert (E : split_heap st' !! s = Some (set_damount y (set_share_price x sp))).
    { apply Hrun; [reflexivity|].
      destruct (MARK_SPLIT (Some s) st) as [st1| | |] eqn:Em; try discriminate.
      cbn [mbind outcome_bind] in *. rewrite (Hderef st1 eq_refl) in *.
      exact H. }
    rewrite (deref_split_live _ _ _ E). split; reflexivity.
  - intros Hprice H. unfold xaccSplitSetValue in H.
    assert (E : split_heap st' !! s = Some (set_damount (x / share_price sp)%Qc sp)).
    { apply Hrun; [reflexivity|].
      destruct (MARK_SPLIT (Some s) st) as [st1| | |] eqn:Em; try discriminate.
      cbn [mbind outcome_bind] in *. rewrite (Hderef st1 eq_refl) in *.
      exact H. }
    rewrite (deref_split_live _ _ _ E). split; [|reflexivity].
    cbn [mbind outcome_bind]. apply (f_equal Ok). simpl. field. exact Hprice.
Qed.

(** The split of a fresh transaction, set to the amount 7. *)
Lemma split_setters_take_effect_witness :
  let st := snd (xaccMallocTransaction initial_engine) in
  ∃ st', xaccSplitSetShareAmount (Some 1%positive) (Q2Qc 7) st = Ok st'
         ∧ xaccSplitGetShareAmount st' (Some 1%positive) = Ok (Q2Qc 7).
Proof.
  intros st.
  destruct (xaccSplitSetShareAmount (Some 1%positive) (Q2Qc 7) st) as [st'| | |] eqn:E;
    try (vm_compute in E; discriminate E).
  exists st'. split; [reflexivity|].
  destruct (split_setters_take_effect st st' 1
              (set_parent (Some 1%positive) xaccInitSplit) (Q2Qc 7) 0%Qc) as (H & _).
  - apply xaccMallocTransaction_wf, initial_engine_wf.
  - reflexivity.
  - exact (proj1 (H E)).
Defined.

(** ** The balance with [force_double_entry] off *)







Lemma two_plain_splits_wf (s1 s2 : Split) (tr : Transaction) :
  parent s1 = Some 1%positive → parent s2 = Some 1%positive →
  splits tr = [1%positive; 2%positive] →
  engine_wf (store_trans 1 tr (store_split 2 s2 (store_split 1 s1 initial_engine))).
Proof.
  intros Hp1 Hp2 Hl. split.
  - intros t0 tr0 s Ht0 Hs. simpl in Ht0.
    apply lookup_insert_Some in Ht0.
    destruct Ht0 as [[<- <-]|[_ Ht0]]; [|rewrite lookup_empty in Ht0; discriminate].
    rewrite Hl in Hs. apply elem_of_cons in Hs. destruct Hs as [->|Hs].
    + exists s1. split; [reflexivity | exact Hp1].
    + apply list_elem_of_singleton in Hs. subst s. exists s2. split; [reflexivity | exact Hp2].
  - intros s sp t0 Hs Hp. simpl in Hs.
    apply lookup_insert_Some in Hs. destruct Hs as [[<- <-]|[_ Hs]].
    + rewrite Hp2 in Hp. injection Hp as <-. exists tr. split; [reflexivity|].
      rewrite Hl. right. left.
    + apply lookup_insert_Some in Hs. destruct Hs as [[<- <-]|[_ Hs]].
      * rewrite Hp1 in Hp. injection Hp as <-. exists tr. split; [reflexivity|].
        rewrite Hl. left.
      * rewrite lookup_empty in Hs. discriminate.
  - intros t0 tr0 Ht0. simpl in Ht0.
    apply lookup_insert_Some in Ht0.
    destruct Ht0 as [[<- <-]|[_ Ht0]]; [|rewrite lookup_empty in Ht0; discriminate].
    rewrite Hl. apply list.NoDup_cons. split; [|apply NoDup_singleton].
    intros C. apply list_elem_of_singleton in C. discriminate.
Qed.


(** ** Memo and action of a transaction *)

Lemma store_split_accounts_live st s sp sp' :
  accounts_live st → split_heap st !! s = Some sp → acc sp' = acc sp →
  accounts_live (store_split s sp' st).
Proof.
  intros H Hs Ha j spj a. simpl.
  destruct (decide (s = j)) as [->|Hne].
  - rewrite lookup_insert_eq. intros [= <-] E. apply (H j sp a Hs). congruence.
  - rewrite lookup_insert_ne by assumption. apply H.
Qed.

Lemma marked_keeps_accounts_live sp st :
  accounts_live st → accounts_live (marked sp st).
Proof.
  intros H j spj a Hj Ha. apply marked_accounts_live.
  rewrite marked_split_heap in Hj. exact (H j spj a Hj Ha).
Qed.

(** [SET_TRANS_FIELD] on a transaction with a second split. *)
Lemma SET_TRANS_FIELD_runs set_field st t tr s0 s1 rest sp0 sp1 v :
  (∀ x sp, acc (set_field x sp) = acc sp) →
  accounts_live st →
  trans_heap st !! t = Some tr →
  splits tr = s0 :: s1 :: rest →
  s0 ≠ s1 →
  split_heap st !! s0 = Some sp0 →
  split_heap st !! s1 = Some sp1 →
  ∃ st', SET_TRANS_FIELD set_field (Some t) (Some v) st = Ok st'
         ∧ trans_heap st' = trans_heap st
         ∧ split_heap st'
           = if decide (rest = [])
             then <[s1 := set_field (Some v) sp1]>
                    (<[s0 := set_field (Some v) sp0]> (split_heap st))
             else <[s0 := set_field (Some v) sp0]> (split_heap st).
Proof.
  intros Hacc Hlive Ht Hl Hne Hs0 Hs1.
  unfold SET_TRANS_FIELD.
  rewrite (CHECK_OPEN_live _ _ _ Ht). cbn [mbind outcome_bind].
  set (st1 := checked t tr st).
  assert (Ht1 : trans_heap st1 !! t = Some tr)
    by (unfold st1; rewrite checked_trans_heap; exact Ht).
  assert (Es1 : split_heap st1 = split_heap st) by apply checked_split_heap.
  assert (Hlive1 : accounts_live st1).
  { intros j spj a. unfold st1. rewrite checked_split_heap, checked_accounts. apply Hlive. }
  rewrite (deref_trans_live _ _ _ Ht1). cbn [mbind outcome_bind]. rewrite Hl.
  assert (Hs01 : split_heap st1 !! s0 = Some sp0) by (rewrite Es1; exact Hs0).
  rewrite (deref_split_live _ _ _ Hs01). cbn [mbind outcome_bind lookup list_lookup].
  rewrite (bool_decide_eq_false_2 (Some s1 = None)) by discriminate.
  rewrite andb_false_r. cbn [strdup mbind outcome_bind].
  set (sp0' := set_field (Some v) sp0).
  set (st2 := store_split s0 sp0' st1).
  assert (Hs02 : split_heap st2 !! s0 = Some sp0') by apply lookup_insert_eq.
  assert (Hlive2 : accounts_live st2)
    by (apply (store_split_accounts_live st1 s0 sp0); [exact Hlive1 | exact Hs01 | apply Hacc]).
  rewrite (MARK_SPLIT_live st2 s0 sp0' Hs02) by (intros a; apply (Hlive2 s0 sp0' a Hs02)).
  cbn [mbind outcome_bind].
  set (st3 := marked sp0' st2).
  assert (Es3 : split_heap st3 = <[s0 := sp0']> (split_heap st)).
  { unfold st3. rewrite marked_split_heap. simpl. rewrite Es1. reflexivity. }
  assert (Et3 : trans_heap st3 = trans_heap st).
  { unfold st3. rewrite marked_trans_heap. simpl. apply checked_trans_heap. }
  destruct rest as [|s2 rest].
  - cbn [lookup list_lookup]. rewrite decide_True by reflexivity.
    assert (Hs13 : split_heap st3 !! s1 = Some sp1).
    { rewrite Es3, lookup_insert_ne by exact Hne. exact Hs1. }
    rewrite (deref_split_live _ _ _ Hs13). cbn [mbind outcome_bind].
    set (sp1' := set_field (Some v) sp1).
    set (st4 := store_split s1 sp1' st3).
    assert (Hs14 : split_heap st4 !! s1 = Some sp1') by apply lookup_insert_eq.
    assert (Hlive4 : accounts_live st4).
    { apply (store_split_accounts_live st3 s1 sp1); [|exact Hs13 | apply Hacc].
      apply marked_keeps_accounts_live. exact Hlive2. }
    rewrite (MARK_SPLIT_live st4 s1 sp1' Hs14) by (intros a; apply (Hlive4 s1 sp1' a Hs14)).
    eexists. split; [reflexivity|].
    rewrite marked_trans_heap, marked_split_heap. simpl. rewrite Es3, Et3.
    split; reflexivity.
  - cbn [lookup list_lookup]. rewrite decide_False by discriminate.
    eexists. split; [reflexivity|]. rewrite Es3, Et3. split; reflexivity.
Qed.

(** X4. In a well-formed engine with live accounts, [xaccTransSetMemo] and
    [xaccTransSetAction] on a transaction with exactly two splits write the
    text to both splits; with three or more splits they write it to the
    source split only.  No other split and no transaction is changed. *)
Theorem transaction_memo_is_mirrored_on_two_splits
    (st : Engine) (t s0 s1 : positive) (tr : Transaction) (rest : list positive)
    (v : string) :
  engine_wf st → accounts_live st →
  trans_heap st !! t = Some tr →
  splits tr = s0 :: s1 :: rest →
  (∃ st', xaccTransSetMemo (Some t) (Some v) st = Ok st'
          ∧ trans_heap st' = trans_heap st
          ∧ xaccSplitGetMemo st' (Some s0) = Ok (Some v)
          ∧ xaccSplitGetMemo st' (Some s1)
            = (if decide (rest = []) then Ok (Some v) else xaccSplitGetMemo st (Some s1))
          ∧ xaccSplitGetAction st' (Some s0) = xaccSplitGetAction st (Some s0)
          ∧ ∀ j, j ≠ s0 → j ≠ s1 → split_heap st' !! j = split_heap st !! j)
  ∧ (∃ st', xaccTransSetAction (Some t) (Some v) st = Ok st'
            ∧ trans_heap st' = trans_heap st
            ∧ xaccSplitGetAction st' (Some s0) = Ok (Some v)
            ∧ xaccSplitGetAction st' (Some s1)
              = (if decide (rest = []) then Ok (Some v) else xaccSplitGetAction st (Some s1))
            ∧ xaccSplitGetMemo st' (Some s0) = xaccSplitGetMemo st (Some s0)
            ∧ ∀ j, j ≠ s0 → j ≠ s1 → split_heap st' !! j = split_heap st !! j).
Proof.
  intros W Hlive Ht Hl.
  destruct (wf_member _ W t tr s0 Ht) as (sp0 & Hs0 & _); [rewrite Hl; left|].
  destruct (wf_member _ W t tr s1 Ht) as (sp1 & Hs1 & _); [rewrite Hl; right; left|].
  assert (Hne : s0 ≠ s1).
  { pose proof (wf_nodup _ W t tr Ht) as Hnd. rewrite Hl in Hnd.
    apply list.NoDup_cons in Hnd. destruct Hnd as [Hnin _].
    intros ->. apply Hnin. left. }
  split.
  - destruct (SET_TRANS_FIELD_runs set_memo st t tr s0 s1 rest sp0 sp1 v)
      as (st' & Hrun & Et & Es); try assumption; [reflexivity|].
    exists st'. split; [exact Hrun|]. split; [exact Et|].
    unfold xaccSplitGetMemo, xaccSplitGetAction, deref_split. rewrite Es.
    destruct (decide (rest = [])).
    + rewrite lookup_insert_eq, lookup_insert_ne, lookup_insert_eq, Hs0 by congruence.
      repeat split. intros j H0 H1. rewrite !lookup_insert_ne by congruence. reflexivity.
    + rewrite lookup_insert_eq, lookup_insert_ne, Hs0 by congruence.
      repeat split. intros j H0 H1. rewrite !lookup_insert_ne by congruence. reflexivity.
  - destruct (SET_TRANS_FIELD_runs set_action st t tr s0 s1 rest sp0 sp1 v)
      as (st' & Hrun & Et & Es); try assumption; [reflexivity|].
    exists st'. split; [exact Hrun|]. split; [exact Et|].
    unfold xaccSplitGetMemo, xaccSplitGetAction, deref_split. rewrite Es.
    destruct (decide (rest = [])).
    + rewrite lookup_insert_eq, lookup_insert_ne, lookup_insert_eq, Hs0 by congruence.
      repeat split. intros j H0 H1. rewrite !lookup_insert_ne by congruence. reflexivity.
    + rewrite lookup_insert_eq, lookup_insert_ne, Hs0 by congruence.
      repeat split. intros j H0 H1. rewrite !lookup_insert_ne by congruence. reflexivity.
Qed.

Lemma two_plain_splits_accounts_live (s1 s2 : Split) (tr : Transaction) :
  acc s1 = None → acc s2 = None →
  accounts_live (store_trans 1 tr (store_split 2 s2 (store_split 1 s1 initial_engine))).
Proof.
  intros H1 H2 s sp a Hs Ha. simpl in Hs.
  apply lookup_insert_Some in Hs. destruct Hs as [[<- <-]|[_ Hs]]; [congruence|].
  apply lookup_insert_Some in Hs. destruct Hs as [[<- <-]|[_ Hs]]; [congruence|].
  rewrite lookup_empty in Hs. discriminate.
Qed.

(** A transaction with two splits gets the memo "rent". *)
Lemma transaction_memo_is_mirrored_on_two_splits_witness :
  let s1 := set_parent (Some 1%positive) xaccInitSplit in
  let s2 := set_parent (Some 1%positive) xaccInitSplit in
  let tr := mkTransaction (Some ""%string) (Some ""%string) (Some ""%string)
              [1%positive; 2%positive] (mkTimespec 0 0) (mkTimespec 0 0) BEGIN_EDIT in
  let st := store_trans 1 tr (store_split 2 s2 (store_split 1 s1 initial_engine)) in
  ∃ st', xaccTransSetMemo (Some 1%positive) (Some "rent"%string) st = Ok st'
         ∧ xaccSplitGetMemo st' (Some 1%positive) = Ok (Some "rent"%string)
         ∧ xaccSplitGetMemo st' (Some 2%positive) = Ok (Some "rent"%string).
Proof.
  intros s1 s2 tr st.
  destruct (transaction_memo_is_mirrored_on_two_splits st 1 1 2 tr [] "rent"%string)
    as ((st' & Hrun & _ & H0 & H1 & _) & _).
  - apply two_plain_splits_wf; reflexivity.
  - apply two_plain_splits_accounts_live; reflexivity.
  - reflexivity.
  - reflexivity.
  - exists st'. split; [exact Hrun|]. split; [exact H0 | exact H1].
Defined.

(** X5. With [force_double_entry] on, [xaccTransSetMemo] and
    [xaccTransSetAction] stop the program at [assert (trans->splits[1])]
    when the transaction has one split and its amount is not zero; the
    texts are not written. *)
Theorem transaction_memo_of_unbalanced_lone_split_aborts
    (st : Engine) (t s0 : positive) (tr : Transaction) (sp0 : Split)
    (v : option string) :
  force_double_entry st ≠ 0%Z →
  trans_heap st !! t = Some tr →
  splits tr = [s0] →
  split_heap st !! s0 = Some sp0 →
  damount sp0 ≠ 0%Qc →
  xaccTransSetMemo (Some t) v st = AssertFail
  ∧ xaccTransSetAction (Some t) v st = AssertFail.
Proof.
  intros Hf Ht Hl Hs Hd.
  assert (H : ∀ f, SET_TRANS_FIELD f (Some t) v st = AssertFail).
  { intros f. unfold SET_TRANS_FIELD.
    rewrite (CHECK_OPEN_live _ _ _ Ht). cbn [mbind outcome_bind].
    assert (Ht1 : trans_heap (checked t tr st) !! t = Some tr)
      by (rewrite checked_trans_heap; exact Ht).
    assert (Hs1 : split_heap (checked t tr st) !! s0 = Some sp0)
      by (rewrite checked_split_heap; exact Hs).
    rewrite (deref_trans_live _ _ _ Ht1). cbn [mbind outcome_bind]. rewrite Hl.
    rewrite (deref_split_live _ _ _ Hs1). cbn [mbind outcome_bind lookup list_lookup].
    rewrite checked_force_double_entry, (eqb_false_of_ne _ Hf), (DEQ_false _ Hd).
    rewrite bool_decide_eq_true_2 by reflexivity. reflexivity. }
  split; apply H.
Qed.

(** One split with the amount 5 and enforcement on. *)
Lemma transaction_memo_of_unbalanced_lone_split_aborts_witness :
  let sp := set_damount (Q2Qc 5) (set_parent (Some 1%positive) xaccInitSplit) in
  let tr := mkTransaction (Some ""%string) (Some ""%string) (Some ""%string)
              [1%positive] (mkTimespec 0 0) (mkTimespec 0 0) BEGIN_EDIT in
  let st := set_force_double_entry 1
              (store_trans 1 tr (store_split 1 sp initial_engine)) in
  xaccTransSetMemo (Some 1%positive) (Some "rent"%string) st = AssertFail.
Proof.
  intros sp tr st.
  apply (transaction_memo_of_unbalanced_lone_split_aborts st 1 1 tr sp).
  - discriminate.
  - reflexivity.
  - reflexivity.
  - reflexivity.
  - discriminate.
Defined.

(** ** Destroying a transaction *)

Lemma detach_split_live st s sp :
  split_heap st !! s = Some sp →
  (∀ a, acc sp = Some a → is_Some (accounts st !! a)) →
  ∃ st', detach_split s st = Ok st'
         ∧ split_heap st' = split_heap st
         ∧ trans_heap st' = trans_heap st
         ∧ (∀ a, is_Some (accounts st' !! a) ↔ is_Some (accounts st !! a))
         ∧ (∀ e, e ∈ trace st → e ∈ trace st')
         ∧ EvAccountRemoveSplit (acc sp) (Some s) ∈ trace st'.
Proof.
  intros Hs Ha. unfold detach_split.
  rewrite (MARK_SPLIT_live st s sp Hs Ha). cbn [mbind outcome_bind].
  assert (Hs1 : split_heap (marked sp st) !! s = Some sp)
    by (rewrite marked_split_heap; exact Hs).
  rewrite (deref_split_live _ _ _ Hs1). cbn [mbind outcome_bind].
  eexists. split; [reflexivity|]. simpl.
  rewrite marked_split_heap, marked_trans_heap, marked_trace.
  split; [reflexivity|]. split; [reflexivity|]. split; [|split].
  - intros a. apply marked_accounts_live.
  - intros e He. set_solver.
  - set_solver.
Qed.

Lemma for_each_detach st l :
  (∀ s, s ∈ l → ∃ sp, split_heap st !! s = Some sp
                      ∧ ∀ a, acc sp = Some a → is_Some (accounts st !! a)) →
  ∃ st', for_each detach_split l st = Ok st'
         ∧ split_heap st' = split_heap st
         ∧ trans_heap st' = trans_heap st
         ∧ (∀ e, e ∈ trace st → e ∈ trace st')
         ∧ ∀ s sp, s ∈ l → split_heap st !! s = Some sp →
                   EvAccountRemoveSplit (acc sp) (Some s) ∈ trace st'.
Proof.
  revert st. induction l as [|s l IH]; intros st Hl.
  - exists st. repeat split; trivial. intros s sp Hs. apply elem_of_nil in Hs. contradiction.
  - destruct (Hl s) as (sp & Hs & Ha); [left|].
    destruct (detach_split_live st s sp Hs Ha) as (st1 & Hrun & Es1 & Et1 & Ea1 & Htr1 & Hev1).
    destruct (IH st1) as (st' & Hrun' & Es' & Et' & Htr' & Hev').
    { intros s' Hs'. destruct (Hl s') as (sp' & Hs'' & Ha'); [right; exact Hs'|].
      exists sp'. rewrite Es1. split; [exact Hs''|].
      intros a E. apply Ea1. exact (Ha' a E). }
    exists st'. cbn [for_each]. rewrite Hrun. cbn [mbind outcome_bind].
    rewrite Hrun', Es', Et', Es1, Et1.
    split; [reflexivity|]. split; [reflexivity|]. split; [reflexivity|]. split; [auto|].
    intros s' sp' Hin Hs'. apply elem_of_cons in Hin. destruct Hin as [->|Hin].
    + rewrite Hs in Hs'. injection Hs' as <-. apply Htr'. exact Hev1.
    + apply (Hev' s' sp' Hin). rewrite Es1. exact Hs'.
Qed.

(** The loop of [xaccFreeTransaction] ends well on an array of live splits
    without duplicates. *)
Lemma for_each_free_ok st l :
  NoDup l → (∀ s, s ∈ l → is_Some (split_heap st !! s)) →
  ∃ st', for_each (λ s, xaccFreeSplit (Some s)) l st = Ok st'.
Proof.
  intros Hnd. revert st. induction Hnd as [|s l Hs Hnd IH]; intros st Hl.
  - exists st. reflexivity.
  - destruct (Hl s) as (sp & Hsp); [left|].
    cbn [for_each].
    assert (E : xaccFreeSplit (Some s) st = Ok (free_split s st)).
    { unfold xaccFreeSplit. rewrite (deref_split_live _ _ _ Hsp). reflexivity. }
    rewrite E. cbn [mbind outcome_bind].
    apply IH. intros s' Hs'. simpl.
    rewrite lookup_delete_ne by (intros ->; contradiction).
    apply Hl. right. exact Hs'.
Qed.

Lemma xaccFreeTransaction_live st t tr :
  engine_wf st → trans_heap st !! t = Some tr →
  ∃ st', xaccFreeTransaction (Some t) st = Ok st'
         ∧ trans_heap st' = delete t (trans_heap st)
         ∧ (∀ s, split_heap st' !! s
                 = if decide (s ∈ splits tr) then None else split_heap st !! s)
         ∧ trace st' = trace st
         ∧ engine_wf st'.
Proof.
  intros W Ht.
  destruct (for_each_free_ok st (splits tr) (wf_nodup _ W t tr Ht)) as (st1 & Hrun).
  { intros s Hs. destruct (wf_member _ W t tr s Ht Hs) as (sp & Hsp & _). eauto. }
  assert (Hfree : xaccFreeTransaction (Some t) st = Ok (free_trans t st1)).
  { unfold xaccFreeTransaction. rewrite (deref_trans_live _ _ _ Ht).
    cbn [mbind outcome_bind]. rewrite Hrun. reflexivity. }
  destruct (for_each_free _ _ _ Hrun) as (Et & Es).
  exists (free_trans t st1). split; [exact Hfree|].
  split; [simpl; rewrite Et; reflexivity|]. split; [exact Es|]. split.
  - clear -Hrun. revert st Hrun. induction (splits tr) as [|s l IH]; intros st Hrun.
    + injection Hrun as <-. reflexivity.
    + cbn [for_each] in Hrun. apply bind_Ok in Hrun. destruct Hrun as (st2 & H2 & Hrun).
      unfold xaccFreeSplit in H2. apply bind_Ok in H2. destruct H2 as (? & _ & [= <-]).
      rewrite (IH _ Hrun). reflexivity.
  - apply (xaccFreeTransaction_wf st t _ Hfree W).
Qed.

(** X6. In a well-formed engine with live accounts, [xaccTransDestroy] of a
    live transaction returns; it has written the Destroy record, taken
    every split of the transaction out of its account, and freed the
    transaction and exactly its splits.  Every other split and transaction
    is as it was, and the engine is well-formed again. *)
Theorem xaccTransDestroy_frees_the_transaction
    (st : Engine) (t : positive) (tr : Transaction) :
  engine_wf st → accounts_live st →
  trans_heap st !! t = Some tr →
  ∃ st', xaccTransDestroy (Some t) st = Ok st'
         ∧ trans_heap st' = delete t (trans_heap st)
         ∧ (∀ s, split_heap st' !! s
                 = if decide (s ∈ splits tr) then None else split_heap st !! s)
         ∧ EvTransWriteLog t "D" ∈ trace st'
         ∧ (∀ s sp, s ∈ splits tr → split_heap st !! s = Some sp →
                    EvAccountRemoveSplit (acc sp) (Some s) ∈ trace st')
         ∧ engine_wf st'.
Proof.
  intros W Hlive Ht.
  unfold xaccTransDestroy.
  rewrite (CHECK_OPEN_live _ _ _ Ht). cbn [mbind outcome_bind].
  set (st1 := xaccTransWriteLog t "D" (checked t tr st)).
  assert (Es1 : split_heap st1 = split_heap st) by apply checked_split_heap.
  assert (Et1 : trans_heap st1 = trans_heap st) by apply checked_trans_heap.
  assert (Ea1 : accounts st1 = accounts st) by apply checked_accounts.
  assert (Ht1 : trans_heap st1 !! t = Some tr) by (rewrite Et1; exact Ht).
  rewrite (deref_trans_live _ _ _ Ht1). cbn [mbind outcome_bind].
  change (for_each _ (splits tr) st1) with (for_each detach_split (splits tr) st1).
  destruct (for_each_detach st1 (splits tr)) as (st2 & Hrun & Es2 & Et2 & Htr2 & Hev2).
  { intros s Hs. destruct (wf_member _ W t tr s Ht Hs) as (sp & Hsp & _).
    exists sp. rewrite Es1, Ea1. split; [exact Hsp|].
    intros a E. exact (Hlive s sp a Hsp E). }
  rewrite Hrun. cbn [mbind outcome_bind].
  assert (W2 : engine_wf st2).
  { apply (engine_wf_heaps st); [congruence | congruence | exact W]. }
  destruct (xaccFreeTransaction_live st2 t tr W2) as (st' & Hfree & Et' & Es' & Etr' & W');
    [rewrite Et2; exact Ht1|].
  exists st'. split; [exact Hfree|].
  split; [rewrite Et', Et2, Et1; reflexivity|].
  split; [intros s; rewrite Es', Es2, Es1; reflexivity|].
  split; [|split; [|exact W']].
  - rewrite Etr'. apply Htr2. unfold st1. simpl. set_solver.
  - intros s sp Hin Hs. rewrite Etr'. apply (Hev2 s sp Hin). rewrite Es1. exact Hs.
Qed.

(** A transaction with two splits is destroyed. *)
Lemma xaccTransDestroy_frees_the_transaction_witness :
  let s1 := set_parent (Some 1%positive) xaccInitSplit in
  let s2 := set_parent (Some 1%positive) xaccInitSplit in
  let tr := mkTransaction (Some ""%string) (Some ""%string) (Some ""%string)
              [1%positive; 2%positive] (mkTimespec 0 0) (mkTimespec 0 0) BEGIN_EDIT in
  let st := store_trans 1 tr (store_split 2 s2 (store_split 1 s1 initial_engine)) in
  ∃ st', xaccTransDestroy (Some 1%positive) st = Ok st'
         ∧ trans_heap st' !! 1%positive = None
         ∧ split_heap st' !! 2%positive = None.
Proof.
  intros s1 s2 tr st.
  destruct (xaccTransDestroy_frees_the_transaction st 1 tr)
    as (st' & Hrun & Et & Es & _).
  - apply two_plain_splits_wf; reflexivity.
  - apply two_plain_splits_accounts_live; reflexivity.
  - reflexivity.
  - exists st'. split; [exact Hrun|]. split.
    + rewrite Et. apply lookup_delete_eq.
    + rewrite Es. reflexivity.
Defined.

(** ** Destroying a split *)

(** The first loop of [xaccSplitDestroy] on an array of live splits. *)
Lemma SplitDestroy_scan_live t split l n b st :
  (∀ s, s ∈ l → ∃ sp, split_heap st !! s = Some sp
                      ∧ ∀ a, acc sp = Some a → is_Some (accounts st !! a)) →
  ∃ st', SplitDestroy_scan t split l n b st
           = Ok (b || bool_decide (split ∈ (Some <$> l)), st')
         ∧ force_double_entry st' = force_double_entry st
         ∧ split_heap st' = split_heap st
         ∧ trans_heap st' = trans_heap st
         ∧ (∀ a, is_Some (accounts st' !! a) ↔ is_Some (accounts st !! a))
         ∧ (∀ a, set_changed 0 <$> accounts st' !! a = set_changed 0 <$> accounts st !! a)
         ∧ (∀ e, e ∈ trace st → e ∈ trace st').
Proof.
  revert n b st. induction l as [|s l IH]; intros n b st Hl.
  - exists st. cbn [SplitDestroy_scan fmap list_fmap].
    rewrite bool_decide_eq_false_2 by apply not_elem_of_nil.
    rewrite orb_false_r. repeat split; trivial.
  - destruct (Hl s) as (sp & Hs & Ha); [left|].
    cbn [SplitDestroy_scan].
    set (st0 := emit (EvPrintf (MsgSplitDestroy t n s)) st).
    rewrite (MARK_SPLIT_live st0 s sp Hs Ha). cbn [mbind outcome_bind].
    destruct (IH (S n) (b || bool_decide (Some s = split)) (marked sp st0))
      as (st' & Hrun & Ef & Es & Et & Ea & Ec & Htr).
    { intros s' Hs'. destruct (Hl s') as (sp' & Hs'' & Ha'); [right; exact Hs'|].
      exists sp'. rewrite marked_split_heap. split; [exact Hs''|].
      intros a E. apply marked_accounts_live. exact (Ha' a E). }
    exists st'. rewrite Hrun, Ef, Es, Et.
    rewrite marked_split_heap, marked_trans_heap, marked_force_double_entry.
    split; [|split; [reflexivity|split; [reflexivity|split; [reflexivity|split; [|split]]]]].
    + f_equal. f_equal. rewrite <- orb_assoc. f_equal.
      rewrite <- bool_decide_or. apply bool_decide_ext.
      rewrite fmap_cons, elem_of_cons. split; intros [H|H]; auto.
    + intros a. rewrite Ea. apply (marked_accounts_live sp st0).
    + intros a. rewrite Ec. apply (marked_accounts sp st0).
    + intros e He. apply Htr. rewrite marked_trace. unfold st0. simpl.
      apply elem_of_app. left. exact He.
Qed.

Lemma compact_absent s l : s ∉ l → compact s l = l.
Proof.
  induction l as [|x l IH]; intros H; [reflexivity|].
  cbn [compact]. rewrite not_elem_of_cons in H. destruct H as [Hne Hl].
  rewrite bool_decide_eq_false_2 by exact Hne. rewrite (IH Hl). reflexivity.
Qed.

(** In an array without duplicates the loop of [xaccTransRemoveSplit]
    takes out one entry. *)
Lemma compact_length s l :
  NoDup l → s ∈ l → S (length (compact s l)) = length l.
Proof.
  induction 1 as [|x l Hx Hnd IH]; intros Hs.
  - apply elem_of_nil in Hs. contradiction.
  - cbn [compact]. destruct (decide (s = x)) as [->|Hne].
    + rewrite bool_decide_eq_true_2 by reflexivity.
      rewrite (compact_absent x l Hx). reflexivity.
    + rewrite bool_decide_eq_false_2 by exact Hne.
      apply elem_of_cons in Hs. destruct Hs as [Hs|Hs]; [contradiction|].
      cbn [length]. rewrite (IH Hs). reflexivity.
Qed.

(** X7. In a well-formed engine with live accounts, [xaccSplitDestroy] of
    either split of a transaction with two splits returns, and it has
    destroyed the whole transaction: the Destroy record is written, both
    splits are taken out of their accounts, and the transaction and both
    splits are freed.  Nothing else is freed or changed. *)
Theorem xaccSplitDestroy_of_a_pair_frees_the_transaction
    (st : Engine) (s t a b : positive) (sp : Split) (tr : Transaction) :
  engine_wf st → accounts_live st →
  split_heap st !! s = Some sp → parent sp = Some t →
  trans_heap st !! t = Some tr → splits tr = [a; b] →
  ∃ st', xaccSplitDestroy (Some s) st = Ok st'
         ∧ trans_heap st' = delete t (trans_heap st)
         ∧ (∀ j, split_heap st' !! j
                 = if decide (j ∈ [a; b]) then None else split_heap st !! j)
         ∧ EvTransWriteLog t "D" ∈ trace st'
         ∧ (∀ j spj, j ∈ [a; b] → split_heap st !! j = Some spj →
                     EvAccountRemoveSplit (acc spj) (Some j) ∈ trace st')
         ∧ engine_wf st'.
Proof.
  intros W Hlive Hs Hp Ht Hl.
  assert (Hin : s ∈ splits tr).
  { destruct (wf_parent _ W s sp t Hs Hp) as (tr' & Ht' & Hin). congruence. }
  destruct (wf_member _ W t tr a Ht) as (spa & Hsa & Hpa); [rewrite Hl; left|].
  destruct (wf_member _ W t tr b Ht) as (spb & Hsb & Hpb); [rewrite Hl; right; left|].
  unfold xaccSplitDestroy.
  rewrite (deref_split_live _ _ _ Hs). cbn [mbind outcome_bind]. rewrite Hp.
  rewrite (CHECK_OPEN_live _ _ _ Ht). cbn [mbind outcome_bind].
  set (st1 := checked t tr st).
  assert (Es1 : split_heap st1 = split_heap st) by apply checked_split_heap.
  assert (Et1 : trans_heap st1 = trans_heap st) by apply checked_trans_heap.
  assert (Ea1 : accounts st1 = accounts st) by apply checked_accounts.
  assert (Ht1 : trans_heap st1 !! t = Some tr) by (rewrite Et1; exact Ht).
  rewrite (deref_trans_live _ _ _ Ht1). cbn [mbind outcome_bind].
  destruct (SplitDestroy_scan_live t (Some s) (splits tr) 0 false st1)
    as (st2 & Hscan & _ & Es2 & Et2 & Ea2 & _ & Htr2).
  { intros j Hj. destruct (wf_member _ W t tr j Ht Hj) as (spj & Hsj & _).
    exists spj. rewrite Es1, Ea1. split; [exact Hsj|].
    intros c E. exact (Hlive j spj c Hsj E). }
  rewrite Hscan. cbn [mbind outcome_bind orb].
  rewrite bool_decide_eq_true_2 by (apply list_elem_of_fmap_2; exact Hin).
  cbn [negb]. rewrite Hl.
  cbn [xaccCountSplits length Z.of_nat Z.ltb Z.compare Pos.of_succ_nat Pos.succ
       Pos.compare Pos.compare_cont head lookup list_lookup].
  set (st3 := xaccTransWriteLog t "D" st2).
  assert (Es3 : split_heap st3 = split_heap st) by (unfold st3; simpl; congruence).
  assert (Et3 : trans_heap st3 = trans_heap st) by (unfold st3; simpl; congruence).
  assert (Ha3 : ∀ j spj c, split_heap st !! j = Some spj → acc spj = Some c →
                           is_Some (accounts st3 !! c)).
  { intros j spj c Hj E. unfold st3. simpl. apply Ea2. rewrite Ea1.
    exact (Hlive j spj c Hj E). }
  assert (Hsa3 : split_heap st3 !! a = Some spa) by (rewrite Es3; exact Hsa).
  rewrite (deref_split_live _ _ _ Hsa3). cbn [mbind outcome_bind].
  rewrite (MARK_SPLIT_live st3 a spa Hsa3 (λ c, Ha3 a spa c Hsa)).
  cbn [mbind outcome_bind].
  set (st4 := xaccAccountRecomputeBalance (acc spa)
                (xaccAccountRemoveSplit (acc spa) (Some a) (marked spa st3))).
  assert (Es4 : split_heap st4 = split_heap st)
    by (unfold st4; simpl; rewrite marked_split_heap; exact Es3).
  assert (Et4 : trans_heap st4 = trans_heap st)
    by (unfold st4; simpl; rewrite marked_trans_heap; exact Et3).
  assert (Hsb4 : split_heap st4 !! b = Some spb) by (rewrite Es4; exact Hsb).
  rewrite (deref_split_live _ _ _ Hsb4). cbn [mbind outcome_bind].
  assert (Hb4 : ∀ c, acc spb = Some c → is_Some (accounts st4 !! c)).
  { intros c E. unfold st4. simpl. apply marked_accounts_live. exact (Ha3 b spb c Hsb E). }
  rewrite (MARK_SPLIT_live st4 b spb Hsb4 Hb4). cbn [mbind outcome_bind].
  set (st5 := xaccAccountRecomputeBalance (acc spb)
                (xaccAccountRemoveSplit (acc spb) (Some b) (marked spb st4))).
  assert (Es5 : split_heap st5 = split_heap st)
    by (unfold st5; simpl; rewrite marked_split_heap; exact Es4).
  assert (Et5 : trans_heap st5 = trans_heap st)
    by (unfold st5; simpl; rewrite marked_trans_heap; exact Et4).
  assert (W5 : engine_wf st5) by (apply (engine_wf_heaps st); assumption).
  destruct (xaccFreeTransaction_live st5 t tr W5) as (st' & Hfree & Et' & Es' & Etr' & W');
    [rewrite Et5; exact Ht|].
  exists st'. split; [exact Hfree|].
  split; [rewrite Et', Et5; reflexivity|].
  split; [intros j; rewrite Es', Es5, Hl; reflexivity|].
  assert (Htr3 : ∀ e, e ∈ trace st3 → e ∈ trace st').
  { intros e He. rewrite Etr'. unfold st5. simpl. rewrite marked_trace.
    unfold st4. simpl. rewrite marked_trace.
    do 4 (apply elem_of_app; left). exact He. }
  split; [|split; [|exact W']].
  - apply Htr3. unfold st3. simpl. apply elem_of_app. right. left.
  - intros j spj Hj Hsj. rewrite Etr'.
    apply elem_of_cons in Hj. destruct Hj as [->|Hj].
    + rewrite Hsa in Hsj. injection Hsj as <-.
      unfold st5. simpl. rewrite marked_trace. unfold st4. simpl.
      do 3 (apply elem_of_app; left). apply elem_of_app. right. left.
    + apply list_elem_of_singleton in Hj. subst j.
      rewrite Hsb in Hsj. injection Hsj as <-.
      unfold st5. simpl. apply elem_of_app. left. apply elem_of_app. right. left.
Qed.

(** The second split of a transaction with two splits is destroyed. *)
Lemma xaccSplitDestroy_of_a_pair_frees_the_transaction_witness :
  let s1 := set_parent (Some 1%positive) xaccInitSplit in
  let s2 := set_parent (Some 1%positive) xaccInitSplit in
  let tr := mkTransaction (Some ""%string) (Some ""%string) (Some ""%string)
              [1%positive; 2%positive] (mkTimespec 0 0) (mkTimespec 0 0) BEGIN_EDIT in
  let st := store_trans 1 tr (store_split 2 s2 (store_split 1 s1 initial_engine)) in
  ∃ st', xaccSplitDestroy (Some 2%positive) st = Ok st'
         ∧ trans_heap st' !! 1%positive = None
         ∧ split_heap st' !! 1%positive = None
         ∧ split_heap st' !! 2%positive = None.
Proof.
  intros s1 s2 tr st.
  destruct (xaccSplitDestroy_of_a_pair_frees_the_transaction st 2 1 1 2 s2 tr)
    as (st' & Hrun & Et & Es & _).
  - apply two_plain_splits_wf; reflexivity.
  - apply two_plain_splits_accounts_live; reflexivity.
  - reflexivity.
  - reflexivity.
  - reflexivity.
  - reflexivity.
  - exists st'. split; [exact Hrun|]. split; [|split].
    + rewrite Et. apply lookup_delete_eq.
    + rewrite Es. reflexivity.
    + rewrite Es. reflexivity.
Defined.

(** X8. In a well-formed engine with live accounts, when [xaccSplitDestroy]
    of a split of a transaction with three or more splits returns, the
    split is freed and the transaction lives on with the array of the other
    splits, in their order.  The rebalance of the new first split has
    written at most the amount of the new second split; every other split
    and every other transaction is as it was. *)
Theorem xaccSplitDestroy_of_three_or_more_unlinks_the_split
    (st st' : Engine) (s t : positive) (sp : Split) (tr : Transaction) :
  engine_wf st → accounts_live st →
  split_heap st !! s = Some sp → parent sp = Some t →
  trans_heap st !! t = Some tr → (2 < length (splits tr))%nat →
  xaccSplitDestroy (Some s) st = Ok st' →
  trans_heap st' = <[t := set_splits (compact s (splits tr)) tr]> (trans_heap st)
  ∧ S (length (compact s (splits tr))) = length (splits tr)
  ∧ split_heap st' !! s = None
  ∧ (∀ j, j ≠ s → Some j ≠ compact s (splits tr) !! 1%nat →
          split_heap st' !! j = split_heap st !! j)
  ∧ (∀ j, Some j = compact s (splits tr) !! 1%nat →
          ∃ d, split_heap st' !! j = set_damount d <$> split_heap st !! j)
  ∧ engine_wf st'.
Proof.
  intros W Hlive Hs Hp Ht Hlen H.
  pose proof (xaccSplitDestroy_wf st s st' H W) as W'.
  assert (Hin : s ∈ splits tr).
  { destruct (wf_parent _ W s sp t Hs Hp) as (tr' & Ht' & Hin). congruence. }
  pose proof (compact_length s (splits tr) (wf_nodup _ W t tr Ht) Hin) as Hcl.
  unfold xaccSplitDestroy in H.
  rewrite (deref_split_live _ _ _ Hs) in H. cbn [mbind outcome_bind] in H. rewrite Hp in H.
  rewrite (CHECK_OPEN_live _ _ _ Ht) in H. cbn [mbind outcome_bind] in H.
  set (st1 := checked t tr st) in H.
  assert (Es1 : split_heap st1 = split_heap st) by apply checked_split_heap.
  assert (Et1 : trans_heap st1 = trans_heap st) by apply checked_trans_heap.
  assert (Ea1 : accounts st1 = accounts st) by apply checked_accounts.
  assert (Ht1 : trans_heap st1 !! t = Some tr) by (rewrite Et1; exact Ht).
  rewrite (deref_trans_live _ _ _ Ht1) in H. cbn [mbind outcome_bind] in H.
  destruct (SplitDestroy_scan_live t (Some s) (splits tr) 0 false st1)
    as (st2 & Hscan & _ & Es2 & Et2 & Ea2 & _ & _).
  { intros j Hj. destruct (wf_member _ W t tr j Ht Hj) as (spj & Hsj & _).
    exists spj. rewrite Es1, Ea1. split; [exact Hsj|].
    intros c E. exact (Hlive j spj c Hsj E). }
  rewrite Hscan in H. cbn [mbind outcome_bind orb] in H.
  rewrite bool_decide_eq_true_2 in H by (apply list_elem_of_fmap_2; exact Hin).
  cbn [negb] in H.
  assert (Hcount : (2 <? xaccCountSplits (splits tr))%Z = true).
  { apply Z.ltb_lt. unfold xaccCountSplits. lia. }
  rewrite Hcount in H.
  assert (Hs2 : split_heap st2 !! s = Some sp) by (rewrite Es2, Es1; exact Hs).
  assert (Ha2 : ∀ c, acc sp = Some c → is_Some (accounts st2 !! c)).
  { intros c E. apply Ea2. rewrite Ea1. exact (Hlive s sp c Hs E). }
  rewrite (MARK_SPLIT_live st2 s sp Hs2 Ha2) in H. cbn [mbind outcome_bind] in H.
  set (st3 := marked sp st2) in H.
  assert (Es3 : split_heap st3 = split_heap st)
    by (unfold st3; rewrite marked_split_heap; congruence).
  assert (Et3 : trans_heap st3 = trans_heap st)
    by (unfold st3; rewrite marked_trans_heap; congruence).
  unfold xaccTransRemoveSplit in H.
  assert (Hs3 : split_heap st3 !! s = Some sp) by (rewrite Es3; exact Hs).
  rewrite (deref_split_live _ _ _ Hs3) in H. cbn [mbind outcome_bind] in H.
  set (st3' := store_split s (set_parent None sp) st3) in H.
  assert (Ht3 : trans_heap st3' !! t = Some tr) by (unfold st3'; simpl; rewrite Et3; exact Ht).
  rewrite (deref_trans_live _ _ _ Ht3) in H. cbn [mbind outcome_bind] in H.
  set (tr4 := set_splits (compact s (splits tr)) tr) in *.
  set (st4 := store_trans t tr4 st3') in H.
  assert (Hs4 : split_heap st4 !! s = Some (set_parent None sp))
    by (unfold st4, st3'; simpl; apply lookup_insert_eq).
  rewrite (deref_split_live _ _ _ Hs4) in H. cbn [mbind outcome_bind] in H.
  unfold xaccFreeSplit in H.
  match type of H with
  | context [deref_split ?e (Some s)] =>
      assert (Hs4' : split_heap e !! s = Some (set_parent None sp)) by exact Hs4;
      rewrite (deref_split_live _ _ _ Hs4') in H
  end.
  cbn [mbind outcome_bind] in H.
  match type of H with
  | context [deref_trans ?e (Some t)] => set (st5 := e) in H
  end.
  assert (Es5 : ∀ j, j ≠ s → split_heap st5 !! j = split_heap st !! j).
  { intros j Hne. unfold st5, st4, st3'. simpl.
    rewrite lookup_delete_ne by congruence.
    rewrite lookup_insert_ne by congruence. rewrite Es3. reflexivity. }
  assert (Es5s : split_heap st5 !! s = None) by (unfold st5; simpl; apply lookup_delete_eq).
  assert (Et5 : trans_heap st5 = <[t := tr4]> (trans_heap st)).
  { unfold st5, st4, st3'. simpl. rewrite Et3. reflexivity. }
  assert (Ht5 : trans_heap st5 !! t = Some tr4) by (rewrite Et5; apply lookup_insert_eq).
  rewrite (deref_trans_live _ _ _ Ht5) in H. cbn [mbind outcome_bind] in H.
  destruct (compact s (splits tr)) as [|h rest] eqn:Ec; [cbn [length] in Hcl; lia|].
  assert (Hh : h ∈ splits tr ∧ h ≠ s).
  { apply (elem_of_compact s h (splits tr)). rewrite Ec. left. }
  destruct Hh as [Hhin Hhne].
  destruct (wf_member _ W t tr h Ht Hhin) as (sph & Hsh & Hph).
  assert (Hsh5 : split_heap st5 !! h = Some sph) by (rewrite (Es5 h Hhne); exact Hsh).
  change (head (splits tr4)) with (Some h) in H.
  destruct (rebalance_touches_one_amount st5 st' h sph Hsh5 H) as (_ & Hsome).
  destruct (Hsome t Hph) as (tr5 & Ht5' & _ & Et' & _ & Hother & Htarget).
  rewrite Ht5 in Ht5'. injection Ht5' as <-.
  assert (Etarget : balancing_split tr4 (Some h) = (h :: rest) !! 1%nat).
  { unfold balancing_split. change (head (splits tr4)) with (Some h).
    rewrite bool_decide_eq_true_2 by reflexivity. reflexivity. }
  rewrite Etarget in Hother, Htarget.
  assert (Hts : Some s ≠ (h :: rest) !! 1%nat).
  { intros C. symmetry in C. apply list_elem_of_lookup_2 in C.
    rewrite <- Ec in C. apply elem_of_compact in C. destruct C as [_ C]. congruence. }
  split; [rewrite Et', Et5; reflexivity|].
  split; [exact Hcl|].
  split; [rewrite (Hother s Hts); exact Es5s|].
  split; [|split; [|exact W']].
  - intros j Hne Hnt. rewrite (Hother j Hnt). apply Es5. exact Hne.
  - intros j Hj. destruct (Htarget j Hj) as (d & Hd). exists d.
    rewrite Hd, Es5; [reflexivity|].
    intros ->. exact (Hts Hj).
Qed.

Lemma three_plain_splits_wf (s1 s2 s3 : Split) (tr : Transaction) :
  parent s1 = Some 1%positive → parent s2 = Some 1%positive →
  parent s3 = Some 1%positive →
  splits tr = [1%positive; 2%positive; 3%positive] →
  engine_wf (store_trans 1 tr
               (store_split 3 s3 (store_split 2 s2 (store_split 1 s1 initial_engine)))).
Proof.
  intros Hp1 Hp2 Hp3 Hl. split.
  - intros t0 tr0 s Ht0 Hs. simpl in Ht0.
    apply lookup_insert_Some in Ht0.
    destruct Ht0 as [[<- <-]|[_ Ht0]]; [|rewrite lookup_empty in Ht0; discriminate].
    rewrite Hl in Hs. apply elem_of_cons in Hs. destruct Hs as [->|Hs].
    { exists s1. split; [reflexivity | exact Hp1]. }
    apply elem_of_cons in Hs. destruct Hs as [->|Hs].
    { exists s2. split; [reflexivity | exact Hp2]. }
    apply list_elem_of_singleton in Hs. subst s.
    exists s3. split; [reflexivity | exact Hp3].
  - intros s sp t0 Hs Hp. simpl in Hs.
    assert (Hcase : t0 = 1%positive ∧ s ∈ [1%positive; 2%positive; 3%positive]).
    { apply lookup_insert_Some in Hs. destruct Hs as [[<- <-]|[_ Hs]].
      { split; [congruence|]. right. right. left. }
      apply lookup_insert_Some in Hs. destruct Hs as [[<- <-]|[_ Hs]].
      { split; [congruence|]. right. left. }
      apply lookup_insert_Some in Hs. destruct Hs as [[<- <-]|[_ Hs]].
      { split; [congruence|]. left. }
      rewrite lookup_empty in Hs. discriminate. }
    destruct Hcase as [-> Hin]. exists tr. split; [reflexivity|].
    rewrite Hl. exact Hin.
  - intros t0 tr0 Ht0. simpl in Ht0.
    apply lookup_insert_Some in Ht0.
    destruct Ht0 as [[<- <-]|[_ Ht0]]; [|rewrite lookup_empty in Ht0; discriminate].
    rewrite Hl. apply (bool_decide_unpack _). vm_compute. reflexivity.
Qed.

Lemma three_plain_splits_accounts_live (s1 s2 s3 : Split) (tr : Transaction) :
  acc s1 = None → acc s2 = None → acc s3 = None →
  accounts_live (store_trans 1 tr
                   (store_split 3 s3 (store_split 2 s2 (store_split 1 s1 initial_engine)))).
Proof.
  intros H1 H2 H3 s sp a Hs Ha. simpl in Hs.
  apply lookup_insert_Some in Hs. destruct Hs as [[<- <-]|[_ Hs]]; [congruence|].
  apply lookup_insert_Some in Hs. destruct Hs as [[<- <-]|[_ Hs]]; [congruence|].
  apply lookup_insert_Some in Hs. destruct Hs as [[<- <-]|[_ Hs]]; [congruence|].
  rewrite lookup_empty in Hs. discriminate.
Qed.

(** The middle split of a transaction with three splits is destroyed: the
    array is left with the first and the third. *)
Lemma xaccSplitDestroy_of_three_or_more_unlinks_the_split_witness :
  let sp := set_parent (Some 1%positive) xaccInitSplit in
  let tr := mkTransaction (Some ""%string) (Some ""%string) (Some ""%string)
              [1%positive; 2%positive; 3%positive]
              (mkTimespec 0 0) (mkTimespec 0 0) BEGIN_EDIT in
  let st := store_trans 1 tr
              (store_split 3 sp (store_split 2 sp (store_split 1 sp initial_engine))) in
  ∃ st', xaccSplitDestroy (Some 2%positive) st = Ok st'
         ∧ splits <$> trans_heap st' !! 1%positive = Some [1%positive; 3%positive]
         ∧ split_heap st' !! 2%positive = None.
Proof.
  intros sp tr st.
  destruct (xaccSplitDestroy (Some 2%positive) st) as [st'| | |] eqn:E;
    try (vm_compute in E; discriminate E).
  exists st'. split; [reflexivity|].
  destruct (xaccSplitDestroy_of_three_or_more_unlinks_the_split st st' 2 1 sp tr)
    as (Et & _ & Es & _).
  - apply three_plain_splits_wf; reflexivity.
  - apply three_plain_splits_accounts_live; reflexivity.
  - reflexivity.
  - reflexivity.
  - reflexivity.
  - simpl. lia.
  - exact E.
  - split; [|exact Es]. rewrite Et. rewrite lookup_insert_eq. reflexivity.
Defined.

(** ** The comparison functions *)

Lemma then_by_Eq c k : then_by c k = Eq ↔ c = Eq ∧ k = Eq.
Proof.
  destruct c; simpl; split; try tauto; try discriminate; intros [H _]; discriminate H.
Qed.

(** X9. For two transactions [xaccTransOrder] answers 0 exactly when the
    posted time, [num] and [description] are the same: the time of entry,
    the document reference, the splits and the open flag do not count.
    Two absent transactions tie, an absent and a present one never do. *)
Theorem xaccTransOrder_ties (a b : Transaction) :
  (xaccTransOrder (Some a) (Some b) = 0%Z
   ↔ date_posted a = date_posted b ∧ num a = num b ∧ description a = description b)
  ∧ xaccTransOrder None None = 0%Z
  ∧ xaccTransOrder (Some a) None ≠ 0%Z
  ∧ xaccTransOrder None (Some b) ≠ 0%Z.
Proof.
  split; [|split; [reflexivity | split; discriminate]].
  rewrite xaccTransOrder_sign, sign_of_eq. cbn [canonical_order].
  rewrite !then_by_Eq, !Z.compare_eq_iff, !text_compare_eq.
  destruct (date_posted a) as [sa na], (date_posted b) as [sb nb]. cbn [tv_sec tv_nsec].
  split.
  - intros (-> & -> & -> & ->). auto.
  - intros ([= -> ->] & -> & ->). auto.
Qed.

Lemma split_order_laws : order_laws split_order.
Proof.
  eapply order_laws_ext; [| apply (presence_laws
    (λ x y : Split * option Transaction,
       then_by (canonical_order (snd x) (snd y))
         (then_by (text_compare (memo (fst x)) (memo (fst y)))
            (text_compare (action (fst x)) (action (fst y))))))].
  - intros [[a ta]|] [[b tb]|]; reflexivity.
  - repeat apply then_by_laws.
    + apply (on_key_laws snd canonical_order canonical_order_laws).
    + apply (on_key_laws (λ x : Split * option Transaction, memo (fst x))
               text_compare text_compare_laws).
    + apply (on_key_laws (λ x : Split * option Transaction, action (fst x))
               text_compare text_compare_laws).
Qed.

Lemma load_trans_readable st a :
  (∀ t, parent a = Some t → is_Some (trans_heap st !! t)) →
  load_trans st (parent a) = Ok (parent a ≫= λ t, trans_heap st !! t).
Proof.
  intros H. unfold load_trans. destruct (parent a) as [t|]; [|reflexivity].
  destruct (H t eq_refl) as (tr & Ht).
  rewrite (deref_trans_live _ _ _ Ht). simpl. rewrite Ht. reflexivity.
Qed.

Lemma load_trans_Ok st a ta :
  load_trans st (parent a) = Ok ta →
  ∀ t, parent a = Some t → is_Some (trans_heap st !! t).
Proof.
  unfold load_trans. intros H t Ep. rewrite Ep in H.
  apply bind_Ok in H. destruct H as (tr & Htr & _).
  apply deref_trans_Ok in Htr. destruct Htr as (? & [= <-] & Ht). eauto.
Qed.

(** On readable splits [xaccSplitOrder] returns, and what it returns. *)
Lemma xaccSplitOrder_readable st sa sb :
  readable st sa → readable st sb →
  xaccSplitOrder st sa sb = Ok (sign_of (split_order (order_key st sa) (order_key st sb))).
Proof.
  destruct sa as [i|], sb as [j|]; cbn [readable].
  - intros (a & Ha & Hta) (b & Hb & Htb).
    unfold xaccSplitOrder, order_key. rewrite Ha, Hb.
    rewrite (deref_split_live _ _ _ Ha), (deref_split_live _ _ _ Hb).
    cbn [mbind outcome_bind].
    rewrite (load_trans_readable st a Hta), (load_trans_readable st b Htb).
    cbn [mbind outcome_bind split_order].
    rewrite xaccTransOrder_sign.
    destruct (canonical_order _ _); cbn [sign_of Z.eqb negb then_by]; try reflexivity.
    change 0%Z with (sign_of Eq). rewrite !SAFE_STRCMP_text.
    destruct (text_compare (action a) (action b)),
      (text_compare (memo a) (memo b)); reflexivity.
  - intros (a & Ha & _) _. unfold order_key. rewrite Ha. reflexivity.
  - intros _ (b & Hb & _). unfold order_key. rewrite Hb. reflexivity.
  - reflexivity.
Qed.

(** When [xaccSplitOrder] returns on two present splits, it has read both. *)
Lemma xaccSplitOrder_Ok st i j r :
  xaccSplitOrder st (Some i) (Some j) = Ok r →
  readable st (Some i) ∧ readable st (Some j).
Proof.
  unfold xaccSplitOrder. intros H.
  apply bind_Ok in H. destruct H as (a & Ha & H).
  apply bind_Ok in H. destruct H as (b & Hb & H).
  apply bind_Ok in H. destruct H as (ta & Hta & H).
  apply bind_Ok in H. destruct H as (tb & Htb & _).
  apply deref_split_Ok in Ha, Hb.
  destruct Ha as (? & [= <-] & Ha), Hb as (? & [= <-] & Hb).
  split; [exists a | exists b]; (split; [assumption|]);
    eapply load_trans_Ok; eassumption.
Qed.

Lemma xaccSplitOrder_returned st sa sb r :
  xaccSplitOrder st sa sb = Ok r →
  r = sign_of (split_order (order_key st sa) (order_key st sb))
  ∧ (r ≤ 0 → sb ≠ None → readable st sa ∧ readable st sb)%Z
  ∧ (0 ≤ r → sa ≠ None → readable st sa ∧ readable st sb)%Z.
Proof.
  intros H. destruct sa as [i|], sb as [j|].
  - destruct (xaccSplitOrder_Ok st i j r H) as (Ri & Rj).
    rewrite (xaccSplitOrder_readable st _ _ Ri Rj) in H. injection H as <-. auto.
  - injection H as <-. split; [|split]; [| congruence | lia].
    unfold order_key. destruct (split_heap st !! i); reflexivity.
  - injection H as <-. split; [|split]; [| lia | congruence].
    unfold order_key. destruct (split_heap st !! j); reflexivity.
  - injection H as <-. split; [reflexivity|]. split; congruence.
Qed.

(** X10. On one store [xaccSplitOrder] is a consistent comparison: when a
    call returns, the call with the arguments exchanged returns the
    opposite sign; when two calls in a chain return a negative number, or
    both return 0, the call on the ends of the chain returns as well, with
    a negative number, or 0. *)
Theorem xaccSplitOrder_consistent
    (st : Engine) (sa sb sc : option positive) (r1 r2 : Z) :
  xaccSplitOrder st sa sb = Ok r1 →
  xaccSplitOrder st sb sc = Ok r2 →
  xaccSplitOrder st sb sa = Ok (- r1)%Z
  ∧ ((r1 < 0)%Z → (r2 < 0)%Z →
     ∃ r3, xaccSplitOrder st sa sc = Ok r3 ∧ (r3 < 0)%Z)
  ∧ (r1 = 0%Z → r2 = 0%Z → xaccSplitOrder st sa sc = Ok 0%Z).
Proof.
  pose proof split_order_laws as L.
  intros H1 H2.
  destruct (xaccSplitOrder_returned st sa sb r1 H1) as (E1 & Hle1 & Hge1).
  destruct (xaccSplitOrder_returned st sb sc r2 H2) as (E2 & Hle2 & Hge2).
  split; [|split].
  - destruct sa as [i|], sb as [j|]; try (injection H1 as <-; reflexivity).
    destruct (xaccSplitOrder_Ok st i j r1 H1) as (Ri & Rj).
    rewrite (xaccSplitOrder_readable st _ _ Rj Ri), E1.
    rewrite (ol_antisym _ L (order_key st (Some i)) (order_key st (Some j))).
    rewrite sign_of_opp. reflexivity.
  - intros Hr1 Hr2.
    assert (Hsa : sa ≠ None).
    { intros ->. destruct sb; injection H1 as <-; lia. }
    assert (Hsb : sb ≠ None).
    { intros ->. destruct sc; injection H2 as <-; lia. }
    assert (Ra : readable st sa) by (apply Hle1; [lia | exact Hsb]).
    assert (Rc : readable st sc).
    { destruct sc as [k|]; [|exact I]. apply Hle2; [lia | discriminate]. }
    rewrite (xaccSplitOrder_readable st _ _ Ra Rc).
    eexists. split; [reflexivity|].
    rewrite E1 in Hr1. rewrite E2 in Hr2. rewrite sign_of_lt in *.
    exact (ol_trans _ L _ _ _ Hr1 Hr2).
  - intros Hr1 Hr2.
    assert (Ra : readable st sa).
    { destruct sa as [i|]; [|exact I]. apply Hge1; [lia | discriminate]. }
    assert (Rc : readable st sc).
    { destruct sc as [k|]; [|exact I].
      destruct sb as [j|]; [|injection H2 as <-; lia].
      apply Hle2; [lia | discriminate]. }
    rewrite (xaccSplitOrder_readable st _ _ Ra Rc).
    rewrite E1 in Hr1. rewrite E2 in Hr2. rewrite sign_of_eq in *.
    rewrite (ol_eq_l _ L _ _ (order_key st sc) Hr1), Hr2. reflexivity.
Qed.

(** Three splits of one transaction with the memos "a", "b" and "c". *)
Lemma xaccSplitOrder_consistent_witness :
  let sp m := set_memo (Some m) (set_parent (Some 1%positive) xaccInitSplit) in
  let tr := mkTransaction (Some ""%string) (Some ""%string) (Some ""%string)
              [1%positive; 2%positive; 3%positive]
              (mkTimespec 0 0) (mkTimespec 0 0) BEGIN_EDIT in
  let st := store_trans 1 tr
              (store_split 3 (sp "c"%string) (store_split 2 (sp "b"%string)
                 (store_split 1 (sp "a"%string) initial_engine))) in
  xaccSplitOrder st (Some 2%positive) (Some 1%positive) = Ok 1%Z
  ∧ ∃ r3, xaccSplitOrder st (Some 1%positive) (Some 3%positive) = Ok r3 ∧ (r3 < 0)%Z.
Proof.
  intros sp tr st.
  destruct (xaccSplitOrder_consistent st (Some 1%positive) (Some 2%positive)
              (Some 3%positive) (-1) (-1)) as (Hanti & Htrans & _).
  - reflexivity.
  - reflexivity.
  - split; [exact Hanti|]. apply Htrans; lia.
Defined.

(** ** The other split of a pair *)

(** What [xaccGetOtherSplit] returns on a live split with a live parent,
    by the length of the array. *)
Lemma xaccGetOtherSplit_cases st s sp t tr :
  split_heap st !! s = Some sp → parent sp = Some t →
  trans_heap st !! t = Some tr → s ∈ splits tr → NoDup (splits tr) →
  xaccGetOtherSplit st (Some s)
  = Ok (match splits tr with
        | [a; b] => if decide (s = a) then Some b else Some a
        | _ => None
        end).
Proof.
  intros Hs Hp Ht Hin Hnd. unfold xaccGetOtherSplit.
  rewrite (deref_split_live _ _ _ Hs). cbn [mbind outcome_bind]. rewrite Hp.
  rewrite (deref_trans_live _ _ _ Ht). cbn [mbind outcome_bind].
  destruct (splits tr) as [|a [|b [|c rest]]].
  - apply elem_of_nil in Hin. contradiction.
  - apply list_elem_of_singleton in Hin. subst a.
    cbn. rewrite bool_decide_eq_true_2 by reflexivity. reflexivity.
  - cbn. rewrite (decide_True (P := 2%nat = 2%nat)) by reflexivity.
    cbn [mbind outcome_bind].
    apply elem_of_cons in Hin. destruct Hin as [->|Hin].
    + rewrite bool_decide_eq_true_2 by reflexivity.
      rewrite decide_True by reflexivity. reflexivity.
    + apply list_elem_of_singleton in Hin. subst b.
      apply list.NoDup_cons in Hnd. destruct Hnd as [Hne _].
      rewrite not_elem_of_cons in Hne. destruct Hne as [Hne _].
      rewrite bool_decide_eq_false_2 by congruence.
      rewrite bool_decide_eq_true_2 by reflexivity.
      rewrite decide_False by congruence. reflexivity.
  - reflexivity.
Qed.

(** X11. In a well-formed engine [xaccGetOtherSplit] of a split that is in
    a transaction returns; it returns no split exactly when the
    transaction does not have two splits, and the split it returns is
    another split of the same transaction, a peer of the first, whose
    other split is the first one again.  The last [return NULL] of the
    function is not reached. *)
Theorem xaccGetOtherSplit_is_an_involution
    (st : Engine) (s t : positive) (sp : Split) (tr : Transaction) :
  engine_wf st →
  split_heap st !! s = Some sp → parent sp = Some t →
  trans_heap st !! t = Some tr →
  ∃ o, xaccGetOtherSplit st (Some s) = Ok o
       ∧ (o = None ↔ length (splits tr) ≠ 2%nat)
       ∧ ∀ j, o = Some j →
              j ≠ s ∧ j ∈ splits tr
              ∧ xaccGetOtherSplit st (Some j) = Ok (Some s)
              ∧ xaccIsPeerSplit st (Some s) (Some j) = Ok 1%Z.
Proof.
  intros W Hs Hp Ht.
  assert (Hin : s ∈ splits tr).
  { destruct (wf_parent _ W s sp t Hs Hp) as (tr' & Ht' & Hin). congruence. }
  pose proof (wf_nodup _ W t tr Ht) as Hnd.
  rewrite (xaccGetOtherSplit_cases st s sp t tr Hs Hp Ht Hin Hnd).
  eexists. split; [reflexivity|].
  assert (Hpeer : ∀ j, j ∈ splits tr → j ≠ s →
            length (splits tr) = 2%nat →
            xaccGetOtherSplit st (Some j) = Ok (Some s)
            ∧ xaccIsPeerSplit st (Some s) (Some j) = Ok 1%Z).
  { intros j Hj Hne Hlen.
    destruct (wf_member _ W t tr j Ht Hj) as (spj & Hsj & Hpj). split.
    - rewrite (xaccGetOtherSplit_cases st j spj t tr Hsj Hpj Ht Hj Hnd).
      destruct (splits tr) as [|a [|b [|c rest]]]; try discriminate Hlen.
      apply elem_of_cons in Hin. apply elem_of_cons in Hj.
      rewrite list_elem_of_singleton in Hin, Hj.
      destruct (decide (j = a)) as [->|Hja].
      + destruct Hin as [-> | ->]; [congruence | reflexivity].
      + destruct Hj as [-> | ->]; [congruence|].
        destruct Hin as [-> | ->]; [reflexivity | congruence].
    - unfold xaccIsPeerSplit.
      rewrite (deref_split_live _ _ _ Hs), (deref_split_live _ _ _ Hsj).
      cbn [mbind outcome_bind].
      rewrite bool_decide_eq_true_2 by congruence. reflexivity. }
  destruct (splits tr) as [|a [|b [|c rest]]] eqn:El.
  - apply elem_of_nil in Hin. contradiction.
  - split; [split; [intros _; discriminate | reflexivity]|]. intros j [=].
  - apply list.NoDup_cons in Hnd. destruct Hnd as [Hne _].
    rewrite not_elem_of_cons in Hne. destruct Hne as [Hne _].
    destruct (decide (s = a)) as [->|Hsa].
    + split; [split; [discriminate | intros C; contradiction C; reflexivity]|].
      intros j [= <-]. split; [congruence|]. split; [right; left|].
      apply Hpeer; [right; left | congruence | reflexivity].
    + split; [split; [discriminate | intros C; contradiction C; reflexivity]|].
      intros j [= <-]. split; [congruence|]. split; [left|].
      apply Hpeer; [left | congruence | reflexivity].
  - split; [split; [intros _; cbn [length]; lia | reflexivity]|]. intros j [=].
Qed.

(** The second split of a transaction with two splits. *)
Lemma xaccGetOtherSplit_is_an_involution_witness :
  let s1 := set_parent (Some 1%positive) xaccInitSplit in
  let s2 := set_parent (Some 1%positive) xaccInitSplit in
  let tr := mkTransaction (Some ""%string) (Some ""%string) (Some ""%string)
              [1%positive; 2%positive] (mkTimespec 0 0) (mkTimespec 0 0) BEGIN_EDIT in
  let st := store_trans 1 tr (store_split 2 s2 (store_split 1 s1 initial_engine)) in
  xaccGetOtherSplit st (Some 2%positive) = Ok (Some 1%positive)
  ∧ xaccGetOtherSplit st (Some 1%positive) = Ok (Some 2%positive).
Proof.
  intros s1 s2 tr st.
  destruct (xaccGetOtherSplit_is_an_involution st 2 1 s2 tr)
    as (o & Hrun & _ & Hback).
  - apply two_plain_splits_wf; reflexivity.
  - reflexivity.
  - reflexivity.
  - reflexivity.
  - assert (Ho : o = Some 1%positive) by (vm_compute in Hrun; congruence).
    subst o. split; [exact Hrun|].
    destruct (Hback 1%positive eq_refl) as (_ & _ & H & _). exact H.
Defined.

(** ** Appending a split *)

(** X12. In a well-formed engine, when [xaccTransAppendSplit] of a split
    that is in no transaction returns, the split is the new last entry of
    the array, after the entries the array had, and points back to the
    transaction with its other fields as they were.  The rebalance that
    ends the function has written at most the amount of the first split of
    the array; every other split and transaction is as it was. *)
Theorem xaccTransAppendSplit_adds_last
    (st st' : Engine) (t s : positive) (sp : Split) (tr : Transaction) :
  engine_wf st →
  split_heap st !! s = Some sp → parent sp = None →
  trans_heap st !! t = Some tr →
  xaccTransAppendSplit (Some t) (Some s) st = Ok st' →
  trans_heap st' = <[t := set_splits (splits tr ++ [s]) tr]> (trans_heap st)
  ∧ xaccTransCountSplits st' (Some t) = Ok (xaccCountSplits (splits tr) + 1)%Z
  ∧ split_heap st' !! s = Some (set_parent (Some t) sp)
  ∧ (∀ j, j ≠ s → Some j ≠ head (splits tr) →
          split_heap st' !! j = split_heap st !! j)
  ∧ (∀ j, Some j = head (splits tr) →
          ∃ d, split_heap st' !! j = set_damount d <$> split_heap st !! j).
Proof.
  intros W Hs Hp Ht H.
  assert (Hnin : s ∉ splits tr).
  { intros Hin. destruct (wf_member _ W t tr s Ht Hin) as (sp' & Hs' & Hp'). congruence. }
  unfold xaccTransAppendSplit, xaccTransAppendSplit_body in H.
  rewrite (CHECK_OPEN_live _ _ _ Ht) in H. cbn [mbind outcome_bind] in H.
  set (st1 := checked t tr st) in H.
  assert (Es1 : split_heap st1 = split_heap st) by apply checked_split_heap.
  assert (Et1 : trans_heap st1 = trans_heap st) by apply checked_trans_heap.
  assert (Hs1 : split_heap st1 !! s = Some sp) by (rewrite Es1; exact Hs).
  rewrite (deref_split_live _ _ _ Hs1) in H. cbn [mbind outcome_bind] in H.
  rewrite Hp in H. cbn [mbind outcome_bind] in H.
  rewrite (deref_split_live _ _ _ Hs1) in H. cbn [mbind outcome_bind] in H.
  set (sp2 := set_parent (Some t) sp) in *.
  set (st2 := store_split s sp2 st1) in H.
  assert (Ht2 : trans_heap st2 !! t = Some tr) by (unfold st2; simpl; rewrite Et1; exact Ht).
  rewrite (deref_trans_live _ _ _ Ht2) in H. cbn [mbind outcome_bind] in H.
  set (tr3 := set_splits (splits tr ++ [s]) tr) in *.
  set (st3 := store_trans t tr3 st2) in H.
  assert (Hs3 : split_heap st3 !! s = Some sp2) by (unfold st3, st2; simpl; apply lookup_insert_eq).
  assert (Es3 : ∀ j, j ≠ s → split_heap st3 !! j = split_heap st !! j).
  { intros j Hne. unfold st3, st2. simpl. rewrite lookup_insert_ne by congruence.
    rewrite Es1. reflexivity. }
  assert (Et3 : trans_heap st3 = <[t := tr3]> (trans_heap st)).
  { unfold st3, st2. simpl. rewrite Et1. reflexivity. }
  destruct (rebalance_touches_one_amount st3 st' s sp2 Hs3 H) as (_ & Hsome).
  destruct (Hsome t eq_refl) as (tr' & Ht' & _ & Et' & _ & Hother & Htarget).
  rewrite Et3, lookup_insert_eq in Ht'. injection Ht' as <-.
  assert (Etarget : balancing_split tr3 (Some s) = head (splits tr)).
  { unfold balancing_split. change (splits tr3) with (splits tr ++ [s]).
    destruct (splits tr) as [|h rest] eqn:El.
    - cbn. rewrite bool_decide_eq_true_2 by reflexivity. reflexivity.
    - cbn. rewrite bool_decide_eq_false_2; [reflexivity|].
      intros [= ->]. apply Hnin. left. }
  rewrite Etarget in Hother, Htarget.
  assert (Hns : Some s ≠ head (splits tr)).
  { intros C. symmetry in C. apply head_elem_of in C. exact (Hnin C). }
  split; [rewrite Et', Et3; reflexivity|].
  split; [|split; [|split]].
  - unfold xaccTransCountSplits, deref_trans. rewrite Et', Et3, lookup_insert_eq.
    cbn [mbind outcome_bind]. change (splits tr3) with (splits tr ++ [s]).
    unfold xaccCountSplits. rewrite length_app. cbn [length]. f_equal. lia.
  - rewrite (Hother s Hns). exact Hs3.
  - intros j Hne Hnh. rewrite (Hother j Hnh). apply Es3. exact Hne.
  - intros j Hj. destruct (Htarget j Hj) as (d & Hd). exists d.
    rewrite Hd, Es3; [reflexivity|]. intros ->. exact (Hns Hj).
Qed.

(** A third split is appended to a transaction with two splits. *)
Lemma xaccTransAppendSplit_adds_last_witness :
  let s1 := set_parent (Some 1%positive) xaccInitSplit in
  let s2 := set_parent (Some 1%positive) xaccInitSplit in
  let tr := mkTransaction (Some ""%string) (Some ""%string) (Some ""%string)
              [1%positive; 2%positive] (mkTimespec 0 0) (mkTimespec 0 0) BEGIN_EDIT in
  let st0 := store_trans 1 tr (store_split 2 s2 (store_split 1 s1 initial_engine)) in
  let st := snd (xaccMallocSplit st0) in
  ∃ st', xaccTransAppendSplit (Some 1%positive) (Some 3%positive) st = Ok st'
         ∧ splits <$> trans_heap st' !! 1%positive
           = Some [1%positive; 2%positive; 3%positive]
         ∧ xaccTransCountSplits st' (Some 1%positive) = Ok 3%Z.
Proof.
  intros s1 s2 tr st0 st.
  destruct (xaccTransAppendSplit (Some 1%positive) (Some 3%positive) st)
    as [st'| | |] eqn:E; try (vm_compute in E; discriminate E).
  exists st'. split; [reflexivity|].
  destruct (xaccTransAppendSplit_adds_last st st' 1 3 xaccInitSplit tr)
    as (Et & Hn & _).
  - apply xaccMallocSplit_wf. apply two_plain_splits_wf; reflexivity.
  - vm_compute. reflexivity.
  - reflexivity.
  - reflexivity.
  - exact E.
  - split; [|exact Hn]. rewrite Et, lookup_insert_eq. reflexivity.
Defined.

(** ** A transaction without splits *)

(** X13. [xaccTransRebalance] passes the first entry of the array to
    [xaccSplitRebalance], which reads its parent without a test: on a
    transaction without splits this is a read through NULL, also when
    [xaccTransCommitEdit] makes the call.  [xaccTransAppendSplit] runs into
    it when the split it is given is the only split of its transaction:
    it empties that array and has the transaction rebalanced. *)
Theorem rebalance_of_an_empty_transaction_faults
    (st : Engine) (t : positive) (tr : Transaction) :
  trans_heap st !! t = Some tr →
  (splits tr = [] →
   xaccTransRebalance (Some t) st = Fault
   ∧ xaccTransCommitEdit (Some t) st = Fault)
  ∧ (∀ s sp t' tr',
       split_heap st !! s = Some sp → parent sp = Some t' →
       trans_heap st !! t' = Some tr' → splits tr' = [s] →
       xaccTransAppendSplit (Some t) (Some s) st = Fault).
Proof.
  intros Ht. split; [intros Hl; split|].
  - unfold xaccTransRebalance, xaccTransRebalance_with.
    rewrite (deref_trans_live _ _ _ Ht). cbn [mbind outcome_bind].
    rewrite Hl. reflexivity.
  - unfold xaccTransCommitEdit.
    rewrite (CHECK_OPEN_live _ _ _ Ht). cbn [mbind outcome_bind].
    assert (Ht1 : trans_heap (checked t tr st) !! t = Some tr)
      by (rewrite checked_trans_heap; exact Ht).
    rewrite (deref_trans_live _ _ _ Ht1). cbn [mbind outcome_bind].
    unfold xaccTransRebalance, xaccTransRebalance_with, deref_trans. simpl.
    rewrite lookup_insert_eq. cbn [mbind outcome_bind]. simpl. rewrite Hl. reflexivity.
  - intros s sp t' tr' Hs Hp Ht' Hl'.
    unfold xaccTransAppendSplit, xaccTransAppendSplit_body.
    rewrite (CHECK_OPEN_live _ _ _ Ht). cbn [mbind outcome_bind].
    set (st1 := checked t tr st).
    assert (Hs1 : split_heap st1 !! s = Some sp)
      by (unfold st1; rewrite checked_split_heap; exact Hs).
    assert (Ht1 : trans_heap st1 !! t' = Some tr')
      by (unfold st1; rewrite checked_trans_heap; exact Ht').
    rewrite (deref_split_live _ _ _ Hs1). cbn [mbind outcome_bind].
    rewrite Hp. unfold xaccTransRemoveSplit.
    rewrite (deref_split_live _ _ _ Hs1). cbn [mbind outcome_bind].
    set (st2 := store_split s (set_parent None sp) st1).
    assert (Ht2 : trans_heap st2 !! t' = Some tr') by exact Ht1.
    rewrite (deref_trans_live _ _ _ Ht2). cbn [mbind outcome_bind].
    unfold xaccTransRebalance_with, deref_trans. simpl.
    rewrite lookup_insert_eq. cbn [mbind outcome_bind]. simpl.
    rewrite Hl'. cbn [compact]. rewrite bool_decide_eq_true_2 by reflexivity.
    reflexivity.
Qed.

(** Two transactions fresh from [xaccMallocTransaction]: the split of the
    second is appended to the first; or it is taken out of the second,
    which is then committed. *)
Lemma rebalance_of_an_empty_transaction_faults_witness :
  let st := snd (xaccMallocTransaction (snd (xaccMallocTransaction initial_engine))) in
  xaccTransCountSplits st (Some 2%positive) = Ok 1%Z
  ∧ xaccTransGetSplit st (Some 2%positive) 0 = Ok (Some 2%positive)
  ∧ xaccTransAppendSplit (Some 1%positive) (Some 2%positive) st = Fault
  ∧ ∃ st2, xaccTransRemoveSplit (Some 2%positive) (Some 2%positive) st = Ok st2
           ∧ xaccTransCommitEdit (Some 2%positive) st2 = Fault.
Proof.
  intros st. split; [reflexivity|]. split; [reflexivity|]. split.
  - assert (Ht : ∃ tr, trans_heap st !! 1%positive = Some tr) by (eexists; reflexivity).
    destruct Ht as (tr & Ht).
    destruct (rebalance_of_an_empty_transaction_faults st 1 tr Ht) as (_ & H).
    eapply (H 2%positive _ 2%positive); reflexivity.
  - destruct (xaccTransRemoveSplit (Some 2%positive) (Some 2%positive) st)
      as [st2| | |] eqn:E; try (vm_compute in E; discriminate E).
    exists st2. split; [reflexivity|].
    assert (Ht : ∃ tr, trans_heap st2 !! 2%positive = Some tr ∧ splits tr = []).
    { vm_compute in E. injection E as <-. eexists. split; reflexivity. }
    destruct Ht as (tr & Ht & Hl).
    destruct (rebalance_of_an_empty_transaction_faults st2 2 tr Ht) as (H & _).
    destruct (H Hl) as (_ & Hc). exact Hc.
Defined.

(** ** A deferred edit session *)

(** X14. [xaccTransBeginEdit] with [defer] set opens the transaction with
    the flag DEFER_REBALANCE and writes the Begin record.  Until the flag
    is cleared [xaccSplitRebalance] of a split of the transaction returns
    at once and changes nothing, whatever [force_double_entry] is, and
    [xaccSplitSetShareAmount] writes the amount of its split and no other
    split or transaction. *)
Theorem deferred_session_suspends_rebalance
    (st : Engine) (t s : positive) (tr : Transaction) (sp : Split)
    (defer : Z) (x : Qc) :
  trans_heap st !! t = Some tr →
  split_heap st !! s = Some sp → parent sp = Some t →
  (∀ a, acc sp = Some a → is_Some (accounts st !! a)) →
  defer ≠ 0%Z →
  ∃ st1, xaccTransBeginEdit (Some t) defer st = Ok st1
         ∧ trans_heap st1 = <[t := set_open 3 tr]> (trans_heap st)
         ∧ EvTransWriteLog t "B" ∈ trace st1
         ∧ xaccSplitRebalance (Some s) st1 = Ok st1
         ∧ ∃ st2, xaccSplitSetShareAmount (Some s) x st1 = Ok st2
                  ∧ split_heap st2 = <[s := set_damount x sp]> (split_heap st)
                  ∧ trans_heap st2 = trans_heap st1
                  ∧ force_double_entry st2 = force_double_entry st.
Proof.
  intros Ht Hs Hp Ha Hdefer.
  unfold xaccTransBeginEdit. rewrite (deref_trans_live _ _ _ Ht).
  cbn [mbind outcome_bind]. rewrite (eqb_false_of_ne _ Hdefer).
  change (Z.lor BEGIN_EDIT DEFER_REBALANCE) with 3%Z.
  set (st1 := xaccTransWriteLog t "B" (xaccOpenLog (store_trans t (set_open 3 tr) st))).
  assert (Ht1 : trans_heap st1 !! t = Some (set_open 3 tr)) by apply lookup_insert_eq.
  assert (Hskip : ∀ st' sp', split_heap st' !! s = Some sp' → parent sp' = Some t →
            trans_heap st' = trans_heap st1 →
            xaccSplitRebalance (Some s) st' = Ok st').
  { intros st' sp' Hs' Hp' Et'.
    unfold xaccSplitRebalance. cbn [xaccSplitRebalance_fuel].
    unfold xaccSplitRebalance_body.
    rewrite (deref_split_live _ _ _ Hs'). cbn [mbind outcome_bind]. rewrite Hp'.
    assert (Ht' : trans_heap st' !! t = Some (set_open 3 tr)) by (rewrite Et'; exact Ht1).
    rewrite (deref_trans_live _ _ _ Ht'). reflexivity. }
  exists st1. split; [reflexivity|]. split; [reflexivity|].
  split; [unfold st1; simpl; apply elem_of_app; right; left|].
  split; [apply (Hskip st1 sp Hs Hp eq_refl)|].
  unfold xaccSplitSetShareAmount.
  assert (Hs1 : split_heap st1 !! s = Some sp) by exact Hs.
  assert (Ha1 : ∀ a, acc sp = Some a → is_Some (accounts st1 !! a)) by exact Ha.
  rewrite (MARK_SPLIT_live st1 s sp Hs1 Ha1). cbn [mbind outcome_bind].
  assert (Hs2 : split_heap (marked sp st1) !! s = Some sp)
    by (rewrite marked_split_heap; exact Hs1).
  rewrite (deref_split_live _ _ _ Hs2). cbn [mbind outcome_bind].
  eexists. split.
  - apply (Hskip _ (set_damount x sp)).
    + simpl. apply lookup_insert_eq.
    + exact Hp.
    + simpl. apply marked_trans_heap.
  - simpl. rewrite marked_split_heap, marked_trans_heap, marked_force_double_entry.
    repeat split.
Qed.

(** With enforcement on, the amount 50 is set on the only split of a
    transaction in a deferred session. *)
Lemma deferred_session_suspends_rebalance_witness :
  let st := set_force_double_entry 1 (snd (xaccMallocTransaction initial_engine)) in
  ∃ st1 st2,
    xaccTransBeginEdit (Some 1%positive) 1 st = Ok st1
    ∧ xaccSplitSetShareAmount (Some 1%positive) (Q2Qc 50) st1 = Ok st2
    ∧ damount <$> split_heap st2 !! 1%positive = Some (Q2Qc 50)
    ∧ xaccTransCountSplits st2 (Some 1%positive) = Ok 1%Z.
Proof.
  intros st.
  assert (Ht : ∃ tr, trans_heap st !! 1%positive = Some tr ∧ splits tr = [1%positive])
    by (eexists; split; reflexivity).
  destruct Ht as (tr & Ht & Hl).
  destruct (deferred_session_suspends_rebalance st 1 1 tr
              (set_parent (Some 1%positive) xaccInitSplit) 1 (Q2Qc 50) Ht)
    as (st1 & Hbegin & Et1 & _ & _ & st2 & Hset & Es2 & Et2 & _).
  - reflexivity.
  - reflexivity.
  - discriminate.
  - discriminate.
  - exists st1, st2. split; [exact Hbegin|]. split; [exact Hset|]. split.
    + rewrite Es2, lookup_insert_eq. reflexivity.
    + unfold xaccTransCountSplits, deref_trans. rewrite Et2, Et1, lookup_insert_eq.
      cbn [mbind outcome_bind]. simpl. rewrite Hl. reflexivity.
Defined.

(** ** Transactions in one currency *)

(** A turn of the loop on an account of the currency that is the first
    candidate keeps it as the first candidate. *)
Lemma narrow_common c rb sb :
  ∃ rb', narrow (Some c) rb (Some c) sb = (Some c, rb').
Proof.
  unfold narrow. destruct rb as [y|]; rewrite ?safe_strcmp_eqb;
    repeat case_bool_decide; simpl; simplify_eq; eauto.
Qed.

Lemma resolve_loop_common st l c rb :
  (∀ s, s ∈ l → has_currency st c s) →
  ∃ rb', resolve_loop st l (Some c) rb = Ok (Some c, rb').
Proof.
  revert rb. induction l as [|s l IH]; intros rb Hl; cbn [resolve_loop].
  - eauto.
  - assert (Hl' : ∀ s', s' ∈ l → has_currency st c s') by (intros s' Hs'; apply Hl; right; exact Hs').
    destruct (force_double_entry st =? 0)%Z; [apply IH; exact Hl'|].
    destruct (Hl s) as (sp & a & ac & Hs & Ha & Hac & Hc); [left|].
    rewrite (deref_split_live _ _ _ Hs). cbn [mbind outcome_bind]. rewrite Ha.
    rewrite (deref_account_live _ _ _ Hac). cbn [mbind outcome_bind]. rewrite Hc.
    destruct (narrow_common c rb (empty_is_null (security ac))) as (rb' & ->).
    rewrite bool_decide_eq_false_2 by discriminate. cbn [andb].
    apply IH. exact Hl'.
Qed.

Lemma ComputeValue_loop_common st l skip c v :
  (∀ s, s ∈ l → has_currency st c s) →
  ∃ r, ComputeValue_loop st l skip (Some c) v = Ok r.
Proof.
  revert v. induction l as [|s l IH]; intros v Hl; cbn [ComputeValue_loop].
  - eauto.
  - assert (Hl' : ∀ s', s' ∈ l → has_currency st c s') by (intros s' Hs'; apply Hl; right; exact Hs').
    destruct (bool_decide (Some s = skip)); [apply IH; exact Hl'|].
    destruct (Hl s) as (sp & a & ac & Hs & Ha & Hac & Hc); [left|].
    rewrite (deref_split_live _ _ _ Hs). cbn [mbind outcome_bind]. rewrite Ha.
    rewrite bool_decide_eq_false_2 by discriminate. cbn [andb].
    rewrite (deref_account_live _ _ _ Hac). cbn [mbind outcome_bind].
    rewrite safe_strcmp_eqb, bool_decide_eq_true_2 by exact Hc.
    apply IH. exact Hl'.
Qed.

(** A rebalance from the source split of a transaction in one currency
    returns. *)
Lemma rebalance_common_runs st t tr s0 s1 rest c sp0 a0 ac0 :
  trans_heap st !! t = Some tr → splits tr = s0 :: s1 :: rest →
  Z.land DEFER_REBALANCE (open tr) = 0%Z →
  (∀ s, s ∈ splits tr → has_currency st c s) →
  split_heap st !! s0 = Some sp0 → parent sp0 = Some t →
  acc sp0 = Some a0 → accounts st !! a0 = Some ac0 →
  Z.land ACC_DEFER_REBALANCE (acc_open ac0) = 0%Z →
  ∃ rb, resolve_loop st (splits tr) (currency ac0) (empty_is_null (security ac0))
          = Ok (Some c, rb)
        ∧ ∃ st', xaccSplitRebalance (Some s0) st = Ok st'.
Proof.
  intros Ht Hl Htdef Hall Hs0 Hp0 Ha0 Hac0 Hadef.
  assert (Hc0 : currency ac0 = Some c).
  { destruct (Hall s0) as (sp & a & ac & Hs & Ha & Hac & Hc); [rewrite Hl; left|].
    congruence. }
  destruct (resolve_loop_common st (splits tr) c (empty_is_null (security ac0)) Hall)
    as (rb & Hres).
  exists rb. rewrite Hc0. split; [exact Hres|].
  unfold xaccSplitRebalance. cbn [xaccSplitRebalance_fuel]. unfold xaccSplitRebalance_body.
  rewrite (deref_split_live _ _ _ Hs0). cbn [mbind outcome_bind].
  rewrite Hp0, (deref_trans_live _ _ _ Ht). cbn [mbind outcome_bind].
  rewrite Htdef, Ha0, (deref_account_live _ _ _ Hac0).
  cbn [Z.eqb negb mbind outcome_bind]. rewrite Hadef. cbn [Z.eqb negb].
  rewrite Hc0, Hres. cbn [mbind outcome_bind fst].
  match goal with |- context [force_balance ?a (Some s0)] => set (app := a) end.
  assert (Hne : ∀ (X : outcome Engine), match splits tr with [] => AssertFail | _ :: _ => X end = X)
    by (intros X; rewrite Hl; reflexivity).
  rewrite Hne.
  unfold force_balance. rewrite Hl. cbn [head lookup list_lookup].
  rewrite bool_decide_eq_true_2 by reflexivity. rewrite <- Hl.
  unfold ComputeValue.
  destruct (ComputeValue_loop_common st (splits tr) (Some s1) c 0%Qc Hall) as (v & ->).
  cbn [mbind outcome_bind].
  destruct (Hall s1) as (sp1 & a1 & ac1 & Hs1 & Ha1 & Hac1 & Hc1); [rewrite Hl; right; left|].
  unfold xaccSplitSetBaseValue.
  rewrite (deref_split_live _ _ _ Hs1). cbn [mbind outcome_bind]. rewrite Ha1.
  rewrite (deref_account_live _ _ _ Hac1). cbn [mbind outcome_bind].
  rewrite safe_strcmp_eqb, bool_decide_eq_true_2 by exact Hc1.
  cbn [mbind outcome_bind].
  set (sp1' := set_damount (- v / share_price sp1)%Qc sp1).
  set (st1 := store_split s1 sp1' st).
  assert (Hs1' : split_heap st1 !! s1 = Some sp1') by apply lookup_insert_eq.
  assert (Ha1' : ∀ a, acc sp1' = Some a → is_Some (accounts st1 !! a)).
  { intros a E. change (acc sp1') with (acc sp1) in E. rewrite Ha1 in E.
    injection E as <-. exists ac1. exact Hac1. }
  rewrite (MARK_SPLIT_live st1 s1 sp1' Hs1' Ha1'). cbn [mbind outcome_bind].
  assert (Hs2 : split_heap (marked sp1' st1) !! s1 = Some sp1')
    by (rewrite marked_split_heap; exact Hs1').
  rewrite (deref_split_live _ _ _ Hs2). cbn [mbind outcome_bind].
  eexists. reflexivity.
Qed.

(** X15. With [force_double_entry] on, in a well-formed engine, take a
    transaction that is not in deferred mode, has two splits or more, all
    with accounts of the currency [c], the account of the first not in
    deferred mode, and a second split whose share price is not zero.  Then
    [xaccSplitRebalance] of the first split returns and the transaction
    has the splits it had.  In exact arithmetic (amounts and prices are
    rationals here, the rounding of the C doubles is not modelled) the
    values of its splits in [c] add up to zero. *)
Theorem single_currency_transaction_is_balanced
    (st : Engine) (t s0 s1 : positive) (rest : list positive)
    (tr : Transaction) (c : string) :
  force_double_entry st ≠ 0%Z →
  engine_wf st →
  trans_heap st !! t = Some tr → splits tr = s0 :: s1 :: rest →
  Z.land DEFER_REBALANCE (open tr) = 0%Z →
  (∀ s, s ∈ splits tr → has_currency st c s) →
  (∀ sp a ac, split_heap st !! s0 = Some sp → acc sp = Some a →
              accounts st !! a = Some ac →
              Z.land ACC_DEFER_REBALANCE (acc_open ac) = 0%Z) →
  (∀ sp, split_heap st !! s1 = Some sp → share_price sp ≠ 0%Qc) →
  ∃ st', xaccSplitRebalance (Some s0) st = Ok st'
         ∧ trans_heap st' = trans_heap st
         ∧ sum_of_values st' (Some c) (splits tr) = Some 0%Qc.
Proof.
  intros Hf W Ht Hl Htdef Hall Hadef Hprice.
  destruct (Hall s0) as (sp0 & a0 & ac0 & Hs0 & Ha0 & Hac0 & Hc0); [rewrite Hl; left|].
  destruct (wf_member _ W t tr s0 Ht) as (sp0' & Hs0' & Hp0); [rewrite Hl; left|].
  rewrite Hs0 in Hs0'. injection Hs0' as <-.
  destruct (rebalance_common_runs st t tr s0 s1 rest c sp0 a0 ac0
              Ht Hl Htdef Hall Hs0 Hp0 Ha0 Hac0 (Hadef sp0 a0 ac0 Hs0 Ha0 Hac0))
    as (rb & Hres & st' & Hrun).
  exists st'. split; [exact Hrun|].
  destruct (rebalance_source_balances st st' t tr s0 sp0 a0 ac0 c rb)
    as (Hsum & Et & _); try assumption.
  - rewrite Hl. reflexivity.
  - exact (Hadef sp0 a0 ac0 Hs0 Ha0 Hac0).
  - intros s1' sp1 Hlook Hs1. rewrite Hl in Hlook. injection Hlook as <-.
    exact (Hprice sp1 Hs1).
  - split; [exact Et | exact Hsum].
Qed.

(** Two splits in USD accounts, 100 on the source and 7 on the other: the
    rebalance puts -100 there. *)
Lemma single_currency_transaction_is_balanced_witness :
  let bank := mkAccount (Some "Bank"%string) (Some "USD"%string) (Some ""%string) 0 0 in
  let food := mkAccount (Some "Food"%string) (Some "USD"%string) (Some "IBM"%string) 0 0 in
  let s1 := set_damount (Q2Qc 100)
              (set_acc (Some 1%positive) (set_parent (Some 1%positive) xaccInitSplit)) in
  let s2 := set_damount (Q2Qc 7)
              (set_acc (Some 2%positive) (set_parent (Some 1%positive) xaccInitSplit)) in
  let tr := mkTransaction (Some ""%string) (Some ""%string) (Some ""%string)
              [1%positive; 2%positive] (mkTimespec 0 0) (mkTimespec 0 0) BEGIN_EDIT in
  let st := set_force_double_entry 1
              (store_trans 1 tr
                 (store_split 2 s2
                    (store_split 1 s1
                       (store_account 2 food
                          (store_account 1 bank initial_engine))))) in
  ∃ st', xaccSplitRebalance (Some 1%positive) st = Ok st'
         ∧ sum_of_values st' (Some "USD"%string) [1%positive; 2%positive] = Some 0%Qc.
Proof.
  intros bank food s1 s2 tr st.
  destruct (single_currency_transaction_is_balanced st 1 1 2 [] tr "USD"%string)
    as (st' & Hrun & _ & Hsum).
  - discriminate.
  - apply (engine_wf_heaps
             (store_trans 1 tr (store_split 2 s2 (store_split 1 s1 initial_engine))));
      [reflexivity | reflexivity | apply two_plain_splits_wf; reflexivity].
  - reflexivity.
  - reflexivity.
  - reflexivity.
  - intros s Hs. simpl in Hs. apply elem_of_cons in Hs. destruct Hs as [->|Hs].
    + exists s1, 1%positive, bank. repeat split.
    + apply list_elem_of_singleton in Hs. subst s.
      exists s2, 2%positive, food. repeat split.
  - intros sp a ac Hs Ha Hac. simpl in Hs.
    rewrite lookup_insert_ne, lookup_insert_eq in Hs by discriminate.
    injection Hs as <-. injection Ha as <-. simpl in Hac.
    rewrite lookup_insert_ne, lookup_insert_eq in Hac by discriminate.
    injection Hac as <-. reflexivity.
  - intros sp Hs. simpl in Hs. rewrite lookup_insert_eq in Hs. injection Hs as <-.
    discriminate.
  - exists st'. split; [exact Hrun | exact Hsum].
Defined.

(** ** Enforcement and splits without an account *)

Lemma resolve_loop_no_account st l ra rb j spj :
  force_double_entry st ≠ 0%Z →
  (∀ s, s ∈ l → ∃ sp, split_heap st !! s = Some sp
                      ∧ ∀ a, acc sp = Some a → is_Some (accounts st !! a)) →
  j ∈ l → split_heap st !! j = Some spj → acc spj = None →
  resolve_loop st l ra rb = AssertFail.
Proof.
  intros Hf. revert ra rb. induction l as [|s l IH]; intros ra rb Hl Hj Hsj Haj.
  - apply elem_of_nil in Hj. contradiction.
  - cbn [resolve_loop]. rewrite (eqb_false_of_ne _ Hf).
    destruct (Hl s) as (sp & Hs & Ha); [left|].
    rewrite (deref_split_live _ _ _ Hs). cbn [mbind outcome_bind].
    destruct (acc sp) as [a|] eqn:Ea; [|reflexivity].
    destruct (Ha a eq_refl) as (ac & Hac).
    rewrite (deref_account_live _ _ _ Hac). cbn [mbind outcome_bind].
    destruct (narrow _ _ _ _) as [ra' rb'].
    destruct (_ && _); [reflexivity|].
    apply IH; try assumption.
    + intros s' Hs'. apply Hl. right. exact Hs'.
    + apply elem_of_cons in Hj. destruct Hj as [->|Hj]; [congruence | exact Hj].
Qed.

Lemma ComputeValue_loop_no_account st l skip b v j spj :
  force_double_entry st ≠ 0%Z →
  (∀ s, s ∈ l → ∃ sp, split_heap st !! s = Some sp
                      ∧ ∀ a, acc sp = Some a → is_Some (accounts st !! a)) →
  j ∈ l → Some j ≠ skip → split_heap st !! j = Some spj → acc spj = None →
  ComputeValue_loop st l skip b v = AssertFail.
Proof.
  intros Hf. revert v. induction l as [|s l IH]; intros v Hl Hj Hskip Hsj Haj.
  - apply elem_of_nil in Hj. contradiction.
  - cbn [ComputeValue_loop].
    assert (Hl' : ∀ s', s' ∈ l → ∃ sp, split_heap st !! s' = Some sp
                   ∧ ∀ a, acc sp = Some a → is_Some (accounts st !! a))
      by (intros s' Hs'; apply Hl; right; exact Hs').
    case_bool_decide as Hsk.
    { apply IH; try assumption.
      apply elem_of_cons in Hj. destruct Hj as [->|Hj]; [contradiction | exact Hj]. }
    destruct (Hl s) as (sp & Hs & Ha); [left|].
    rewrite (deref_split_live _ _ _ Hs). cbn [mbind outcome_bind].
    rewrite (eqb_false_of_ne _ Hf), andb_false_r.
    destruct (acc sp) as [a|] eqn:Ea; [|reflexivity].
    destruct (Ha a eq_refl) as (ac & Hac).
    rewrite (deref_account_live _ _ _ Hac). cbn [mbind outcome_bind].
    assert (Hj' : j ∈ l).
    { apply elem_of_cons in Hj. destruct Hj as [->|Hj]; [congruence | exact Hj]. }
    destruct (_ =? 0)%Z; [apply IH; assumption|].
    destruct (_ =? 0)%Z; [apply IH; assumption | reflexivity].
Qed.

(** X16. With [force_double_entry] on, every split of a transaction that is
    rebalanced has to have an account.  In a well-formed engine with live
    accounts, for a transaction with two splits or more that is not in
    deferred mode, and a split of it whose account, if it has one, is not
    in deferred mode: when some split of the transaction has no account,
    [xaccSplitRebalance] stops on an assertion. *)
Theorem enforcement_requires_accounts
    (st : Engine) (t s j : positive) (tr : Transaction) (sp spj : Split) :
  force_double_entry st ≠ 0%Z →
  engine_wf st → accounts_live st →
  trans_heap st !! t = Some tr →
  Z.land DEFER_REBALANCE (open tr) = 0%Z →
  (2 ≤ length (splits tr))%nat →
  split_heap st !! s = Some sp → parent sp = Some t →
  (∀ a ac, acc sp = Some a → accounts st !! a = Some ac →
           Z.land ACC_DEFER_REBALANCE (acc_open ac) = 0%Z) →
  j ∈ splits tr → split_heap st !! j = Some spj → acc spj = None →
  xaccSplitRebalance (Some s) st = AssertFail.
Proof.
  intros Hf W Hlive Ht Htdef Hlen Hs Hp Hadef Hj Hsj Haj.
  assert (Hin : s ∈ splits tr).
  { destruct (wf_parent _ W s sp t Hs Hp) as (tr' & Ht' & Hin). congruence. }
  pose proof (wf_nodup _ W t tr Ht) as Hnd.
  assert (Hall : ∀ x, x ∈ splits tr → ∃ spx, split_heap st !! x = Some spx
                   ∧ ∀ a, acc spx = Some a → is_Some (accounts st !! a)).
  { intros x Hx. destruct (wf_member _ W t tr x Ht Hx) as (spx & Hsx & _).
    exists spx. split; [exact Hsx|]. intros a E. exact (Hlive x spx a Hsx E). }
  unfold xaccSplitRebalance. cbn [xaccSplitRebalance_fuel]. unfold xaccSplitRebalance_body.
  rewrite (deref_split_live _ _ _ Hs). cbn [mbind outcome_bind].
  rewrite Hp, (deref_trans_live _ _ _ Ht). cbn [mbind outcome_bind].
  rewrite Htdef. cbn [Z.eqb negb].
  match goal with |- context [force_balance ?a (Some s)] => set (app := a) end.
  assert (Hne : ∀ (X : outcome Engine),
            match splits tr with [] => AssertFail | _ :: _ => X end = X).
  { intros X. destruct (splits tr); [cbn [length] in Hlen; lia | reflexivity]. }
  destruct (acc sp) as [a|] eqn:Ea.
  - destruct (Hlive s sp a Hs Ea) as (ac & Hac).
    rewrite (deref_account_live _ _ _ Hac). cbn [mbind outcome_bind].
    rewrite (Hadef a ac eq_refl Hac). cbn [Z.eqb negb]. rewrite Hne.
    rewrite (resolve_loop_no_account st (splits tr) _ _ j spj Hf Hall Hj Hsj Haj).
    reflexivity.
  - rewrite Hne. unfold force_balance, ComputeValue.
    destruct (splits tr) as [|h [|h1 rest]] eqn:El;
      [cbn [length] in Hlen; lia | cbn [length] in Hlen; lia |].
    cbn [head lookup list_lookup]. rewrite <- El. rewrite <- El in Hin, Hall.
    case_bool_decide as Hh.
    + injection Hh as ->.
      assert (Hsk : Some h ≠ Some h1).
      { intros [= ->]. apply list.NoDup_cons in Hnd.
        destruct Hnd as [Hnd _]. apply Hnd. left. }
      rewrite (ComputeValue_loop_no_account st (splits tr) (Some h1) None 0%Qc h sp
                 Hf Hall Hin Hsk Hs Ea).
      reflexivity.
    + assert (Hsk : Some s ≠ Some h) by congruence.
      rewrite (ComputeValue_loop_no_account st (splits tr) (Some h) None 0%Qc s sp
                 Hf Hall Hin Hsk Hs Ea).
      reflexivity.
Qed.

(** With enforcement on, two splits without accounts: the rebalance of
    the first stops. *)
Lemma enforcement_requires_accounts_witness :
  let s1 := set_parent (Some 1%positive) xaccInitSplit in
  let s2 := set_parent (Some 1%positive) xaccInitSplit in
  let tr := mkTransaction (Some ""%string) (Some ""%string) (Some ""%string)
              [1%positive; 2%positive] (mkTimespec 0 0) (mkTimespec 0 0) BEGIN_EDIT in
  let st := set_force_double_entry 1
              (store_trans 1 tr (store_split 2 s2 (store_split 1 s1 initial_engine))) in
  xaccSplitRebalance (Some 1%positive) st = AssertFail.
Proof.
  intros s1 s2 tr st.
  apply (enforcement_requires_accounts st 1 1 2 tr s1 s2).
  - discriminate.
  - apply (engine_wf_heaps
             (store_trans 1 tr (store_split 2 s2 (store_split 1 s1 initial_engine))));
      [reflexivity | reflexivity | apply two_plain_splits_wf; reflexivity].
  - intros s sp a Hs Ha.
    apply (two_plain_splits_accounts_live s1 s2 tr eq_refl eq_refl s sp a Hs Ha).
  - reflexivity.
  - reflexivity.
  - simpl. lia.
  - reflexivity.
  - reflexivity.
  - discriminate.
  - right. left.
  - reflexivity.
  - reflexivity.
Defined.

(** ** Memo, action and reconcile flag of a split *)

(** A field of the split at [s] is written and the split is marked. *)
Lemma write_and_mark st s sp sp' :
  split_heap st !! s = Some sp →
  (∀ a, acc sp = Some a → is_Some (accounts st !! a)) →
  acc sp' = acc sp →
  ∃ st', MARK_SPLIT (Some s) (store_split s sp' st) = Ok st'
         ∧ split_heap st' = <[s := sp']> (split_heap st)
         ∧ trans_heap st' = trans_heap st
         ∧ trace st' = trace st
         ∧ ∀ a, acc sp = Some a → changed <$> accounts st' !! a = Some 1%Z.
Proof.
  intros Hs Ha Hacc.
  assert (Hs' : split_heap (store_split s sp' st) !! s = Some sp') by apply lookup_insert_eq.
  assert (Ha' : ∀ a, acc sp' = Some a → is_Some (accounts (store_split s sp' st) !! a))
    by (rewrite Hacc; exact Ha).
  rewrite (MARK_SPLIT_live _ s sp' Hs' Ha').
  eexists. split; [reflexivity|].
  rewrite marked_split_heap, marked_trans_heap, marked_trace.
  split; [reflexivity|]. split; [reflexivity|]. split; [reflexivity|].
  intros a Ea. unfold marked. rewrite Hacc, Ea.
  destruct (Ha a Ea) as (ac & Hac). simpl. rewrite Hac. simpl.
  rewrite lookup_insert_eq. reflexivity.
Qed.

(** X17. [xaccSplitSetMemo], [xaccSplitSetAction] and
    [xaccSplitSetReconcile] on a live split return, the getter of the field
    returns what was set and the getters of the other fields what they
    returned before; the account of the split is marked as changed.
    Unlike the setters of amount and price they start no rebalance: no
    other split and no transaction is written, whatever
    [force_double_entry] is.  A text that is NULL is handed to [strdup]:
    a fault. *)
Theorem split_text_setters_write_one_split
    (st : Engine) (s : positive) (sp : Split) (m : string) (r : ascii) :
  split_heap st !! s = Some sp →
  (∀ a, acc sp = Some a → is_Some (accounts st !! a)) →
  (∃ st', xaccSplitSetMemo (Some s) (Some m) st = Ok st'
          ∧ xaccSplitGetMemo st' (Some s) = Ok (Some m)
          ∧ xaccSplitGetAction st' (Some s) = Ok (action sp)
          ∧ xaccSplitGetReconcile st' (Some s) = Ok (reconciled sp)
          ∧ xaccSplitGetShareAmount st' (Some s) = Ok (damount sp)
          ∧ trans_heap st' = trans_heap st
          ∧ (∀ j, j ≠ s → split_heap st' !! j = split_heap st !! j)
          ∧ ∀ a, acc sp = Some a → changed <$> accounts st' !! a = Some 1%Z)
  ∧ (∃ st', xaccSplitSetAction (Some s) (Some m) st = Ok st'
            ∧ xaccSplitGetAction st' (Some s) = Ok (Some m)
            ∧ xaccSplitGetMemo st' (Some s) = Ok (memo sp)
            ∧ xaccSplitGetReconcile st' (Some s) = Ok (reconciled sp)
            ∧ xaccSplitGetShareAmount st' (Some s) = Ok (damount sp)
            ∧ trans_heap st' = trans_heap st
            ∧ (∀ j, j ≠ s → split_heap st' !! j = split_heap st !! j)
            ∧ ∀ a, acc sp = Some a → changed <$> accounts st' !! a = Some 1%Z)
  ∧ (∃ st', xaccSplitSetReconcile (Some s) r st = Ok st'
            ∧ xaccSplitGetReconcile st' (Some s) = Ok r
            ∧ xaccSplitGetMemo st' (Some s) = Ok (memo sp)
            ∧ xaccSplitGetAction st' (Some s) = Ok (action sp)
            ∧ xaccSplitGetShareAmount st' (Some s) = Ok (damount sp)
            ∧ trans_heap st' = trans_heap st
            ∧ (∀ j, j ≠ s → split_heap st' !! j = split_heap st !! j)
            ∧ (∀ a, acc sp = Some a → changed <$> accounts st' !! a = Some 1%Z)
            ∧ EvAccountRecomputeBalance (acc sp) ∈ trace st')
  ∧ xaccSplitSetMemo (Some s) None st = Fault
  ∧ xaccSplitSetAction (Some s) None st = Fault.
Proof.
  intros Hs Ha.
  assert (Hget : ∀ st' sp', split_heap st' = <[s := sp']> (split_heap st) →
            xaccSplitGetMemo st' (Some s) = Ok (memo sp')
            ∧ xaccSplitGetAction st' (Some s) = Ok (action sp')
            ∧ xaccSplitGetReconcile st' (Some s) = Ok (reconciled sp')
            ∧ xaccSplitGetShareAmount st' (Some s) = Ok (damount sp')
            ∧ ∀ j, j ≠ s → split_heap st' !! j = split_heap st !! j).
  { intros st' sp' Es.
    assert (Hs' : split_heap st' !! s = Some sp') by (rewrite Es; apply lookup_insert_eq).
    unfold xaccSplitGetMemo, xaccSplitGetAction, xaccSplitGetReconcile,
      xaccSplitGetShareAmount.
    rewrite (deref_split_live _ _ _ Hs'). repeat split.
    intros j Hne. rewrite Es. apply lookup_insert_ne. congruence. }
  split; [|split; [|split; [|split; reflexivity]]].
  - unfold xaccSplitSetMemo. cbn [strdup mbind outcome_bind].
    rewrite (deref_split_live _ _ _ Hs). cbn [mbind outcome_bind].
    destruct (write_and_mark st s sp (set_memo (Some m) sp) Hs Ha eq_refl)
      as (st' & Hrun & Es & Et & _ & Hch).
    destruct (Hget st' _ Es) as (G1 & G2 & G3 & G4 & G5).
    exists st'. repeat split; assumption.
  - unfold xaccSplitSetAction. cbn [strdup mbind outcome_bind].
    rewrite (deref_split_live _ _ _ Hs). cbn [mbind outcome_bind].
    destruct (write_and_mark st s sp (set_action (Some m) sp) Hs Ha eq_refl)
      as (st' & Hrun & Es & Et & _ & Hch).
    destruct (Hget st' _ Es) as (G1 & G2 & G3 & G4 & G5).
    exists st'. repeat split; assumption.
  - unfold xaccSplitSetReconcile.
    rewrite (deref_split_live _ _ _ Hs). cbn [mbind outcome_bind].
    destruct (write_and_mark st s sp (set_reconciled r sp) Hs Ha eq_refl)
      as (st' & Hrun & Es & Et & _ & Hch).
    rewrite Hrun. cbn [mbind outcome_bind].
    destruct (Hget (xaccAccountRecomputeBalance (acc sp) st') _ Es)
      as (G1 & G2 & G3 & G4 & G5).
    eexists. split; [reflexivity|]. repeat split; try assumption.
    simpl. apply elem_of_app. right. left.
Qed.

(** With enforcement on, the only split of a fresh transaction has the
    amount 50: [xaccSplitSetMemo] returns. *)
Lemma split_text_setters_write_one_split_witness :
  let sp := set_damount (Q2Qc 50) (set_parent (Some 1%positive) xaccInitSplit) in
  let st := set_force_double_entry 1
              (store_split 1 sp (snd (xaccMallocTransaction initial_engine))) in
  ∃ st', xaccSplitSetMemo (Some 1%positive) (Some "rent"%string) st = Ok st'
         ∧ xaccSplitGetMemo st' (Some 1%positive) = Ok (Some "rent"%string)
         ∧ xaccSplitGetShareAmount st' (Some 1%positive) = Ok (Q2Qc 50).
Proof.
  intros sp st.
  destruct (split_text_setters_write_one_split st 1 sp "rent"%string "y"%char)
    as ((st' & Hrun & Hm & _ & _ & Hd & _) & _).
  - reflexivity.
  - discriminate.
  - exists st'. split; [exact Hrun|]. split; [exact Hm | exact Hd].
Defined.

(** ** Reading the array of a transaction *)

Lemma array_get_cases {l : list positive} {i : nat} :
  (∀ s, l !! i = Some s → array_get l i = Ok (Some s))
  ∧ (i = length l → array_get l i = Ok None).
Proof.
  unfold array_get. split.
  - intros s ->. reflexivity.
  - intros ->. rewrite (lookup_ge_None_2 l (length l)) by lia.
    rewrite decide_True by reflexivity. reflexivity.
Qed.

(** X18. In a well-formed engine the indices below
    [xaccTransCountSplits] are the ones at which [xaccTransGetSplit]
    returns a split; the split is live, [xaccSplitGetParent] returns the
    transaction for it, and two indices never give the same split.  At
    the count itself the answer is NULL, as for a negative index. *)
Theorem xaccTransGetSplit_indexes_the_array
    (st : Engine) (t : positive) (tr : Transaction) :
  engine_wf st → trans_heap st !! t = Some tr →
  ∃ n, xaccTransCountSplits st (Some t) = Ok n
       ∧ (0 ≤ n)%Z
       ∧ (∀ i, (0 ≤ i < n)%Z →
               ∃ s, xaccTransGetSplit st (Some t) i = Ok (Some s)
                    ∧ xaccSplitGetParent st (Some s) = Ok (Some t))
       ∧ (∀ i j s, xaccTransGetSplit st (Some t) i = Ok (Some s) →
                   xaccTransGetSplit st (Some t) j = Ok (Some s) → i = j)
       ∧ xaccTransGetSplit st (Some t) n = Ok None
       ∧ (∀ i, (i < 0)%Z → xaccTransGetSplit st (Some t) i = Ok None).
Proof.
  intros W Ht. exists (Z.of_nat (length (splits tr))).
  assert (Hget : ∀ i, (0 ≤ i)%Z →
            xaccTransGetSplit st (Some t) i = array_get (splits tr) (Z.to_nat i)).
  { intros i Hi. unfold xaccTransGetSplit.
    destruct (Z.gtb_spec 0 i) as [Hlt|_]; [lia|].
    rewrite (deref_trans_live _ _ _ Ht). reflexivity. }
  assert (Hsome : ∀ i s, xaccTransGetSplit st (Some t) i = Ok (Some s) →
            (0 ≤ i)%Z ∧ splits tr !! Z.to_nat i = Some s).
  { intros i s H. destruct (Z.lt_ge_cases i 0) as [Hneg|Hpos].
    - unfold xaccTransGetSplit in H.
      destruct (Z.gtb_spec 0 i) as [_|Hge]; [discriminate | lia].
    - split; [exact Hpos|]. rewrite (Hget i Hpos) in H. unfold array_get in H.
      destruct (splits tr !! Z.to_nat i) as [s'|]; [congruence|].
      destruct (decide _); discriminate. }
  split; [|split; [lia|split; [|split; [|split]]]].
  - unfold xaccTransCountSplits. rewrite (deref_trans_live _ _ _ Ht). reflexivity.
  - intros i Hi.
    destruct (lookup_lt_is_Some_2 (splits tr) (Z.to_nat i)) as (s & Hs); [lia|].
    exists s. rewrite (Hget i) by lia.
    split; [apply array_get_cases; exact Hs|].
    destruct (wf_member _ W t tr s Ht) as (sp & Hsp & Hp);
      [apply (list_elem_of_lookup_2 _ _ _ Hs)|].
    unfold xaccSplitGetParent. rewrite (deref_split_live _ _ _ Hsp).
    cbn [mbind outcome_bind]. rewrite Hp. reflexivity.
  - intros i j s Hi Hj.
    destruct (Hsome i s Hi) as (Hi0 & Hli), (Hsome j s Hj) as (Hj0 & Hlj).
    pose proof (NoDup_lookup _ _ _ _ (wf_nodup _ W t tr Ht) Hli Hlj). lia.
  - rewrite Hget by lia. apply array_get_cases. lia.
  - intros i Hi. unfold xaccTransGetSplit.
    destruct (Z.gtb_spec 0 i) as [_|Hge]; [reflexivity | lia].
Qed.

(** The transaction with three splits. *)
Lemma xaccTransGetSplit_indexes_the_array_witness :
  let sp := set_parent (Some 1%positive) xaccInitSplit in
  let tr := mkTransaction (Some ""%string) (Some ""%string) (Some ""%string)
              [1%positive; 2%positive; 3%positive]
              (mkTimespec 0 0) (mkTimespec 0 0) BEGIN_EDIT in
  let st := store_trans 1 tr
              (store_split 3 sp (store_split 2 sp (store_split 1 sp initial_engine))) in
  xaccTransCountSplits st (Some 1%positive) = Ok 3%Z
  ∧ xaccTransGetSplit st (Some 1%positive) 3 = Ok None
  ∧ ∃ s, xaccTransGetSplit st (Some 1%positive) 2 = Ok (Some s)
         ∧ xaccSplitGetParent st (Some s) = Ok (Some 1%positive).
Proof.
  intros sp tr st.
  destruct (xaccTransGetSplit_indexes_the_array st 1 tr)
    as (n & Hn & _ & Hin & _ & Hend & _).
  - apply three_plain_splits_wf; reflexivity.
  - reflexivity.
  - assert (En : n = 3%Z) by (vm_compute in Hn; congruence).
    subst n. split; [exact Hn|]. split; [exact Hend|]. apply Hin. lia.
Defined.

(** ** The date of a transaction and the order *)

(** X19. In a well-formed engine [xaccTransSetDateSecs] on a live
    transaction returns, open or not.  It writes the seconds of the posted
    and of the entered time of that transaction and nothing else of it;
    the splits and the other transactions are as they were.
    [xaccTransGetDate] then returns the seconds, and [xaccTransOrder]
    places the transaction before every other transaction with later
    posted seconds and after every one with earlier posted seconds. *)
Theorem xaccTransSetDateSecs_places_the_transaction
    (st : Engine) (t : positive) (tr : Transaction) (secs : Z) :
  engine_wf st → trans_heap st !! t = Some tr →
  ∃ st',
    xaccTransSetDateSecs (Some t) secs st = Ok st'
    ∧ trans_heap st'
      = <[t := set_date_posted_sec secs (set_date_entered_sec secs tr)]> (trans_heap st)
    ∧ split_heap st' = split_heap st
    ∧ xaccTransGetDate st' (Some t) = Ok secs
    ∧ xaccTransGetNum st' (Some t) = Ok (num tr)
    ∧ xaccTransGetDescription st' (Some t) = Ok (description tr)
    ∧ xaccTransCountSplits st' (Some t) = xaccTransCountSplits st (Some t)
    ∧ ∀ u b, u ≠ t → trans_heap st !! u = Some b →
        ((secs < tv_sec (date_posted b))%Z →
         xaccTransOrder (trans_heap st' !! t) (trans_heap st' !! u) = (-1)%Z
         ∧ xaccTransOrder (trans_heap st' !! u) (trans_heap st' !! t) = 1%Z)
        ∧ ((tv_sec (date_posted b) < secs)%Z →
           xaccTransOrder (trans_heap st' !! t) (trans_heap st' !! u) = 1%Z
           ∧ xaccTransOrder (trans_heap st' !! u) (trans_heap st' !! t) = (-1)%Z).
Proof.
  intros W Ht. unfold xaccTransSetDateSecs.
  rewrite (CHECK_OPEN_live _ _ _ Ht). cbn [mbind outcome_bind].
  set (st1 := checked t tr st).
  assert (Es1 : split_heap st1 = split_heap st) by apply checked_split_heap.
  assert (Et1 : trans_heap st1 = trans_heap st) by apply checked_trans_heap.
  assert (Ht1 : trans_heap st1 !! t = Some tr) by (rewrite Et1; exact Ht).
  rewrite (deref_trans_live _ _ _ Ht1). cbn [mbind outcome_bind].
  set (tr2 := set_date_posted_sec secs (set_date_entered_sec secs tr)).
  destruct (for_each_reinsert (store_trans t tr2 st1) (splits tr))
    as (st' & Hrun & Es' & Et' & _).
  { intros s Hs. destruct (wf_member _ W t tr s Ht Hs) as (sp & Hsp & _).
    simpl. rewrite Es1. eauto. }
  exists st'. split; [exact Hrun|].
  assert (Et : trans_heap st' = <[t := tr2]> (trans_heap st))
    by (rewrite Et'; simpl; rewrite Et1; reflexivity).
  assert (Ht' : trans_heap st' !! t = Some tr2) by (rewrite Et; apply lookup_insert_eq).
  split; [exact Et|]. split; [rewrite Es'; exact Es1|].
  unfold xaccTransGetDate, xaccTransGetNum, xaccTransGetDescription, xaccTransCountSplits.
  rewrite (deref_trans_live _ _ _ Ht'), (deref_trans_live _ _ _ Ht).
  repeat (split; [reflexivity|]).
  intros u b Hne Hu.
  assert (Hu' : trans_heap st' !! u = Some b)
    by (rewrite Et, lookup_insert_ne by congruence; exact Hu).
  rewrite Ht', Hu'. cbn [xaccTransOrder tr2 set_date_posted_sec date_posted tv_sec].
  split; intros Hlt.
  - rewrite (proj2 (Z.ltb_lt _ _) Hlt).
    rewrite (proj2 (Z.ltb_ge _ _)) by lia.
    rewrite Z.gtb_ltb, (proj2 (Z.ltb_lt _ _) Hlt). split; reflexivity.
  - rewrite (proj2 (Z.ltb_lt _ _) Hlt).
    rewrite (proj2 (Z.ltb_ge _ _)) by lia.
    rewrite Z.gtb_ltb, (proj2 (Z.ltb_lt _ _) Hlt). split; reflexivity.
Qed.

(** Two fresh transactions: the first gets a later date than the second. *)
Lemma xaccTransSetDateSecs_places_the_transaction_witness :
  let st := snd (xaccMallocTransaction (snd (xaccMallocTransaction initial_engine))) in
  ∃ st', xaccTransSetDateSecs (Some 1%positive) 86400 st = Ok st'
         ∧ xaccTransGetDate st' (Some 1%positive) = Ok 86400%Z
         ∧ xaccTransOrder (trans_heap st' !! 2%positive) (trans_heap st' !! 1%positive)
           = (-1)%Z.
Proof.
  intros st.
  assert (Ht : ∃ tr, trans_heap st !! 1%positive = Some tr) by (eexists; reflexivity).
  destruct Ht as (tr & Ht).
  assert (Hu : ∃ b, trans_heap st !! 2%positive = Some b ∧ tv_sec (date_posted b) = 0%Z)
    by (eexists; split; reflexivity).
  destruct Hu as (b & Hu & Hb).
  destruct (xaccTransSetDateSecs_places_the_transaction st 1 tr 86400)
    as (st' & Hrun & _ & _ & Hdate & _ & _ & _ & Hord).
  - apply xaccMallocTransaction_wf, xaccMallocTransaction_wf, initial_engine_wf.
  - exact Ht.
  - exists st'. split; [exact Hrun|]. split; [exact Hdate|].
    destruct (Hord 2%positive b) as (_ & Hafter); [discriminate | exact Hu |].
    apply Hafter. rewrite Hb. lia.
Defined.

(** ** A base currency the account does not have *)

(** X20. For a split whose account has the base currency neither as its
    currency nor as its security (and the base currency is not NULL, or
    [force_double_entry] is on), [xaccSplitSetBaseValue] prints a message
    and writes nothing, and [xaccSplitGetBaseValue] prints a message and
    returns 0: a value that was set is not read back. *)
Theorem base_value_in_a_foreign_currency
    (st : Engine) (s a : positive) (sp : Split) (ac : Account)
    (base_currency : option string) (value : Qc) :
  split_heap st !! s = Some sp →
  acc sp = Some a →
  accounts st !! a = Some ac →
  currency ac ≠ base_currency → security ac ≠ base_currency →
  base_currency ≠ None ∨ force_double_entry st ≠ 0%Z →
  ∃ st1 st2,
    xaccSplitSetBaseValue (Some s) value base_currency st = Ok st1
    ∧ split_heap st1 = split_heap st
    ∧ EvPrintf (MsgSetBaseValue base_currency) ∈ trace st1
    ∧ xaccSplitGetBaseValue (Some s) base_currency st1 = Ok (0%Qc, st2)
    ∧ EvPrintf (MsgGetBaseValue base_currency) ∈ trace st2.
Proof.
  intros Hs Ha Hac Hc Hsec Hnull.
  assert (Hcond : ∀ st', force_double_entry st' = force_double_entry st →
            bool_decide (base_currency = None) && (force_double_entry st' =? 0)%Z = false).
  { intros st' ->. destruct Hnull as [Hn|Hf].
    - rewrite bool_decide_eq_false_2 by exact Hn. reflexivity.
    - rewrite (eqb_false_of_ne _ Hf). apply andb_false_r. }
  set (st1 := emit (EvPrintf (MsgSetBaseValue base_currency)) st).
  exists st1, (emit (EvPrintf (MsgGetBaseValue base_currency)) st1).
  split; [|split; [reflexivity|split; [|split]]].
  - unfold xaccSplitSetBaseValue.
    rewrite (deref_split_live _ _ _ Hs). cbn [mbind outcome_bind]. rewrite Ha.
    rewrite (deref_account_live _ _ _ Hac). cbn [mbind outcome_bind].
    rewrite !safe_strcmp_eqb.
    rewrite !bool_decide_eq_false_2 by assumption.
    rewrite (Hcond st eq_refl). reflexivity.
  - unfold st1. simpl. apply elem_of_app. right. left.
  - unfold xaccSplitGetBaseValue.
    assert (Hs1 : split_heap st1 !! s = Some sp) by exact Hs.
    assert (Hac1 : accounts st1 !! a = Some ac) by exact Hac.
    rewrite (deref_split_live _ _ _ Hs1). cbn [mbind outcome_bind]. rewrite Ha.
    rewrite (deref_account_live _ _ _ Hac1). cbn [mbind outcome_bind].
    rewrite !safe_strcmp_eqb.
    rewrite !bool_decide_eq_false_2 by assumption.
    rewrite (Hcond st1 eq_refl). reflexivity.
  - simpl. apply elem_of_app. right. left.
Qed.

(** A split in a USD account is given a value in EUR. *)
Lemma base_value_in_a_foreign_currency_witness :
  let bank := mkAccount (Some "Bank"%string) (Some "USD"%string) (Some ""%string) 0 0 in
  let sp := set_damount (Q2Qc 5) (set_acc (Some 1%positive) xaccInitSplit) in
  let st := store_split 1 sp (store_account 1 bank initial_engine) in
  ∃ st1 st2,
    xaccSplitSetBaseValue (Some 1%positive) (Q2Qc 100) (Some "EUR"%string) st = Ok st1
    ∧ xaccSplitGetShareAmount st1 (Some 1%positive) = Ok (Q2Qc 5)
    ∧ xaccSplitGetBaseValue (Some 1%positive) (Some "EUR"%string) st1 = Ok (0%Qc, st2).
Proof.
  intros bank sp st.
  destruct (base_value_in_a_foreign_currency st 1 1 sp bank (Some "EUR"%string) (Q2Qc 100))
    as (st1 & st2 & Hset & Es & _ & Hget & _).
  - reflexivity.
  - reflexivity.
  - reflexivity.
  - discriminate.
  - discriminate.
  - left. discriminate.
  - exists st1, st2. split; [exact Hset|]. split; [|exact Hget].
    unfold xaccSplitGetShareAmount, deref_split. rewrite Es. reflexivity.
Defined.

(** ** The commit of a transaction in one currency *)

(** The two loops of [xaccTransCommitEdit] end well on live splits. *)
Lemma for_each_notify body (ev : Split → positive → Event) l st :
  (∀ s st0, body s st0 = (sp ← deref_split st0 (Some s); Ok (emit (ev sp s) st0))) →
  (∀ s, s ∈ l → is_Some (split_heap st !! s)) →
  ∃ st', for_each body l st = Ok st' ∧ same_books st st'
         ∧ ∀ e, e ∈ trace st → e ∈ trace st'.
Proof.
  intros Hbody. revert st. induction l as [|s l IH]; intros st Hl; cbn [for_each].
  - exists st. split; [reflexivity|]. split; [apply same_books_refl | trivial].
  - destruct (Hl s) as (sp & Hs); [left|].
    rewrite Hbody, (deref_split_live _ _ _ Hs). cbn [mbind outcome_bind].
    destruct (IH (emit (ev sp s) st)) as (st' & Hrun & Hsame & Htr).
    { intros s' Hs'. simpl. apply Hl. right. exact Hs'. }
    exists st'. split; [exact Hrun|]. split.
    + eapply same_books_trans; [|exact Hsame]. repeat split.
    + intros e He. apply Htr. simpl. apply elem_of_app. left. exact He.
Qed.

(** X21. With [force_double_entry] on, in a well-formed engine, take a
    transaction with two splits or more, all with accounts of the currency
    [c], the account of the first not in deferred mode, and a second split
    whose share price is not zero.  Then [xaccTransCommitEdit] returns,
    also when the transaction was in deferred mode: the flag is cleared
    before the rebalance.  The transaction is closed, has the splits it
    had, and the Commit record is written.  In exact arithmetic (amounts
    and prices are rationals here, the rounding of the C doubles is not
    modelled) the values of its splits in [c] add up to zero. *)
Theorem commit_of_single_currency_transaction_returns
    (st : Engine) (t s0 s1 : positive) (rest : list positive)
    (tr : Transaction) (c : string) :
  force_double_entry st ≠ 0%Z →
  engine_wf st →
  trans_heap st !! t = Some tr → splits tr = s0 :: s1 :: rest →
  (∀ s, s ∈ splits tr → has_currency st c s) →
  (∀ sp a ac, split_heap st !! s0 = Some sp → acc sp = Some a →
              accounts st !! a = Some ac →
              Z.land ACC_DEFER_REBALANCE (acc_open ac) = 0%Z) →
  (∀ sp, split_heap st !! s1 = Some sp → share_price sp ≠ 0%Qc) →
  ∃ st' tr', xaccTransCommitEdit (Some t) st = Ok st'
             ∧ trans_heap st' !! t = Some tr'
             ∧ open tr' = 0%Z
             ∧ splits tr' = splits tr
             ∧ sum_of_values st' (Some c) (splits tr') = Some 0%Qc
             ∧ EvTransWriteLog t "C" ∈ trace st'.
Proof.
  intros Hf W Ht Hl Hall Hadef Hprice.
  destruct (Hall s0) as (sp0 & a0 & ac0 & Hs0 & Ha0 & Hac0 & Hc0); [rewrite Hl; left|].
  destruct (wf_member _ W t tr s0 Ht) as (sp0' & Hs0' & Hp0); [rewrite Hl; left|].
  rewrite Hs0 in Hs0'. injection Hs0' as <-.
  unfold xaccTransCommitEdit.
  rewrite (CHECK_OPEN_live _ _ _ Ht). cbn [mbind outcome_bind].
  set (st1 := checked t tr st).
  assert (Ht1 : trans_heap st1 !! t = Some tr)
    by (unfold st1; rewrite checked_trans_heap; exact Ht).
  rewrite (deref_trans_live _ _ _ Ht1). cbn [mbind outcome_bind].
  set (tr2 := set_open (Z.land (open tr) (Z.lnot DEFER_REBALANCE)) tr).
  set (st2 := store_trans t tr2 st1).
  assert (Ht2 : trans_heap st2 !! t = Some tr2) by apply lookup_insert_eq.
  assert (Es2 : split_heap st2 = split_heap st)
    by (unfold st2, st1; simpl; apply checked_split_heap).
  assert (Ea2 : accounts st2 = accounts st)
    by (unfold st2, st1; simpl; apply checked_accounts).
  assert (Ef2 : force_double_entry st2 = force_double_entry st)
    by (unfold st2, st1; simpl; apply checked_force_double_entry).
  assert (W2 : engine_wf st2).
  { apply (keeps_store_trans st1 t tr tr2 Ht1 eq_refl).
    apply (engine_wf_heaps st); [apply checked_split_heap | apply checked_trans_heap | exact W]. }
  assert (Hall2 : ∀ s, s ∈ splits tr2 → has_currency st2 c s).
  { intros s Hs. destruct (Hall s Hs) as (sp & a & ac & H1 & H2 & H3 & H4).
    exists sp, a, ac. rewrite Es2, Ea2. auto. }
  assert (Hs02 : split_heap st2 !! s0 = Some sp0) by (rewrite Es2; exact Hs0).
  assert (Hac02 : accounts st2 !! a0 = Some ac0) by (rewrite Ea2; exact Hac0).
  pose proof (Hadef sp0 a0 ac0 Hs0 Ha0 Hac0) as Hadef0.
  destruct (rebalance_common_runs st2 t tr2 s0 s1 rest c sp0 a0 ac0
              Ht2 Hl (land_defer_cleared (open tr)) Hall2 Hs02 Hp0 Ha0 Hac02 Hadef0)
    as (rb & Hres & st3 & Hreb).
  unfold xaccTransRebalance, xaccTransRebalance_with.
  rewrite (deref_trans_live _ _ _ Ht2). cbn [mbind outcome_bind].
  change (splits tr2) with (splits tr). rewrite Hl. cbn [head]. rewrite <- Hl.
  rewrite Hreb. cbn [mbind outcome_bind].
  destruct (rebalance_source_balances st2 st3 t tr2 s0 sp0 a0 ac0 c rb)
    as (Hsum & Et3 & Ef3); try assumption.
  { rewrite Ef2. exact Hf. }
  { change (splits tr2) with (splits tr). rewrite Hl. reflexivity. }
  { apply land_defer_cleared. }
  { intros s1' sp1 E1 E2. change (splits tr2) with (splits tr) in E1.
    rewrite Hl in E1. injection E1 as <-. rewrite Es2 in E2. exact (Hprice sp1 E2). }
  assert (Ht3 : trans_heap st3 !! t = Some tr2) by (rewrite Et3; exact Ht2).
  rewrite (deref_trans_live _ _ _ Ht3). cbn [mbind outcome_bind].
  destruct (xaccSplitRebalance_fuel_keeps 2 (Some s0) st2 st3 Hreb) as (_ & Hkept).
  assert (Hlive3 : ∀ s, s ∈ splits tr2 → is_Some (split_heap st3 !! s)).
  { intros s Hs. destruct (wf_member _ W2 t tr2 s Ht2 Hs) as (sp & Hsp & _).
    destruct (Hkept s sp Hsp) as (sp' & Hsp' & _). eauto. }
  destruct (for_each_notify check_date_order
              (λ sp s, EvCheckDateOrder (acc sp) (Some s)) (splits tr2) st3)
    as (st4 & Hloop1 & (Ef4 & Ea4 & Es4 & Et4) & Htr4);
    [reflexivity | exact Hlive3 |].
  rewrite Hloop1. cbn [mbind outcome_bind].
  destruct (for_each_notify recompute_balance
              (λ sp s, EvAccountRecomputeBalance (acc sp)) (splits tr2) st4)
    as (st5 & Hloop2 & (Ef5 & Ea5 & Es5 & Et5) & Htr5);
    [reflexivity | intros s Hs; rewrite Es4; exact (Hlive3 s Hs) |].
  rewrite Hloop2. cbn [mbind outcome_bind].
  assert (Ht5 : trans_heap st5 !! t = Some tr2) by (rewrite Et5, Et4; exact Ht3).
  rewrite (deref_trans_live _ _ _ Ht5). cbn [mbind outcome_bind].
  eexists. exists (set_open 0 tr2). split; [reflexivity|].
  split; [apply lookup_insert_eq|]. split; [reflexivity|]. split; [reflexivity|].
  split.
  - change (splits (set_open 0 tr2)) with (splits tr2).
    rewrite <- Hsum. apply sum_of_values_ext.
    + intros s _. simpl. rewrite Es5, Es4. reflexivity.
    + intros a. simpl. rewrite Ea5, Ea4. reflexivity.
  - simpl. apply elem_of_app. right. left.
Qed.

(** Two splits in USD accounts in a deferred session, 100 on the source
    and 7 on the other: the commit puts -100 there. *)
Lemma commit_of_single_currency_transaction_returns_witness :
  let bank := mkAccount (Some "Bank"%string) (Some "USD"%string) (Some ""%string) 0 0 in
  let food := mkAccount (Some "Food"%string) (Some "USD"%string) (Some "IBM"%string) 0 0 in
  let s1 := set_damount (Q2Qc 100)
              (set_acc (Some 1%positive) (set_parent (Some 1%positive) xaccInitSplit)) in
  let s2 := set_damount (Q2Qc 7)
              (set_acc (Some 2%positive) (set_parent (Some 1%positive) xaccInitSplit)) in
  let tr := mkTransaction (Some ""%string) (Some ""%string) (Some ""%string)
              [1%positive; 2%positive] (mkTimespec 0 0) (mkTimespec 0 0)
              (Z.lor BEGIN_EDIT DEFER_REBALANCE) in
  let st := set_force_double_entry 1
              (store_trans 1 tr
                 (store_split 2 s2
                    (store_split 1 s1
                       (store_account 2 food
                          (store_account 1 bank initial_engine))))) in
  ∃ st', xaccTransCommitEdit (Some 1%positive) st = Ok st'
         ∧ open <$> trans_heap st' !! 1%positive = Some 0%Z
         ∧ sum_of_values st' (Some "USD"%string) [1%positive; 2%positive] = Some 0%Qc.
Proof.
  intros bank food s1 s2 tr st.
  destruct (commit_of_single_currency_transaction_returns st 1 1 2 [] tr "USD"%string)
    as (st' & tr' & Hrun & Ht' & Hopen & Hl' & Hsum & _).
  - discriminate.
  - apply (engine_wf_heaps
             (store_trans 1 tr (store_split 2 s2 (store_split 1 s1 initial_engine))));
      [reflexivity | reflexivity | apply two_plain_splits_wf; reflexivity].
  - reflexivity.
  - reflexivity.
  - intros s Hs. simpl in Hs. apply elem_of_cons in Hs. destruct Hs as [->|Hs].
    + exists s1, 1%positive, bank. repeat split.
    + apply list_elem_of_singleton in Hs. subst s.
      exists s2, 2%positive, food. repeat split.
  - intros sp a ac Hs Ha Hac. simpl in Hs.
    rewrite lookup_insert_ne, lookup_insert_eq in Hs by discriminate.
    injection Hs as <-. injection Ha as <-. simpl in Hac.
    rewrite lookup_insert_ne, lookup_insert_eq in Hac by discriminate.
    injection Hac as <-. reflexivity.
  - intros sp Hs. simpl in Hs. rewrite lookup_insert_eq in Hs. injection Hs as <-.
    discriminate.
  - exists st'. split; [exact Hrun|]. split.
    + rewrite Ht'. simpl. rewrite Hopen. reflexivity.
    + rewrite Hl' in Hsum. exact Hsum.
Defined.

(** ** Mixed currencies without enforcement *)

Lemma resolve_loop_off st l ra rb :
  force_double_entry st = 0%Z → resolve_loop st l ra rb = Ok (ra, rb).
Proof.
  intros Hf. induction l as [|s l IH]; cbn [resolve_loop]; [reflexivity|].
  rewrite Hf. exact IH.
Qed.

Lemma ComputeValue_loop_foreign st l skip c v j spj aj acj :
  (∀ s, s ∈ l → ∃ sp, split_heap st !! s = Some sp
                      ∧ ∀ a, acc sp = Some a → is_Some (accounts st !! a)) →
  j ∈ l → Some j ≠ skip →
  split_heap st !! j = Some spj → acc spj = Some aj → accounts st !! aj = Some acj →
  currency acj ≠ Some c → security acj ≠ Some c →
  ComputeValue_loop st l skip (Some c) v = AssertFail.
Proof.
  revert v. induction l as [|s l IH]; intros v Hl Hj Hskip Hsj Haj Hacj Hcur Hsec.
  - apply elem_of_nil in Hj. contradiction.
  - cbn [ComputeValue_loop].
    assert (Hl' : ∀ s', s' ∈ l → ∃ sp, split_heap st !! s' = Some sp
                   ∧ ∀ a, acc sp = Some a → is_Some (accounts st !! a))
      by (intros s' Hs'; apply Hl; right; exact Hs').
    case_bool_decide as Hsk.
    { apply IH; try assumption.
      apply elem_of_cons in Hj. destruct Hj as [->|Hj]; [contradiction | exact Hj]. }
    destruct (decide (j = s)) as [->|Hne].
    + rewrite (deref_split_live _ _ _ Hsj). cbn [mbind outcome_bind]. rewrite Haj.
      rewrite bool_decide_eq_false_2 by discriminate. cbn [andb].
      rewrite (deref_account_live _ _ _ Hacj). cbn [mbind outcome_bind].
      rewrite !safe_strcmp_eqb, !bool_decide_eq_false_2 by assumption.
      reflexivity.
    + assert (Hj' : j ∈ l).
      { apply elem_of_cons in Hj. destruct Hj as [->|Hj]; [congruence | exact Hj]. }
      destruct (Hl s) as (sp & Hs & Ha); [left|].
      rewrite (deref_split_live _ _ _ Hs). cbn [mbind outcome_bind].
      destruct (acc sp) as [a|] eqn:Ea.
      * rewrite bool_decide_eq_false_2 by discriminate. cbn [andb].
        destruct (Ha a eq_refl) as (ac & Hac).
        rewrite (deref_account_live _ _ _ Hac). cbn [mbind outcome_bind].
        destruct (_ =? 0)%Z; [eapply IH; eassumption|].
        destruct (_ =? 0)%Z; [eapply IH; eassumption | reflexivity].
      * destruct (_ =? 0)%Z; [eapply IH; eassumption | reflexivity].
Qed.

(** X22. Turning [force_double_entry] off does not turn off the assertion
    of [ComputeValue].  In a well-formed engine with live accounts, with
    [force_double_entry] off, take a transaction that is not in deferred
    mode, whose first split has an account of the currency [c] that is not
    in deferred mode, and which has, besides its second split, a split
    with an account that has [c] neither as its currency nor as its
    security.  Then [xaccSplitRebalance] of the first split stops on the
    assertion "inconsistent currencies". *)
Theorem mixed_currencies_abort_without_enforcement
    (st : Engine) (t s0 s1 j a0 aj : positive) (rest : list positive)
    (tr : Transaction) (sp0 spj : Split) (ac0 acj : Account) (c : string) :
  force_double_entry st = 0%Z →
  engine_wf st → accounts_live st →
  trans_heap st !! t = Some tr → splits tr = s0 :: s1 :: rest →
  Z.land DEFER_REBALANCE (open tr) = 0%Z →
  split_heap st !! s0 = Some sp0 → acc sp0 = Some a0 →
  accounts st !! a0 = Some ac0 →
  Z.land ACC_DEFER_REBALANCE (acc_open ac0) = 0%Z →
  currency ac0 = Some c →
  j ∈ rest →
  split_heap st !! j = Some spj → acc spj = Some aj →
  accounts st !! aj = Some acj →
  currency acj ≠ Some c → security acj ≠ Some c →
  xaccSplitRebalance (Some s0) st = AssertFail.
Proof.
  intros Hf W Hlive Ht Hl Htdef Hs0 Ha0 Hac0 Hadef Hc0 Hj Hsj Haj Hacj Hcur Hsec.
  destruct (wf_member _ W t tr s0 Ht) as (sp0' & Hs0' & Hp0); [rewrite Hl; left|].
  rewrite Hs0 in Hs0'. injection Hs0' as <-.
  pose proof (wf_nodup _ W t tr Ht) as Hnd.
  assert (Hall : ∀ x, x ∈ splits tr → ∃ spx, split_heap st !! x = Some spx
                   ∧ ∀ a, acc spx = Some a → is_Some (accounts st !! a)).
  { intros x Hx. destruct (wf_member _ W t tr x Ht Hx) as (spx & Hsx & _).
    exists spx. split; [exact Hsx|]. intros a E. exact (Hlive x spx a Hsx E). }
  assert (Hjin : j ∈ splits tr) by (rewrite Hl; right; right; exact Hj).
  assert (Hjs1 : Some j ≠ Some s1).
  { intros [= ->]. rewrite Hl in Hnd. apply list.NoDup_cons in Hnd.
    destruct Hnd as [_ Hnd]. apply list.NoDup_cons in Hnd.
    destruct Hnd as [Hnd _]. exact (Hnd Hj). }
  unfold xaccSplitRebalance. cbn [xaccSplitRebalance_fuel]. unfold xaccSplitRebalance_body.
  rewrite (deref_split_live _ _ _ Hs0). cbn [mbind outcome_bind].
  rewrite Hp0, (deref_trans_live _ _ _ Ht). cbn [mbind outcome_bind].
  rewrite Htdef, Ha0, (deref_account_live _ _ _ Hac0).
  cbn [Z.eqb negb mbind outcome_bind]. rewrite Hadef. cbn [Z.eqb negb].
  match goal with |- context [force_balance ?a (Some s0)] => set (app := a) end.
  assert (Hne : ∀ (X : outcome Engine),
            match splits tr with [] => AssertFail | _ :: _ => X end = X)
    by (intros X; rewrite Hl; reflexivity).
  rewrite Hne, (resolve_loop_off st _ _ _ Hf). cbn [mbind outcome_bind fst].
  rewrite Hc0. unfold force_balance. rewrite Hl. cbn [head lookup list_lookup].
  rewrite bool_decide_eq_true_2 by reflexivity. rewrite <- Hl.
  unfold ComputeValue.
  rewrite (ComputeValue_loop_foreign st (splits tr) (Some s1) c 0%Qc j spj aj acj
             Hall Hjin Hjs1 Hsj Haj Hacj Hcur Hsec).
  reflexivity.
Qed.

(** Enforcement is off; three splits in accounts of USD, USD and EUR. *)
Lemma mixed_currencies_abort_without_enforcement_witness :
  let usd := mkAccount (Some "Bank"%string) (Some "USD"%string) (Some ""%string) 0 0 in
  let eur := mkAccount (Some "Konto"%string) (Some "EUR"%string) (Some ""%string) 0 0 in
  let s1 := set_acc (Some 1%positive) (set_parent (Some 1%positive) xaccInitSplit) in
  let s3 := set_acc (Some 2%positive) (set_parent (Some 1%positive) xaccInitSplit) in
  let tr := mkTransaction (Some ""%string) (Some ""%string) (Some ""%string)
              [1%positive; 2%positive; 3%positive]
              (mkTimespec 0 0) (mkTimespec 0 0) BEGIN_EDIT in
  let st := store_account 2 eur (store_account 1 usd
              (store_trans 1 tr
                 (store_split 3 s3 (store_split 2 s1
                    (store_split 1 s1 initial_engine))))) in
  force_double_entry st = 0%Z
  ∧ xaccSplitRebalance (Some 1%positive) st = AssertFail.
Proof.
  intros usd eur s1 s3 tr st. split; [reflexivity|].
  apply (mixed_currencies_abort_without_enforcement st 1 1 2 3 1 2 [3%positive]
           tr s1 s3 usd eur "USD"%string); try reflexivity; try discriminate.
  - apply (engine_wf_heaps
             (store_trans 1 tr (store_split 3 s3 (store_split 2 s1
                (store_split 1 s1 initial_engine)))));
      [reflexivity | reflexivity | apply three_plain_splits_wf; reflexivity].
  - intros s sp a Hs Ha. simpl in Hs.
    apply lookup_insert_Some in Hs. destruct Hs as [[<- <-]|[_ Hs]].
    { injection Ha as <-. eexists. reflexivity. }
    apply lookup_insert_Some in Hs. destruct Hs as [[<- <-]|[_ Hs]].
    { injection Ha as <-. eexists. reflexivity. }
    apply lookup_insert_Some in Hs. destruct Hs as [[<- <-]|[_ Hs]].
    { injection Ha as <-. eexists. reflexivity. }
    rewrite lookup_empty in Hs. discriminate.
  - left.
Defined.
